(** * Ponger: the view layer (public/js/view.js)

    A shallow embedding of [PongerView].  The view is event driven: its
    methods register listeners on [window] and [document], and the browser
    later runs them.  The embedding keeps that shape: the methods are
    computations in a small state monad over the view object, the browser
    objects it touches and the injected model; the listener registry and the
    pending animation-frame callbacks are part of the state, and an event is
    dispatched by running every listener registered for it.

    [PongerModel] (public/js/model.js) is not part of this development: it
    enters as an interface, [PongerModel M], whose fields and methods are the
    ones view.js uses.

    Events.  The browser delivers resize, keyboard, blur and click events
    and animation frames; the model dispatches its four notifications on
    [document]; what the peer connection hands to the model changes the
    model between two listeners of the view.  All of these are events of
    the development.  A notification is delivered as an event of its own,
    also when the model dispatches it from within a method the view has
    called; the listeners of the notifications call no method of the model.
    A click reaches a button of the menu only while the menu is not hidden
    ([deliverable]), so that [start] runs at most once on a page. *)

From Stdlib Require Import Bool List String Ascii ZArith Lia PrimFloat Floats Uint63.
Import ListNotations.

Set Implicit Arguments.
Set Warnings "-inexact-float".

(** ** Numbers

    JavaScript numbers are IEEE 754 binary64 values; [PrimFloat.float] is the
    same format with the same rounding, so the view computes on [float].
    The inner size of the window is a DOM [long], and the [width] and
    [height] of a canvas element are [unsigned long] attributes: the view
    reads the former as numbers and assigns numbers to the latter, which the
    element converts and stores as whole numbers. *)

(** A whole number of the DOM, read by the script. *)
Definition number (z : Z) : float :=
  if (z <? 0)%Z then PrimFloat.opp (PrimFloat.of_uint63 (Uint63.of_Z (- z)))
  else PrimFloat.of_uint63 (Uint63.of_Z z).

(** The integer part of a number, towards zero; 0 for a NaN, an infinity
    and the zeros. *)
Definition integerPart (x : float) : Z :=
  match Prim2SF x with
  | S754_finite s m e => cond_Zopp s (Z.shiftl (Zpos m) e)
  | _ => 0%Z
  end.

(** The conversion of a number to an [unsigned long]: the integer part
    modulo 2^32. *)
Definition toUnsignedLong (x : float) : Z := (integerPart x mod 2 ^ 32)%Z.

(** What an [unsigned long] attribute that reflects a content attribute
    with a default holds, and returns when read, after [x] is assigned to
    it: the converted value when it is at most 2^31 - 1, the default
    otherwise. *)
Definition reflected (default : Z) (x : float) : float :=
  let u := toUnsignedLong x in
  number (if (u <=? 2147483647)%Z then u else default).

(** [k] binary zeros appended to [p]: the mantissa of a whole number. *)
Definition padded (k : nat) (p : positive) : positive := Nat.iter k xO p.

Module Resize.

(** The size of the canvas element, as [resizeCanvas] leaves it. *)
Record Size (N : Type) : Type := { width : N; height : N }.

(** The test that selects the branch: the window is narrower than the
    field, so the width constrains the canvas. *)
Definition widthConstrains (w h aw ah : float) : bool :=
  (w <? h * (aw / ah))%float.

(** The numbers [resizeCanvas] assigns to [canvas.width] and
    [canvas.height]: [w], [h] are [window.innerWidth] and
    [window.innerHeight], [aw], [ah] the model's [abstractWidth] and
    [abstractHeight]. *)
Definition assigned (w h aw ah : float) : Size float :=
  let fieldRatio := (aw / ah)%float in
  if (w <? h * fieldRatio)%float
  then {| width := (w - 10)%float; height := ((w - 10) / fieldRatio)%float |}
  else {| width := ((h - 10) * fieldRatio)%float; height := (h - 10)%float |}.

(** What the canvas element holds after the assignments: the defaults
    of [width] and [height] are 300 and 150. *)
Definition stored (c : Size float) : Size float :=
  {| width := reflected 300 (width c); height := reflected 150 (height c) |}.

(** view.js, [resizeCanvas], for a window of [w] by [h]. *)
Definition resizeCanvas (w h : Z) (aw ah : float) : Size float :=
  stored (assigned (number w) (number h) aw ah).

End Resize.

(** ** The model, as the view sees it *)

(** [model.states]: the enumeration object; the view compares [model.state]
    against its properties with [===]. *)
Record States (V : Type) : Type := {
  OFFLINE : V;
  CONNECTING : V;
  CONNECTION_FAILED : V;
  WAITING_OPPONENT_TO_CONNECT : V;
  WAITING_OPPONENT_TO_START : V;
  WAITING_PLAYER : V;
  OPPONENT_DISCONNECTED : V
}.

(** The interface of [PongerModel], taken as a parameter: its source
    (model.js) is not part of this development.  [M] is the state of the
    model object.  The fields are those view.js reads, the methods those it
    calls; a method is a transformer of the model's state.  The values of
    [state], the bats and the ball are kept abstract: of a bat the view uses
    [x], [y], [w], [h], of the ball [x], [y], [r].  [points] is [None] when
    the property is falsy (the view then paints 0), and holds the two scores,
    integers, otherwise. *)
Class PongerModel (M : Type) : Type := {
  StateVal : Type;
  StateVal_eq_dec : forall a b : StateVal, {a = b} + {a <> b};
  Bat : Type;
  bat_x : Bat -> float;
  bat_y : Bat -> float;
  bat_w : Bat -> float;
  bat_h : Bat -> float;
  Ball : Type;
  ball_x : Ball -> float;
  ball_y : Ball -> float;
  ball_r : Ball -> float;
  (* fields *)
  state : M -> StateVal;
  states : M -> States StateVal;
  ball : M -> Ball;
  leftBat : M -> Bat;
  rightBat : M -> Bat;
  points : M -> option (Z * Z);
  abstractWidth : M -> float;
  abstractHeight : M -> float;
  roomId : M -> string;
  (* methods *)
  model_init : option string -> option string -> M -> M;
  keyDown : Z -> M -> M;
  keyUp : Z -> M -> M;
  playerStarted : M -> M;
  updateBall : Z -> M -> M;
  updateBats : Z -> M -> M;
  detectCollision : Bat -> M -> M;
  detectPoint : M -> M;
  (* what the peer connection delivers to the model, and what the model
     makes of it; this happens between two listeners of the view *)
  PeerMsg : Type;
  receive : PeerMsg -> M -> M
}.

(** The names of the model's fields. *)
Inductive Field : Type :=
| F_state | F_states | F_ball | F_leftBat | F_rightBat | F_points
| F_abstractWidth | F_abstractHeight | F_roomId.

Definition Field_eqb (a b : Field) : bool :=
  match a, b with
  | F_state, F_state | F_states, F_states | F_ball, F_ball
  | F_leftBat, F_leftBat | F_rightBat, F_rightBat | F_points, F_points
  | F_abstractWidth, F_abstractWidth | F_abstractHeight, F_abstractHeight
  | F_roomId, F_roomId => true
  | _, _ => false
  end.

(** The notifications the model dispatches on [document]. *)
Inductive Notification : Type :=
| open_room | playing_online | disconnected | collision.

(** ** The canvas context *)

(** The first argument of [fillText]: a score or a message. *)
Inductive Text : Type :=
| TextNum (n : Z)
| TextStr (s : string).

(** Operations on the 2d context, property assignments included. *)
Inductive Draw : Type :=
| ClearRect (x y w h : float)
| BeginPath
| StrokeStyle (s : string)
| FillStyle (s : string)
| SetLineDash (segments : list float)
| LineWidth (w : float)
| MoveTo (x y : float)
| LineTo (x y : float)
| Stroke
| Font (px : float) (family : string)
| TextBaseline (s : string)
| TextAlign (s : string)
| FillText (t : Text) (x y : float) (maxWidth : option float)
| Arc (x y r startAngle endAngle : float)
| Fill
| FillRect (x y w h : float).

(** ** The browser *)

(** The element with id [menu]: whether its class list holds [hidden], the
    [value] of each of its buttons, and the index of the focused button. *)
Record Menu : Type := {
  hidden : bool;
  buttons : list string;
  focused : option nat
}.

(** A registered listener, named after the event it listens to; [OnClick i]
    is the click listener of the menu's [i]-th button. *)
Inductive Listener : Type :=
| OnResize | OnKeyDown | OnKeyUp | OnKeyPress | OnBlur
| OnOpenRoom | OnPlayingOnline | OnDisconnected | OnCollision
| OnClick (i : nat).

(** [window] and [document].  [innerWidth] and [innerHeight] are DOM
    [long]s.  [listeners] is in registration order;
    [frameRequests] counts the callbacks passed to [requestAnimationFrame]
    and not yet run; the [n]-th evaluation of [new Date()] yields [clock n]
    (in milliseconds), [ticks] counts the evaluations so far.  [hash] is
    [window.location.hash]: the fragment of the page's URL with its [#],
    or the value last assigned. *)
Record Browser : Type := {
  innerWidth : Z;
  innerHeight : Z;
  hash : string;
  menu : option Menu;
  listeners : list Listener;
  frameRequests : nat;
  clock : nat -> Z;
  ticks : nat
}.

(** The fields of the [PongerView] instance, [this.model] apart.  [canvas]
    is the size the canvas element holds, as the script reads it back:
    whole numbers. *)
Record ViewObj : Type := {
  started : bool;
  playing : bool;
  prevTime : Z;
  sound : option string;
  canvas : Resize.Size float
}.

Section View.
Context {M : Type} {PM : PongerModel M}.

(** *** What a run of the view does to its surroundings *)

(** A call of a method of the model. *)
Inductive Call : Type :=
| CInit (mode roomHash : option string)
| CKeyDown (which : Z)
| CKeyUp (which : Z)
| CPlayerStarted
| CUpdateBall (dt : Z)
| CUpdateBats (dt : Z)
| CDetectCollision (bat : Bat)
| CDetectPoint.

Definition applyCall (c : Call) : M -> M :=
  match c with
  | CInit mode roomHash => model_init mode roomHash
  | CKeyDown k => keyDown k
  | CKeyUp k => keyUp k
  | CPlayerStarted => playerStarted
  | CUpdateBall dt => updateBall dt
  | CUpdateBats dt => updateBats dt
  | CDetectCollision b => detectCollision b
  | CDetectPoint => detectPoint
  end.

(** The value a read of a field of the model returned. *)
Inductive Value : Type :=
| VState (v : StateVal)
| VStates (v : States StateVal)
| VBall (v : Ball)
| VBat (v : Bat)
| VPoints (v : option (Z * Z))
| VNum (v : float)
| VStr (v : string).

(** The effects of the view, in the order they happen: reads of a field of
    the model, calls of its methods, operations on the canvas context,
    playbacks of an audio element (named by its source). *)
Inductive Effect : Type :=
| Read (f : Field) (v : Value)
| Invoke (c : Call)
| Paint (d : Draw)
| Play (src : string).

(** *** State *)

Record World : Type := {
  this : ViewObj;
  browser : Browser;
  model : M
}.

(** A computation of the view: it transforms the world, returns a value
    and leaves a trace of effects. *)
Definition V (A : Type) : Type := World -> A * World * list Effect.

Definition ret {A} (a : A) : V A := fun w => (a, w, []).

Definition bind {A B} (c : V A) (k : A -> V B) : V B :=
  fun w =>
    let '(a, w1, t1) := c w in
    let '(b, w2, t2) := k a w1 in
    (b, w2, t1 ++ t2).

Definition gets {A} (f : World -> A) : V A := fun w => (f w, w, []).
Definition modify (f : World -> World) : V unit := fun w => (tt, f w, []).
Definition emit (e : Effect) : V unit := fun w => (tt, w, [e]).
Definition when (b : bool) (c : V unit) : V unit := if b then c else ret tt.

Definition value {A} (c : V A) (w : World) : A := fst (fst (c w)).
Definition exec {A} (c : V A) (w : World) : World := snd (fst (c w)).
Definition trace {A} (c : V A) (w : World) : list Effect := snd (c w).

Declare Scope view_scope.
Delimit Scope view_scope with view.
Notation "x <- c ;; k" := (bind c (fun x => k))
  (at level 61, c at next level, right associativity) : view_scope.
Notation "c ;; k" := (bind c (fun _ => k))
  (at level 61, right associativity) : view_scope.
Local Open Scope view_scope.

(** *** Assignments *)

Definition withThis (f : ViewObj -> ViewObj) (w : World) : World :=
  {| this := f (this w); browser := browser w; model := model w |}.

Definition withBrowser (f : Browser -> Browser) (w : World) : World :=
  {| this := this w; browser := f (browser w); model := model w |}.

Definition withModel (f : M -> M) (w : World) : World :=
  {| this := this w; browser := browser w; model := f (model w) |}.

Definition set_started (b : bool) (v : ViewObj) : ViewObj :=
  {| started := b; playing := playing v; prevTime := prevTime v;
     sound := sound v; canvas := canvas v |}.

Definition set_playing (b : bool) (v : ViewObj) : ViewObj :=
  {| started := started v; playing := b; prevTime := prevTime v;
     sound := sound v; canvas := canvas v |}.

Definition set_prevTime (t : Z) (v : ViewObj) : ViewObj :=
  {| started := started v; playing := playing v; prevTime := t;
     sound := sound v; canvas := canvas v |}.

Definition set_sound (s : option string) (v : ViewObj) : ViewObj :=
  {| started := started v; playing := playing v; prevTime := prevTime v;
     sound := s; canvas := canvas v |}.

Definition set_canvas (c : Resize.Size float) (v : ViewObj) : ViewObj :=
  {| started := started v; playing := playing v; prevTime := prevTime v;
     sound := sound v; canvas := c |}.

Definition set_size (w h : Z) (b : Browser) : Browser :=
  {| innerWidth := w; innerHeight := h; hash := hash b; menu := menu b;
     listeners := listeners b; frameRequests := frameRequests b;
     clock := clock b; ticks := ticks b |}.

Definition set_hash (s : string) (b : Browser) : Browser :=
  {| innerWidth := innerWidth b; innerHeight := innerHeight b; hash := s;
     menu := menu b; listeners := listeners b;
     frameRequests := frameRequests b; clock := clock b; ticks := ticks b |}.

Definition set_menu (m : option Menu) (b : Browser) : Browser :=
  {| innerWidth := innerWidth b; innerHeight := innerHeight b;
     hash := hash b; menu := m; listeners := listeners b;
     frameRequests := frameRequests b; clock := clock b; ticks := ticks b |}.

Definition set_listeners (l : list Listener) (b : Browser) : Browser :=
  {| innerWidth := innerWidth b; innerHeight := innerHeight b;
     hash := hash b; menu := menu b; listeners := l;
     frameRequests := frameRequests b; clock := clock b; ticks := ticks b |}.

Definition set_frameRequests (n : nat) (b : Browser) : Browser :=
  {| innerWidth := innerWidth b; innerHeight := innerHeight b;
     hash := hash b; menu := menu b; listeners := listeners b;
     frameRequests := n; clock := clock b; ticks := ticks b |}.

Definition set_ticks (n : nat) (b : Browser) : Browser :=
  {| innerWidth := innerWidth b; innerHeight := innerHeight b;
     hash := hash b; menu := menu b; listeners := listeners b;
     frameRequests := frameRequests b; clock := clock b; ticks := n |}.

Definition set_hidden (h : bool) (m : Menu) : Menu :=
  {| hidden := h; buttons := buttons m; focused := focused m |}.

Definition set_focused (f : option nat) (m : Menu) : Menu :=
  {| hidden := hidden m; buttons := buttons m; focused := f |}.

(** *** Primitive operations *)

(** [this.model.f()]: the call is logged and the method transforms the
    model. *)
Definition call (c : Call) : V unit :=
  emit (Invoke c) ;; modify (withModel (applyCall c)).

(** [this.model.f]: a logged read of a field. *)
Definition readState : V StateVal :=
  v <- gets (fun w => state (model w)) ;; emit (Read F_state (VState v)) ;; ret v.
Definition readStates : V (States StateVal) :=
  v <- gets (fun w => states (model w)) ;; emit (Read F_states (VStates v)) ;; ret v.
Definition readBall : V Ball :=
  v <- gets (fun w => ball (model w)) ;; emit (Read F_ball (VBall v)) ;; ret v.
Definition readLeftBat : V Bat :=
  v <- gets (fun w => leftBat (model w)) ;; emit (Read F_leftBat (VBat v)) ;; ret v.
Definition readRightBat : V Bat :=
  v <- gets (fun w => rightBat (model w)) ;; emit (Read F_rightBat (VBat v)) ;; ret v.
Definition readPoints : V (option (Z * Z)) :=
  v <- gets (fun w => points (model w)) ;; emit (Read F_points (VPoints v)) ;; ret v.
Definition readAbstractWidth : V float :=
  v <- gets (fun w => abstractWidth (model w)) ;;
  emit (Read F_abstractWidth (VNum v)) ;; ret v.
Definition readAbstractHeight : V float :=
  v <- gets (fun w => abstractHeight (model w)) ;;
  emit (Read F_abstractHeight (VNum v)) ;; ret v.
Definition readRoomId : V string :=
  v <- gets (fun w => roomId (model w)) ;; emit (Read F_roomId (VStr v)) ;; ret v.

(** [a === b] on values of [model.state]. *)
Definition sameState (a b : StateVal) : bool :=
  if StateVal_eq_dec a b then true else false.

Definition paint (d : Draw) : V unit := emit (Paint d).

(** [new Date()]. *)
Definition newDate : V Z :=
  n <- gets (fun w => ticks (browser w)) ;;
  t <- gets (fun w => clock (browser w) n) ;;
  modify (withBrowser (set_ticks (S n))) ;;
  ret t.

(** [addEventListener]: every arrow function is a new listener, so nothing
    is ever deduplicated. *)
Definition addEventListener (l : Listener) : V unit :=
  modify (withBrowser (fun b => set_listeners (listeners b ++ [l]) b)).

Definition requestAnimationFrame : V unit :=
  modify (withBrowser (fun b => set_frameRequests (S (frameRequests b)) b)).

Definition canvasWidth : V float := gets (fun w => Resize.width (canvas (this w))).
Definition canvasHeight : V float := gets (fun w => Resize.height (canvas (this w))).

(** [menu.classList.add('hidden')] and [remove('hidden')], within
    [if (menu)]. *)
Definition menuHidden (h : bool) : V unit :=
  modify (withBrowser (fun b => set_menu (option_map (set_hidden h) (menu b)) b)).

(** *** The methods of [PongerView] *)

Definition dq : string := String (ascii_of_nat 34) EmptyString.

(** The font family of both [context.font] assignments:
    [dq]Lucida Console[dq], Monaco, monospace. *)
Definition fontFamily : string :=
  (dq ++ "Lucida Console" ++ dq ++ ", Monaco, monospace")%string.

Definition PI : float := 0x1.921fb54442d18p+1%float.

(** [s.substr(n)]: [s] from index [n] on. *)
Definition substr (n : nat) (s : string) : string :=
  String.substring n (String.length s - n) s.

(** [resizeCanvas()] *)
Definition resizeCanvas : V unit :=
  w <- gets (fun w => innerWidth (browser w)) ;;
  h <- gets (fun w => innerHeight (browser w)) ;;
  aw <- readAbstractWidth ;;
  ah <- readAbstractHeight ;;
  modify (withThis (set_canvas (Resize.resizeCanvas w h aw ah))).

(** [drawLines()] *)
Definition drawLines : V unit :=
  cw <- canvasWidth ;;
  ch <- canvasHeight ;;
  paint BeginPath ;;
  paint (StrokeStyle "rgba(255, 255, 255, .1)") ;;
  paint (SetLineDash [cw * 0.04; cw * 0.047]%float) ;;
  paint (LineWidth (cw * 0.015)%float) ;;
  paint (MoveTo (cw / 2) 0)%float ;;
  paint (LineTo (cw / 2) ch)%float ;;
  paint Stroke ;;
  paint (SetLineDash []).

(** [this.model.points ? this.model.points[i] : 0], for [i] 0 or 1. *)
Definition pointsText (i : bool) : V Text :=
  p <- readPoints ;;
  match p with
  | Some _ =>
      q <- readPoints ;;
      ret (TextNum (match q with
                    | Some (l, r) => if i then r else l
                    | None => 0%Z
                    end))
  | None => ret (TextNum 0)
  end.

(** [drawPoints()] *)
Definition drawPoints : V unit :=
  cw <- canvasWidth ;;
  paint (FillStyle "rgba(255, 255, 255, .3)") ;;
  paint (Font (cw / 10)%float fontFamily) ;;
  paint (TextBaseline "top") ;;
  paint (TextAlign "right") ;;
  l <- pointsText false ;;
  paint (FillText l ((cw / 2) - (cw * 0.02)) (cw * 0.02) None)%float ;;
  paint (FillStyle "rgba(255, 255, 255, .3)") ;;
  paint (TextAlign "left") ;;
  r <- pointsText true ;;
  paint (FillText r ((cw / 2) + (cw * 0.02)) (cw * 0.02) None)%float.

(** [drawBall()] *)
Definition drawBall : V unit :=
  cw <- canvasWidth ;;
  ch <- canvasHeight ;;
  paint BeginPath ;;
  paint (FillStyle "yellow") ;;
  b1 <- readBall ;;
  aw1 <- readAbstractWidth ;;
  b2 <- readBall ;;
  ah <- readAbstractHeight ;;
  b3 <- readBall ;;
  aw2 <- readAbstractWidth ;;
  paint (Arc (ball_x b1 / aw1 * cw) (ball_y b2 / ah * ch)
             (cw * ball_r b3 / aw2) 0 (PI * 2))%float ;;
  paint Fill.

(** [drawBat(bat)] *)
Definition drawBat (bat : Bat) : V unit :=
  cw <- canvasWidth ;;
  ch <- canvasHeight ;;
  paint (FillStyle "white") ;;
  aw1 <- readAbstractWidth ;;
  ah1 <- readAbstractHeight ;;
  aw2 <- readAbstractWidth ;;
  ah2 <- readAbstractHeight ;;
  paint (FillRect ((bat_x bat - (bat_w bat / 2)) / aw1 * cw)
                  ((bat_y bat - (bat_h bat / 2)) / ah1 * ch)
                  (bat_w bat / aw2 * cw)
                  (bat_h bat / ah2 * ch))%float.

(** [getInfoText()]: the [switch] reads [model.state] once and then
    [model.states] for each [case] it reaches. *)
Definition getInfoText : V string :=
  st <- readState ;;
  s1 <- readStates ;;
  if sameState st (CONNECTING s1) then ret "Connecting..."%string else
  s2 <- readStates ;;
  if sameState st (CONNECTION_FAILED s2) then ret "Connection failed."%string else
  s3 <- readStates ;;
  if sameState st (WAITING_OPPONENT_TO_CONNECT s3)
  then ret "Share the URL with your opponent to connect!"%string else
  s4 <- readStates ;;
  if sameState st (WAITING_OPPONENT_TO_START s4)
  then ret "Waiting opponent to start."%string else
  s5 <- readStates ;;
  if sameState st (OPPONENT_DISCONNECTED s5)
  then ret "Opponent disconnected."%string else
  b <- gets (fun w => started (this w)) ;;
  ret ("Press " ++ dq ++ "SPACE" ++ dq ++ " to "
         ++ (if b then "continue" else "start") ++ "!")%string.

(** [drawPausedInfo()] *)
Definition drawPausedInfo : V unit :=
  cw <- canvasWidth ;;
  ch <- canvasHeight ;;
  paint (FillStyle "rgba(255, 255, 255, .6)") ;;
  paint (FillRect ((cw / 2) - (cw * 0.35)) ((ch / 2) - (ch * 0.1))
                  (cw * 0.7) (ch * 0.2))%float ;;
  paint (FillStyle "#2e3f73") ;;
  paint (Font (cw / 25)%float fontFamily) ;;
  paint (TextBaseline "middle") ;;
  paint (TextAlign "center") ;;
  txt <- getInfoText ;;
  paint (FillText (TextStr txt) (cw / 2) (ch / 2) (Some (cw * 0.65)))%float.

(** The simulation step of [loop()], taken when [this.playing] holds. *)
Definition advance : V unit :=
  now <- newDate ;;
  prev <- gets (fun w => prevTime (this w)) ;;
  let dt := (now - prev)%Z in
  call (CUpdateBall dt) ;;
  st <- readState ;;
  sts <- readStates ;;
  when (sameState st (OFFLINE sts))
    (call (CUpdateBats dt) ;;
     lb <- readLeftBat ;;
     call (CDetectCollision lb) ;;
     rb <- readRightBat ;;
     call (CDetectCollision rb) ;;
     call CDetectPoint).

(** The painting step of [loop()]. *)
Definition redraw : V unit :=
  cw <- canvasWidth ;;
  ch <- canvasHeight ;;
  paint (ClearRect 0 0 cw ch) ;;
  drawLines ;;
  drawPoints ;;
  lb <- readLeftBat ;;
  drawBat lb ;;
  rb <- readRightBat ;;
  drawBat rb ;;
  drawBall ;;
  q <- gets (fun w => playing (this w)) ;;
  when (negb q) drawPausedInfo.

(** [loop()] *)
Definition loop : V unit :=
  requestAnimationFrame ;;
  p <- gets (fun w => playing (this w)) ;;
  when p advance ;;
  redraw ;;
  t <- newDate ;;
  modify (withThis (set_prevTime t)).

(** [handleModelEvents()] *)
Definition handleModelEvents : V unit :=
  addEventListener OnOpenRoom ;;
  addEventListener OnPlayingOnline ;;
  addEventListener OnDisconnected ;;
  addEventListener OnCollision.

(** [start(mode, hash)] *)
Definition start (mode roomHash : option string) : V unit :=
  call (CInit mode roomHash) ;;
  t <- newDate ;;
  modify (withThis (set_prevTime t)) ;;
  addEventListener OnKeyDown ;;
  addEventListener OnKeyUp ;;
  addEventListener OnKeyPress ;;
  st <- readState ;;
  sts <- readStates ;;
  when (sameState st (OFFLINE sts)) (addEventListener OnBlur) ;;
  handleModelEvents ;;
  loop.

(** [element.focus()] on the menu's [i]-th button, and [btn.blur()]. *)
Definition focusButton (i : nat) : V unit :=
  modify (withBrowser
            (fun b => set_menu (option_map (set_focused (Some i)) (menu b)) b)).

Definition blurButton (i : nat) : V unit :=
  modify (withBrowser
    (fun b => set_menu
       (option_map (fun m => match focused m with
                             | Some j => if Nat.eqb i j then set_focused None m else m
                             | None => m
                             end) (menu b)) b)).

(** The body of [menu.querySelectorAll('button').forEach], from index [i]
    on. *)
Fixpoint wireButtons (i : nat) (bs : list string) : V unit :=
  match bs with
  | [] => ret tt
  | _ :: rest =>
      when (Nat.eqb i 0) (focusButton i) ;;
      addEventListener (OnClick i) ;;
      wireButtons (S i) rest
  end.

(** [init()] *)
Definition init : V unit :=
  call (CInit None None) ;;
  modify (withThis (set_sound (Some "./sound.wav"%string))) ;;
  modify (withThis (set_started false)) ;;
  modify (withThis (set_playing false)) ;;
  addEventListener OnResize ;;
  resizeCanvas ;;
  mn <- gets (fun w => menu (browser w)) ;;
  h <- gets (fun w => hash (browser w)) ;;
  if negb (String.eqb h "") && negb (String.eqb h "#") then
    menuHidden true ;;
    start (Some "online"%string) (Some (substr 1 h))
  else
    match mn with
    | Some m => menuHidden false ;; wireButtons 0 (buttons m)
    | None => ret tt
    end.

(** *** The listeners *)

(** The [keypress] listener of [start]. *)
Definition onKeyPress (which : Z) : V unit :=
  when (which =? 32)%Z
    (st <- readState ;;
     s1 <- readStates ;;
     if sameState st (OFFLINE s1) then
       modify (withThis (set_started true)) ;;
       p <- gets (fun w => playing (this w)) ;;
       modify (withThis (set_playing (negb p)))
     else
       s2 <- readStates ;;
       if sameState st (WAITING_PLAYER s2) then call CPlayerStarted
       else ret tt).

(** The [click] listener of the menu's [i]-th button: [event.target] lies
    within that button, which [closest('button')] returns. *)
Definition onClick (i : nat) : V unit :=
  menuHidden true ;;
  blurButton i ;;
  v <- gets (fun w => match menu (browser w) with
                      | Some m => nth_error (buttons m) i
                      | None => None
                      end) ;;
  start v None.

(** What the browser delivers.  [Resize w h]: the window takes the inner
    size [w] by [h] and [resize] fires.  [KeyDown], [KeyUp] and [KeyPress]
    carry [event.which].  [Notify n]: the model has dispatched [n] on
    [document].  [Click i]: a click within the menu's [i]-th button.
    [AnimationFrame]: the browser runs the pending frame callbacks.
    [Peer x]: the peer connection hands [x] to the model; no listener of
    the view is involved. *)
Inductive Event : Type :=
| Resize (w h : Z)
| KeyDown (which : Z)
| KeyUp (which : Z)
| KeyPress (which : Z)
| Blur
| Notify (n : Notification)
| Click (i : nat)
| AnimationFrame
| Peer (x : PeerMsg).

(** Listener [l] on event [e]: the body of the arrow function when the
    listener is registered for the event, nothing otherwise. *)
Definition listen (e : Event) (l : Listener) : V unit :=
  match l, e with
  | OnResize, Resize _ _ => resizeCanvas
  | OnKeyDown, KeyDown k => call (CKeyDown k)
  | OnKeyUp, KeyUp k => call (CKeyUp k)
  | OnKeyPress, KeyPress k => onKeyPress k
  | OnBlur, Blur => modify (withThis (set_playing false))
  | OnOpenRoom, Notify open_room =>
      r <- readRoomId ;; modify (withBrowser (set_hash r))
  | OnPlayingOnline, Notify playing_online => modify (withThis (set_playing true))
  | OnDisconnected, Notify disconnected => modify (withThis (set_playing false))
  | OnCollision, Notify collision =>
      s <- gets (fun w => sound (this w)) ;;
      match s with
      | Some src => emit (Play src)
      | None => ret tt
      end
  | OnClick i, Click j => when (Nat.eqb i j) (onClick i)
  | _, _ => ret tt
  end.

Fixpoint forEach {A} (f : A -> V unit) (l : list A) : V unit :=
  match l with
  | [] => ret tt
  | a :: rest => f a ;; forEach f rest
  end.

Fixpoint times (n : nat) (c : V unit) : V unit :=
  match n with
  | O => ret tt
  | S k => c ;; times k c
  end.

(** The browser delivers [e]: the listeners registered so far run in
    registration order; an animation frame runs the frame callbacks
    requested so far, each of which is [loop]; a message of the peer is
    handled by the model. *)
Definition dispatch (e : Event) : V unit :=
  match e with
  | AnimationFrame =>
      n <- gets (fun w => frameRequests (browser w)) ;;
      modify (withBrowser (set_frameRequests 0)) ;;
      times n loop
  | _ =>
      match e with
      | Resize w h => modify (withBrowser (set_size w h))
      | Peer x => modify (withModel (receive x))
      | _ => ret tt
      end ;;
      ls <- gets (fun w => listeners (browser w)) ;;
      forEach (listen e) ls
  end.

Definition run (es : list Event) : V unit := forEach dispatch es.

(** *** Loading the page *)

(** The page as the script finds it. *)
Record Page : Type := {
  page_innerWidth : Z;
  page_innerHeight : Z;
  page_hash : string;
  page_menu : option Menu;
  page_clock : nat -> Z
}.

(** [new PongerView(model)]: the fields [init] assigns are still
    undefined; the canvas has the default size of the element. *)
Definition constructor (p : Page) (m : M) : World :=
  {| this := {| started := false; playing := false; prevTime := 0;
                sound := None;
                canvas := {| Resize.width := 300%float;
                             Resize.height := 150%float |} |};
     browser := {| innerWidth := page_innerWidth p;
                   innerHeight := page_innerHeight p;
                   hash := page_hash p;
                   menu := page_menu p;
                   listeners := [];
                   frameRequests := 0;
                   clock := page_clock p;
                   ticks := 0 |};
     model := m |}.

(** The script of view.js followed by the events [es]. *)
Definition session (es : list Event) : V unit := init ;; run es.

(** *** The environment *)

(** A click reaches a button only while the menu is displayed. *)
Definition deliverable (w : World) (e : Event) : bool :=
  match e with
  | Click i =>
      match menu (browser w) with
      | Some m => negb (hidden m) && Nat.ltb i (List.length (buttons m))
      | None => false
      end
  | _ => true
  end.

Fixpoint admissible (es : list Event) (w : World) : bool :=
  match es with
  | [] => true
  | e :: rest => deliverable w e && admissible rest (exec (dispatch e) w)
  end.

(** *** Reading a trace *)

Definition callOf (e : Effect) : option Call :=
  match e with Invoke c => Some c | _ => None end.

Definition drawOf (e : Effect) : option Draw :=
  match e with Paint d => Some d | _ => None end.

Definition playOf (e : Effect) : option string :=
  match e with Play s => Some s | _ => None end.

Definition readOf (e : Effect) : option (Field * Value) :=
  match e with Read f v => Some (f, v) | _ => None end.

Fixpoint pick {A B} (f : A -> option B) (l : list A) : list B :=
  match l with
  | [] => []
  | a :: rest =>
      match f a with
      | Some b => b :: pick f rest
      | None => pick f rest
      end
  end.

(** The calls into the model, the canvas operations, the playbacks and
    the fields read, each in order. *)
Definition calls (t : list Effect) : list Call := pick callOf t.
Definition rendering (t : list Effect) : list Draw := pick drawOf t.
Definition playbacks (t : list Effect) : list string := pick playOf t.
Definition reads (t : list Effect) : list (Field * Value) := pick readOf t.
Definition fieldsRead (t : list Effect) : list Field := map fst (reads t).

(** A trace of reads and canvas operations only. *)
Definition passive (t : list Effect) : bool :=
  forallb (fun e => match e with Read _ _ | Paint _ => true | _ => false end) t.

(** A computation that only looks at the model and paints. *)
Definition observes {A} (c : V A) : Prop :=
  forall w, exec c w = w /\ passive (trace c w) = true.

(** The model after the calls [cs], made in order. *)
Definition replay (cs : list Call) (m : M) : M :=
  fold_left (fun m c => applyCall c m) cs m.

(** [model.state === model.states.OFFLINE] *)
Definition offline (m : M) : bool := sameState (state m) (OFFLINE (states m)).

(** Where the view stands, as its trace tells.  No session is open until
    [start] calls [model.init] with a mode; [start] then reads
    [model.state] and [model.states] to decide whether the session is an
    offline one. *)
Inductive Phase : Type :=
| Idle
| Opening
| Tested (v : StateVal)
| Session (isOffline : bool).

Definition phaseStep (ph : Phase) (e : Effect) : Phase :=
  match ph, e with
  | Idle, Invoke (CInit (Some _) _) => Opening
  | Opening, Read F_state (VState v) => Tested v
  | Tested v, Read F_states (VStates s) => Session (sameState v (OFFLINE s))
  | _, _ => ph
  end.

Definition phaseOf (t : list Effect) : Phase := fold_left phaseStep t Idle.

(** The fields of the model that the interface description lists as read
    by the renderer. *)
Definition listedFields : list Field :=
  [F_state; F_states; F_ball; F_leftBat; F_rightBat; F_points;
   F_abstractWidth; F_abstractHeight].

Definition listed (f : Field) : bool := existsb (Field_eqb f) listedFields.

(** The reads of listed fields, with the values they returned. *)
Definition listedReads (t : list Effect) : list (Field * Value) :=
  filter (fun r => listed (fst r)) (reads t).

(** *** Whole runs *)

(** The world and the trace once the script has run on page [p] with model
    [m] and the events [es] have been delivered. *)
Definition reached (p : Page) (m : M) (es : list Event) : World :=
  exec (session es) (constructor p m).

Definition history (p : Page) (m : M) (es : list Event) : list Effect :=
  trace (session es) (constructor p m).

(** The environment kept to its contract while delivering [es]. *)
Definition wellFormed (p : Page) (m : M) (es : list Event) : bool :=
  admissible es (exec init (constructor p m)).

(** The calls a frame is to make in world [w] while [this.playing] holds:
    [dt] is the time since [this.prevTime], and the state compared with
    [OFFLINE] is the one [updateBall] leaves. *)
Definition frameCalls (w : World) : list Call :=
  let dt := (clock (browser w) (ticks (browser w)) - prevTime (this w))%Z in
  let m1 := updateBall dt (model w) in
  CUpdateBall dt ::
    (if offline m1 then
       let m2 := updateBats dt m1 in
       let m3 := detectCollision (leftBat m2) m2 in
       [CUpdateBats dt; CDetectCollision (leftBat m2);
        CDetectCollision (rightBat m3); CDetectPoint]
     else []).

Definition isUpdate (c : Call) : bool :=
  match c with
  | CUpdateBall _ | CUpdateBats _ => true
  | _ => false
  end.

Definition isPlayingOnline (e : Event) : bool :=
  match e with Notify playing_online => true | _ => false end.

Definition isCollision (e : Event) : bool :=
  match e with Notify collision => true | _ => false end.

Definition isSpace (e : Event) : bool :=
  match e with KeyPress k => (k =? 32)%Z | _ => false end.

(** None of the events [es] is a press of the space bar that finds
    [model.state] at [OFFLINE]. *)
Fixpoint noOfflineStart (es : list Event) (w : World) : bool :=
  match es with
  | [] => true
  | e :: rest =>
      negb (isSpace e && offline (model w)) &&
      noOfflineStart rest (exec (dispatch e) w)
  end.

(** Two worlds that differ at most in the model and in the URL fragment. *)
Definition sameView (w1 w2 : World) : Prop :=
  this w1 = this w2 /\
  set_hash EmptyString (browser w1) = set_hash EmptyString (browser w2).

End View.

Arguments World : clear implicits.

(** ** Sessions *)

Section Sessions.
Context {M : Type} {PM : PongerModel M}.
(** The listeners [start] registers, for an offline session or another. *)
Definition sessionListeners (isOffline : bool) : list Listener :=
  [OnKeyDown; OnKeyUp; OnKeyPress] ++
  (if isOffline then [OnBlur] else []) ++
  [OnOpenRoom; OnPlayingOnline; OnDisconnected; OnCollision].

Definition isClick (l : Listener) : bool :=
  match l with OnClick _ => true | _ => false end.

Definition isClickEvent (e : Event) : bool :=
  match e with Click _ => true | _ => false end.

Definition menuButtons (w : World M) : nat :=
  match menu (browser w) with
  | Some m => List.length (buttons m)
  | None => 0
  end.

Definition menuDisplayed (w : World M) : bool :=
  match menu (browser w) with
  | Some m => negb (hidden m)
  | None => false
  end.

(** What holds of the world in each phase.  Before a session opens the
    view is paused, no frame is requested and only the [resize] listener
    and the buttons' [click] listeners are registered.  Once [start] has
    run, one frame callback is pending at any time, the menu is out of
    reach, and the listeners of [start] are registered exactly once. *)
Definition Inv (ph : Phase) (w : World M) : Prop :=
  sound (this w) = Some "./sound.wav"%string /\
  match ph with
  | Idle =>
      playing (this w) = false /\
      frameRequests (browser w) = 0 /\
      listeners (browser w) = OnResize :: map OnClick (seq 0 (menuButtons w))
  | Session b =>
      frameRequests (browser w) = 1 /\
      menuDisplayed w = false /\
      exists cl, forallb isClick cl = true /\
                 listeners (browser w) = OnResize :: cl ++ sessionListeners b
  | _ => False
  end.
(** The world as the listeners of an event find it: the window has been
    resized, or the model has handled the peer's message, if the event
    says so. *)
Definition arrive (e : Event) (w : World M) : World M :=
  match e with
  | Resize a b => withBrowser (set_size a b) w
  | Peer x => withModel (receive x) w
  | _ => w
  end.

Definition isPeer (e : Event) : bool :=
  match e with Peer _ => true | _ => false end.

Definition isFrame (e : Event) : bool :=
  match e with AnimationFrame => true | _ => false end.

(** The world in which [start] calls [loop]. *)
Definition started_world (mode roomHash : option string) (w : World M) : World M :=
  let m1 := model_init mode roomHash (model w) in
  {| this := set_prevTime (clock (browser w) (ticks (browser w))) (this w);
     browser :=
       set_listeners (listeners (browser w) ++ sessionListeners (offline m1))
         (set_ticks (S (ticks (browser w))) (browser w));
     model := m1 |}.
(** What an open session relies on: the audio element, the registered
    listeners, the pending frame callbacks and the menu. *)
Definition fixture (w : World M)
  : option string * list Listener * nat * option Menu :=
  (sound (this w), listeners (browser w), frameRequests (browser w),
   menu (browser w)).

(** A computation that leaves the fixture alone. *)
Definition keeps {A} (c : V A) : Prop :=
  forall w, fixture (exec c w) = fixture w.
(** The page was opened through a link that carries a room: the test of
    [init] on [window.location.hash]. *)
Definition joining (p : Page) : bool :=
  negb (String.eqb (page_hash p) "") && negb (String.eqb (page_hash p) "#").

(** The world in which [init] goes on after [resizeCanvas]. *)
Definition sized (p : Page) (m : M) : World M :=
  let m0 := model_init None None m in
  {| this := {| started := false; playing := false; prevTime := 0;
                sound := Some "./sound.wav"%string;
                canvas := Resize.resizeCanvas (page_innerWidth p)
                            (page_innerHeight p) (abstractWidth m0)
                            (abstractHeight m0) |};
     browser := {| innerWidth := page_innerWidth p;
                   innerHeight := page_innerHeight p;
                   hash := page_hash p;
                   menu := page_menu p;
                   listeners := [OnResize];
                   frameRequests := 0;
                   clock := page_clock p;
                   ticks := 0 |};
     model := m0 |}.
(** [model.state === model.states.WAITING_PLAYER] *)
Definition waitingPlayer (m : M) : bool :=
  sameState (state m) (WAITING_PLAYER (states m)).

(** The listener [handleModelEvents] registers for a notification. *)
Definition listenerOf (n : Notification) : Listener :=
  match n with
  | open_room => OnOpenRoom
  | playing_online => OnPlayingOnline
  | disconnected => OnDisconnected
  | collision => OnCollision
  end.

(** What the listeners of a session, taken together, do on an event:
    [b] tells whether the session was opened offline. *)
Definition reaction (b : bool) (e : Event) : V unit :=
  match e with
  | Resize _ _ => resizeCanvas
  | KeyDown k => call (CKeyDown k)
  | KeyUp k => call (CKeyUp k)
  | KeyPress k => onKeyPress k
  | Blur => when b (modify (withThis (set_playing false)))
  | Notify n => listen e (listenerOf n)
  | _ => ret tt
  end.

(** What the [keypress] listener does to the world. *)
Definition pressed (k : Z) (w : World M) : World M :=
  if (k =? 32)%Z then
    if offline (model w) then
      withThis (fun v => set_playing (negb (playing v)) (set_started true v)) w
    else if waitingPlayer (model w) then withModel playerStarted w
    else w
  else w.
(** A computation all of whose effects satisfy [Q]. *)
Definition emits (Q : Effect -> bool) {A} (c : V A) : Prop :=
  forall w, forallb Q (trace c w) = true.

(** A computation that changes the model through calls of its methods
    only: the model it leaves is the one its calls produce. *)
Definition byCalls {A} (c : V A) : Prop :=
  forall w, model (exec c w) = replay (calls (trace c w)) (model w).

Definition noPlay (e : Effect) : bool :=
  match e with Play _ => false | _ => true end.

(** The call by which a listener forwards an input event to the model. *)
Definition forwarding (e : Event) (c : Call) : bool :=
  match e, c with
  | KeyDown k, CKeyDown j => Z.eqb k j
  | KeyUp k, CKeyUp j => Z.eqb k j
  | KeyPress _, CPlayerStarted => true
  | _, _ => false
  end.

Definition forwards (e : Event) (x : Effect) : bool :=
  match x with Invoke c => forwarding e c | _ => true end.
(** A computation whose result, rendering and calls are settled by the
    world outside the model and by what its reads of the listed fields
    return: two runs from worlds that differ at most in the model and in
    the URL fragment, and whose reads of listed fields return the same
    values, end alike.  [x1] and [x2] stand for the reads that follow. *)
Definition determined {A} (c : V A) : Prop :=
  forall (w1 w2 : World M) (x1 x2 : list (Field * Value)),
    sameView w1 w2 ->
    listedReads (trace c w1) ++ x1 = listedReads (trace c w2) ++ x2 ->
    value c w1 = value c w2 /\
    sameView (exec c w1) (exec c w2) /\
    rendering (trace c w1) = rendering (trace c w2) /\
    calls (trace c w1) = calls (trace c w2) /\
    x1 = x2.

(** The fields the view may read: the listed ones and [roomId]. *)
Definition readable (e : Effect) : bool :=
  match e with
  | Read f _ => listed f || Field_eqb f F_roomId
  | _ => true
  end.
End Sessions.

(** ** A model to run the view on

    A stand-in for model.js, used in the examples only.  [init] follows the
    session state machine of the specification: without a mode nothing is
    started, mode [online] with a room hash connects as a guest, mode
    [online] without one opens a room, any other mode plays offline.  The
    physics is reduced to a count of the elapsed time. *)
Module Toy.

Inductive St : Type :=
| S_OFFLINE | S_CONNECTING | S_CONNECTION_FAILED
| S_WAITING_OPPONENT_TO_CONNECT | S_WAITING_OPPONENT_TO_START
| S_WAITING_PLAYER | S_OPPONENT_DISCONNECTED.

Definition St_eq_dec (a b : St) : {a = b} + {a <> b}.
Proof. decide equality. Defined.

Record Rect : Type := { rx : float; ry : float; rw : float; rh : float }.
Record Disc : Type := { cx : float; cy : float; cr : float }.

(** What the peer connection reports: the join succeeded or a peer
    joined, the opponent is ready, the channel closed. *)
Inductive Msg : Type := Joined | OpponentReady | Closed.

Record T : Type := {
  st : St;
  disc : Disc;
  left : Rect;
  right : Rect;
  score : option (Z * Z);
  room : string;
  held : list Z;
  elapsed : Z
}.

Definition enum : States St :=
  {| OFFLINE := S_OFFLINE;
     CONNECTING := S_CONNECTING;
     CONNECTION_FAILED := S_CONNECTION_FAILED;
     WAITING_OPPONENT_TO_CONNECT := S_WAITING_OPPONENT_TO_CONNECT;
     WAITING_OPPONENT_TO_START := S_WAITING_OPPONENT_TO_START;
     WAITING_PLAYER := S_WAITING_PLAYER;
     OPPONENT_DISCONNECTED := S_OPPONENT_DISCONNECTED |}.

Definition with_st (s : St) (t : T) : T :=
  {| st := s; disc := disc t; left := left t; right := right t;
     score := score t; room := room t; held := held t; elapsed := elapsed t |}.

Definition with_room (r : string) (t : T) : T :=
  {| st := st t; disc := disc t; left := left t; right := right t;
     score := score t; room := r; held := held t; elapsed := elapsed t |}.

Definition with_held (h : list Z) (t : T) : T :=
  {| st := st t; disc := disc t; left := left t; right := right t;
     score := score t; room := room t; held := h; elapsed := elapsed t |}.

Definition with_elapsed (e : Z) (t : T) : T :=
  {| st := st t; disc := disc t; left := left t; right := right t;
     score := score t; room := room t; held := held t; elapsed := e |}.

Definition init (mode roomHash : option string) (t : T) : T :=
  match mode with
  | None => t
  | Some md =>
      if String.eqb md "online" then
        match roomHash with
        | Some h => with_room h (with_st S_CONNECTING t)
        | None => with_st S_WAITING_OPPONENT_TO_CONNECT t
        end
      else with_st S_OFFLINE t
  end.

#[global] Instance model : PongerModel T := {
  StateVal := St;
  StateVal_eq_dec := St_eq_dec;
  Bat := Rect;
  bat_x := rx; bat_y := ry; bat_w := rw; bat_h := rh;
  Ball := Disc;
  ball_x := cx; ball_y := cy; ball_r := cr;
  state := st;
  states := fun _ => enum;
  ball := disc;
  leftBat := left;
  rightBat := right;
  points := score;
  abstractWidth := fun _ => 1000%float;
  abstractHeight := fun _ => 600%float;
  roomId := room;
  model_init := init;
  keyDown := fun k t => with_held (k :: held t) t;
  keyUp := fun k t => with_held (List.filter (fun j => negb (Z.eqb j k)) (held t)) t;
  playerStarted := fun t => t;
  updateBall := fun dt t => with_elapsed (elapsed t + dt) t;
  updateBats := fun _ t => t;
  detectCollision := fun _ t => t;
  detectPoint := fun t => t;
  PeerMsg := Msg;
  receive := fun x t =>
    match x with
    | Joined => with_st S_WAITING_OPPONENT_TO_START t
    | OpponentReady => with_st S_WAITING_PLAYER t
    | Closed => with_st S_OPPONENT_DISCONNECTED t
    end
}.

(** A model fresh from its constructor, in state [s] and with room
    identifier [r]. *)
Definition fresh (s : St) (r : string) : T :=
  {| st := s;
     disc := {| cx := 500; cy := 300; cr := 10 |};
     left := {| rx := 20; ry := 300; rw := 10; rh := 100 |};
     right := {| rx := 980; ry := 300; rw := 10; rh := 100 |};
     score := None;
     room := r;
     held := [];
     elapsed := 0 |}.

(** A page 800 by 600 with a two-button menu, and one opened through a
    link that carries the room [abc123]; the clock advances 16 ms per
    reading. *)
Definition menuPage : Page :=
  {| page_innerWidth := 800;
     page_innerHeight := 600;
     page_hash := "";
     page_menu := Some {| hidden := true;
                          buttons := ["singleplayer"%string; "online"%string];
                          focused := None |};
     page_clock := fun n => (16 * Z.of_nat n)%Z |}.

Definition guestPage : Page :=
  {| page_innerWidth := 800;
     page_innerHeight := 600;
     page_hash := "#abc123";
     page_menu := Some {| hidden := false;
                          buttons := ["singleplayer"%string; "online"%string];
                          focused := None |};
     page_clock := fun n => (16 * Z.of_nat n)%Z |}.

(** Runs used as examples.  [offlineRun]: the first button starts a
    single-player game and the space bar sets it going.  [hostRun]: the
    second button opens a room.  [readyRun]: the guest of [guestPage] has
    joined and the opponent is ready.  [onlineRun]: the guest has joined
    and play has begun. *)
Definition offlineRun : list Event := [Click 0; KeyPress 32].

Definition hostRun : list Event := [Click 1].

Definition readyRun : list Event :=
  [AnimationFrame; Peer Joined; Peer OpponentReady].

Definition onlineRun : list Event :=
  [AnimationFrame; Peer Joined; Notify playing_online].

Definition newcomer : T := fresh S_CONNECTION_FAILED "".

(** Two models that differ in their room identifier only, and the run in
    which the second button opens a room and the model announces it. *)
Definition red : T := fresh S_CONNECTION_FAILED "red".
Definition blue : T := fresh S_CONNECTION_FAILED "blue".

Definition announcedRun : list Event :=
  [Click 1; Notify open_room; AnimationFrame].

(** A guest whose opponent left: the events that follow. *)
Definition afterwards : list Event :=
  [Peer Closed; AnimationFrame; KeyPress 32; Blur; AnimationFrame].

End Toy.

(** ** Further notions: what the events leave alone, the shape of a run,
    time, the fit of the canvas, the picture of a frame *)

Section Further.
Context {M : Type} {PM : PongerModel M}.

(** A computation that takes every world to one related to it by [R]. *)
Definition steady (R : World M -> World M -> Prop) {A} (c : V A) : Prop :=
  forall w, R w (exec c w).

(** Relations between the world before and the world after. *)
Definition sameHash (w w' : World M) : Prop :=
  hash (browser w') = hash (browser w).

Definition samePlaying (w w' : World M) : Prop :=
  playing (this w') = playing (this w).

Definition startedStays (w w' : World M) : Prop :=
  started (this w) = true -> started (this w') = true.

Definition isOpenRoom (e : Event) : bool :=
  match e with Notify open_room => true | _ => false end.

Definition isResize (e : Event) : bool :=
  match e with Resize _ _ => true | _ => false end.

(** The events on which a listener assigns to [this.playing]. *)
Definition setsPlaying (e : Event) : bool :=
  match e with
  | KeyPress _ | Blur | Notify playing_online | Notify disconnected => true
  | _ => false
  end.

(** The world in which the [click] listener of the [i]-th button calls
    [start]: the menu is hidden and the button has lost the focus. *)
Definition clicked (i : nat) (w : World M) : World M :=
  exec (blurButton i) (exec (menuHidden true) w).

(** The events that only listeners registered by [start] react to, and
    the frame. *)
Definition forSession (e : Event) : bool :=
  match e with
  | KeyDown _ | KeyUp _ | KeyPress _ | Blur | Notify _ | AnimationFrame => true
  | _ => false
  end.

(** The world after [resizeCanvas] has run in [w]. *)
Definition refitted (w : World M) : World M :=
  withThis (set_canvas (Resize.resizeCanvas (innerWidth (browser w))
                          (innerHeight (browser w))
                          (abstractWidth (model w))
                          (abstractHeight (model w)))) w.

(** The message that invites to start the game:
    Press [dq]SPACE[dq] to start! *)
Definition startPrompt : string :=
  ("Press " ++ dq ++ "SPACE" ++ dq ++ " to start!")%string.

Definition isOnKeyDown (l : Listener) : bool :=
  match l with OnKeyDown => true | _ => false end.

(** How often a key going down is forwarded in world [w]. *)
Definition keyDownListeners (w : World M) : nat :=
  List.length (filter isOnKeyDown (listeners (browser w))).

Definition isInit (c : Call) : bool :=
  match c with CInit _ _ => true | _ => false end.

Definition noInit (x : Effect) : bool :=
  match x with Invoke c => negb (isInit c) | _ => true end.

Definition noPaint (x : Effect) : bool :=
  match x with Paint _ => false | _ => true end.

(** The order of the calls into the model: [init()] first; once a session
    is open, [init] with a mode second, and no [init] after it. *)
Definition protocol (ph : Phase) (cs : list Call) : Prop :=
  match ph with
  | Idle => cs = [CInit None None]
  | Session _ =>
      exists mode roomHash rest,
        cs = CInit None None :: CInit (Some mode) roomHash :: rest /\
        existsb isInit rest = false
  | _ => False
  end.

(** What a run looks like from outside, by phase: the calls follow the
    protocol, and nothing is painted or played before a session. *)
Definition shaped (ph : Phase) (t : list Effect) : Prop :=
  protocol ph (calls t) /\
  (ph = Idle -> rendering t = [] /\ playbacks t = []).

Definition sameTime (w w' : World M) : Prop :=
  clock (browser w') = clock (browser w) /\
  ticks (browser w') = ticks (browser w) /\
  prevTime (this w') = prevTime (this w).

(** [this.prevTime] holds the latest reading of the clock. *)
Definition timely (w : World M) : Prop :=
  1 <= ticks (browser w) /\
  prevTime (this w) = clock (browser w) (ticks (browser w) - 1).

(** [dt] is the time between two consecutive readings of the clock. *)
Definition isGap (clk : nat -> Z) (dt : Z) : Prop :=
  exists k, dt = (clk (S k) - clk k)%Z.

(** The time step an update call passes to the model. *)
Definition stepOf (c : Call) : option Z :=
  match c with
  | CUpdateBall dt | CUpdateBats dt => Some dt
  | _ => None
  end.

(** The view keeps time by the page's clock: in a session [prevTime] is
    the latest reading, and every step passed to the model so far is the
    gap between two consecutive readings. *)
Definition paced (p : Page) (ph : Phase) (t : list Effect) (w : World M) : Prop :=
  clock (browser w) = page_clock p /\
  (forall b, ph = Session b -> timely w) /\
  (forall c dt, In c (calls t) -> stepOf c = Some dt -> isGap (page_clock p) dt).

(** What the view expects of the model's dimensions: no method and no
    message of the peer changes [abstractWidth] or [abstractHeight]. *)
Definition fixedDimensions : Prop :=
  (forall c m, abstractWidth (applyCall c m) = abstractWidth m) /\
  (forall c m, abstractHeight (applyCall c m) = abstractHeight m) /\
  (forall x m, abstractWidth (receive x m) = abstractWidth m) /\
  (forall x m, abstractHeight (receive x m) = abstractHeight m).

Definition sameFit (w w' : World M) : Prop :=
  canvas (this w') = canvas (this w) /\
  innerWidth (browser w') = innerWidth (browser w) /\
  innerHeight (browser w') = innerHeight (browser w) /\
  abstractWidth (model w') = abstractWidth (model w) /\
  abstractHeight (model w') = abstractHeight (model w).

(** The canvas has the size [resizeCanvas] computes for the window as it
    is now. *)
Definition fitted (w : World M) : Prop :=
  canvas (this w) =
    Resize.resizeCanvas (innerWidth (browser w)) (innerHeight (browser w))
      (abstractWidth (model w)) (abstractHeight (model w)).

(** Worlds that show the same scene: the same view object and the same
    model. *)
Definition sameScene (w1 w2 : World M) : Prop :=
  this w1 = this w2 /\ model w1 = model w2.

(** A computation that leaves the world alone and whose result and
    effects depend on the view object and the model only. *)
Definition scenic {A} (c : V A) : Prop :=
  forall w1 w2, sameScene w1 w2 ->
    value c w1 = value c w2 /\ trace c w1 = trace c w2 /\ exec c w1 = w1.

(** The messages and the scores among the canvas operations. *)
Definition messageOf (d : Draw) : option string :=
  match d with FillText (TextStr s) _ _ _ => Some s | _ => None end.

Definition scoreOf (d : Draw) : option Z :=
  match d with FillText (TextNum n) _ _ _ => Some n | _ => None end.

Definition messages (ds : list Draw) : list string := pick messageOf ds.
Definition scores (ds : list Draw) : list Z := pick scoreOf ds.

(** The world a frame paints: the model is the one the frame's own
    update calls have left. *)
Definition shown (w : World M) : World M :=
  if playing (this w) then withModel (replay (frameCalls w)) w else w.
End Further.

(** ** More runs of the stand-in model *)
Module Scenes.

(** The menu of [Toy.menuPage] as the script leaves it: shown, with the
    focus on the first button. *)
Definition shownMenu : Menu :=
  {| hidden := false;
     buttons := ["singleplayer"%string; "online"%string];
     focused := Some 0 |}.

(** The menu as [Toy.menuPage] delivers it. *)
Definition pageMenu : Menu :=
  {| hidden := true;
     buttons := ["singleplayer"%string; "online"%string];
     focused := None |}.

(** A single-player game set going, and its first frame. *)
Definition playedRun : list Event := Toy.offlineRun ++ [AnimationFrame].

(** Events before any button is clicked. *)
Definition idleRun : list Event :=
  [Resize 640 480; KeyPress 32; AnimationFrame].

(** A single-player game started, the window resized, a frame. *)
Definition resizedRun : list Event :=
  [Click 0; Resize 1024 768; AnimationFrame].

(** Events none of which sets [this.playing]. *)
Definition quietRun : list Event :=
  [AnimationFrame; KeyDown 38; Resize 1024 768; KeyUp 38].

(** The game paused again, the window left, a frame. *)
Definition pausedRun : list Event := [KeyPress 32; Blur; AnimationFrame].

(** The world in which a single-player game has been set going. *)
Definition going : World Toy.T :=
  reached Toy.menuPage Toy.newcomer Toy.offlineRun.

End Scenes.
(** ** Facts about the monad *)

(** The head constant of a term, for unfolding on demand. *)
Ltac head t := lazymatch t with ?f _ => head f | _ => t end.

Section MonadFacts.
Context {M : Type} {PM : PongerModel M}.

Lemma run_bind {A B} (c : V A) (k : A -> V B) (w : World M) :
  bind c k w =
    (value (k (value c w)) (exec c w),
     exec (k (value c w)) (exec c w),
     trace c w ++ trace (k (value c w)) (exec c w)).
Proof.
  unfold bind, value, exec, trace.
  destruct (c w) as [[a w1] t1]; simpl.
  destruct (k a w1) as [[b w2] t2]; reflexivity.
Qed.

Lemma exec_bind {A B} (c : V A) (k : A -> V B) (w : World M) :
  exec (bind c k) w = exec (k (value c w)) (exec c w).
Proof. unfold exec at 1. rewrite run_bind. reflexivity. Qed.

Lemma trace_bind {A B} (c : V A) (k : A -> V B) (w : World M) :
  trace (bind c k) w = trace c w ++ trace (k (value c w)) (exec c w).
Proof. unfold trace at 1. rewrite run_bind. reflexivity. Qed.

Lemma value_bind {A B} (c : V A) (k : A -> V B) (w : World M) :
  value (bind c k) w = value (k (value c w)) (exec c w).
Proof. unfold value at 1. rewrite run_bind. reflexivity. Qed.

Lemma exec_when (b : bool) (c : V unit) (w : World M) :
  exec (when b c) w = if b then exec c w else w.
Proof. destruct b; reflexivity. Qed.

Lemma trace_when (b : bool) (c : V unit) (w : World M) :
  trace (when b c) w = if b then trace c w else [].
Proof. destruct b; reflexivity. Qed.

Lemma pick_app {A B} (f : A -> option B) (l1 l2 : list A) :
  pick f (l1 ++ l2) = pick f l1 ++ pick f l2.
Proof.
  induction l1 as [| a l1 IH]; simpl; [reflexivity |].
  destruct (f a); simpl; congruence.
Qed.

Lemma calls_app (t1 t2 : list Effect) : calls (t1 ++ t2) = calls t1 ++ calls t2.
Proof. apply pick_app. Qed.

Lemma rendering_app (t1 t2 : list Effect) :
  rendering (t1 ++ t2) = rendering t1 ++ rendering t2.
Proof. apply pick_app. Qed.

Lemma playbacks_app (t1 t2 : list Effect) :
  playbacks (t1 ++ t2) = playbacks t1 ++ playbacks t2.
Proof. apply pick_app. Qed.

Lemma reads_app (t1 t2 : list Effect) : reads (t1 ++ t2) = reads t1 ++ reads t2.
Proof. apply pick_app. Qed.

Lemma listedReads_app (t1 t2 : list Effect) :
  listedReads (t1 ++ t2) = listedReads t1 ++ listedReads t2.
Proof. unfold listedReads. rewrite reads_app. apply filter_app. Qed.

Lemma listedReads_read (f : Field) (v : Value) (t : list Effect) :
  listed f = true -> listedReads (Read f v :: t) = (f, v) :: listedReads t.
Proof. intro H. unfold listedReads. cbn [reads pick readOf filter fst]. rewrite H. reflexivity. Qed.

Lemma listedReads_invoke (c : Call) (t : list Effect) :
  listedReads (Invoke c :: t) = listedReads t.
Proof. reflexivity. Qed.

Lemma passive_app (t1 t2 : list Effect) :
  passive (t1 ++ t2) = passive t1 && passive t2.
Proof. apply forallb_app. Qed.

Lemma replay_app (c1 c2 : list Call) (m : M) :
  replay (c1 ++ c2) m = replay c2 (replay c1 m).
Proof. apply fold_left_app. Qed.

(** A passive trace holds no call and no playback. *)
Lemma passive_calls (t : list Effect) : passive t = true -> calls t = [].
Proof.
  induction t as [| e t IH]; simpl; [reflexivity |].
  destruct e; simpl; try discriminate; exact IH.
Qed.

Lemma passive_playbacks (t : list Effect) : passive t = true -> playbacks t = [].
Proof.
  induction t as [| e t IH]; simpl; [reflexivity |].
  destruct e; simpl; try discriminate; exact IH.
Qed.
End MonadFacts.

(** ** Computations that only observe *)

Section Observers.
Context {M : Type} {PM : PongerModel M}.

Lemma observes_ret {A} (a : A) : observes (ret a).
Proof. intro w. split; reflexivity. Qed.

Lemma observes_gets {A} (f : World M -> A) : observes (gets f).
Proof. intro w. split; reflexivity. Qed.

Lemma observes_paint (d : Draw) : observes (paint d).
Proof. intro w. split; reflexivity. Qed.

Lemma observes_bind {A B} (c : V A) (k : A -> V B) :
  observes c -> (forall a, observes (k a)) -> observes (bind c k).
Proof.
  intros Hc Hk w. rewrite exec_bind, trace_bind, passive_app.
  destruct (Hc w) as [E P]. rewrite E, P.
  destruct (Hk (value c w) w) as [E' P']. rewrite E', P'. split; reflexivity.
Qed.

Lemma observes_when (b : bool) (c : V unit) : observes c -> observes (when b c).
Proof. intro H. destruct b; [exact H | apply observes_ret]. Qed.

Lemma observes_readState : observes readState.
Proof. intro w. split; reflexivity. Qed.
Lemma observes_readStates : observes readStates.
Proof. intro w. split; reflexivity. Qed.
Lemma observes_readBall : observes readBall.
Proof. intro w. split; reflexivity. Qed.
Lemma observes_readLeftBat : observes readLeftBat.
Proof. intro w. split; reflexivity. Qed.
Lemma observes_readRightBat : observes readRightBat.
Proof. intro w. split; reflexivity. Qed.
Lemma observes_readPoints : observes readPoints.
Proof. intro w. split; reflexivity. Qed.
Lemma observes_readAbstractWidth : observes readAbstractWidth.
Proof. intro w. split; reflexivity. Qed.
Lemma observes_readAbstractHeight : observes readAbstractHeight.
Proof. intro w. split; reflexivity. Qed.

Ltac observe :=
  repeat lazymatch goal with
    | |- observes (bind _ _) => apply observes_bind; [| intro]
    | |- observes (ret _) => apply observes_ret
    | |- observes (gets _) => apply observes_gets
    | |- observes (paint _) => apply observes_paint
    | |- observes (when _ _) => apply observes_when
    | |- observes readState => apply observes_readState
    | |- observes readStates => apply observes_readStates
    | |- observes readBall => apply observes_readBall
    | |- observes readLeftBat => apply observes_readLeftBat
    | |- observes readRightBat => apply observes_readRightBat
    | |- observes readPoints => apply observes_readPoints
    | |- observes readAbstractWidth => apply observes_readAbstractWidth
    | |- observes readAbstractHeight => apply observes_readAbstractHeight
    | |- observes (match ?x with _ => _ end) => destruct x
    | |- observes ?c => let h := head c in unfold h
    end.

Lemma observes_drawLines : observes drawLines.
Proof. unfold drawLines. observe. Qed.

Lemma observes_pointsText (i : bool) : observes (pointsText i).
Proof. unfold pointsText. observe. Qed.

Lemma observes_drawPoints : observes drawPoints.
Proof. unfold drawPoints. observe. Qed.

Lemma observes_drawBall : observes drawBall.
Proof. unfold drawBall. observe. Qed.

Lemma observes_drawBat (b : Bat) : observes (drawBat b).
Proof. unfold drawBat. observe. Qed.

Lemma observes_getInfoText : observes getInfoText.
Proof. unfold getInfoText. observe. Qed.

Lemma observes_drawPausedInfo : observes drawPausedInfo.
Proof. unfold drawPausedInfo. observe. Qed.

Lemma observes_redraw : observes redraw.
Proof.
  unfold redraw. observe.
Qed.

End Observers.

(** ** One frame *)

Section Frame.
Context {M : Type} {PM : PongerModel M}.

Lemma advance_run (w : World M) :
  exec advance w =
    withModel (replay (frameCalls w))
      (withBrowser (set_ticks (S (ticks (browser w)))) w) /\
  calls (trace advance w) = frameCalls w /\
  playbacks (trace advance w) = [].
Proof.
  destruct w as [v b m].
  unfold frameCalls, offline.
  cbv beta iota zeta delta
    [advance exec trace value bind ret gets modify emit when call newDate
     readState readStates readLeftBat readRightBat fst snd app
     this browser model withModel withBrowser applyCall].
  match goal with
  | |- context [sameState ?x ?y] => destruct (sameState x y)
  end; repeat split; reflexivity.
Qed.

Lemma loop_exec (w : World M) :
  exec loop w =
    let w1 := withBrowser (fun b => set_frameRequests (S (frameRequests b)) b) w in
    let w2 := if playing (this w) then exec advance w1 else w1 in
    withThis (set_prevTime (clock (browser w2) (ticks (browser w2))))
      (withBrowser (set_ticks (S (ticks (browser w2)))) w2).
Proof.
  unfold loop. rewrite !exec_bind.
  rewrite (proj1 (observes_redraw _)).
  rewrite exec_when. reflexivity.
Qed.

Lemma loop_trace (w : World M) :
  trace loop w =
    let w1 := withBrowser (fun b => set_frameRequests (S (frameRequests b)) b) w in
    (if playing (this w) then trace advance w1 else []) ++
    trace redraw (if playing (this w) then exec advance w1 else w1).
Proof.
  unfold loop. rewrite !trace_bind, trace_when.
  rewrite ?exec_bind, ?exec_when.
  cbn [app trace exec value requestAnimationFrame newDate bind modify gets
       fst snd].
  rewrite app_nil_r. reflexivity.
Qed.

Lemma loop_calls (w : World M) :
  calls (trace loop w) = if playing (this w) then frameCalls w else [].
Proof.
  rewrite loop_trace. cbv zeta. rewrite calls_app.
  rewrite (passive_calls _ (proj2 (observes_redraw _))), app_nil_r.
  destruct (playing (this w)); [| reflexivity].
  rewrite (proj1 (proj2 (advance_run _))). reflexivity.
Qed.

Lemma loop_playbacks (w : World M) : playbacks (trace loop w) = [].
Proof.
  rewrite loop_trace. cbv zeta. rewrite playbacks_app.
  rewrite (passive_playbacks _ (proj2 (observes_redraw _))), app_nil_r.
  destruct (playing (this w)); [| reflexivity].
  apply advance_run.
Qed.
End Frame.

(** ** Delivering an event *)

Section Dispatch.
Context {M : Type} {PM : PongerModel M}.

Lemma exec_forEach_app {A} (f : A -> V unit) (l1 l2 : list A) (w : World M) :
  exec (forEach f (l1 ++ l2)) w = exec (forEach f l2) (exec (forEach f l1) w).
Proof.
  revert w. induction l1 as [| a l1 IH]; intro w; [reflexivity |].
  cbn [forEach app]. rewrite !exec_bind. apply IH.
Qed.

Lemma trace_forEach_app {A} (f : A -> V unit) (l1 l2 : list A) (w : World M) :
  trace (forEach f (l1 ++ l2)) w =
    trace (forEach f l1) w ++ trace (forEach f l2) (exec (forEach f l1) w).
Proof.
  revert w. induction l1 as [| a l1 IH]; intro w; [reflexivity |].
  cbn [forEach app]. rewrite !trace_bind, !exec_bind, IH. apply app_assoc.
Qed.

(** The [click] listeners do nothing on another event. *)
Lemma clicks_inert (e : Event) (cl : list Listener) (w : World M) :
  isClickEvent e = false -> forallb isClick cl = true ->
  exec (forEach (listen e) cl) w = w /\ trace (forEach (listen e) cl) w = [].
Proof.
  intros He. induction cl as [| l cl IH]; intro Hcl; [split; reflexivity |].
  cbn [forallb] in Hcl. apply andb_prop in Hcl as [Hl Hcl].
  destruct l; try discriminate.
  cbn [forEach]. rewrite exec_bind, trace_bind.
  destruct e; try discriminate; cbn [listen exec trace ret snd fst app]; auto.
Qed.

(** A click within button [i] runs the listener of that button alone. *)
Lemma click_one (i a n : nat) (w : World M) :
  exec (forEach (listen (Click i)) (map OnClick (seq a n))) w =
    (if Nat.leb a i && Nat.ltb i (a + n) then exec (onClick i) w else w) /\
  trace (forEach (listen (Click i)) (map OnClick (seq a n))) w =
    (if Nat.leb a i && Nat.ltb i (a + n) then trace (onClick i) w else []).
Proof.
  revert a w. induction n as [| n IH]; intros a w.
  - cbn [seq map forEach]. 
    replace (Nat.leb a i && Nat.ltb i (a + 0)) with false; [split; reflexivity |].
    symmetry. apply andb_false_iff.
    destruct (Nat.leb_spec a i); [right; apply Nat.ltb_ge; lia | left; reflexivity].
  - cbn [seq map forEach]. rewrite exec_bind, trace_bind.
    cbn [listen]. rewrite exec_when, trace_when.
    destruct (IH (S a) (if Nat.eqb a i then exec (onClick a) w else w)) as [E T].
    rewrite E, T.
    destruct (Nat.eqb_spec a i) as [-> | Hne].
    + replace (Nat.leb (S i) i) with false by (symmetry; apply Nat.leb_gt; lia).
      replace (Nat.leb i i) with true by (symmetry; apply Nat.leb_le; lia).
      replace (Nat.ltb i (i + S n)) with true by (symmetry; apply Nat.ltb_lt; lia).
      cbn [andb]. rewrite app_nil_r. split; reflexivity.
    + replace (Nat.leb (S a) i && Nat.ltb i (S a + n))
        with (Nat.leb a i && Nat.ltb i (a + S n)); [split; reflexivity |].
      destruct (Nat.leb_spec a i), (Nat.leb_spec (S a) i),
        (Nat.ltb_spec i (a + S n)), (Nat.ltb_spec i (S a + n));
        cbn [andb]; try reflexivity; lia.
Qed.

Lemma dispatch_exec (e : Event) (w : World M) :
  isFrame e = false ->
  exec (dispatch e) w =
    exec (forEach (listen e) (listeners (browser (arrive e w)))) (arrive e w).
Proof.
  destruct e; try discriminate; intros _; unfold dispatch;
    rewrite !exec_bind; reflexivity.
Qed.

Lemma dispatch_trace (e : Event) (w : World M) :
  isFrame e = false ->
  trace (dispatch e) w =
    trace (forEach (listen e) (listeners (browser (arrive e w)))) (arrive e w).
Proof.
  destruct e; try discriminate; intros _; unfold dispatch;
    rewrite !trace_bind; reflexivity.
Qed.

Lemma frame_exec (w : World M) :
  exec (dispatch AnimationFrame) w =
    exec (times (frameRequests (browser w)) loop)
      (withBrowser (set_frameRequests 0) w).
Proof. unfold dispatch. rewrite ?exec_bind, ?trace_bind. reflexivity. Qed.

Lemma frame_trace (w : World M) :
  trace (dispatch AnimationFrame) w =
    trace (times (frameRequests (browser w)) loop)
      (withBrowser (set_frameRequests 0) w).
Proof. unfold dispatch. rewrite ?exec_bind, ?trace_bind. reflexivity. Qed.

Lemma start_run (mode roomHash : option string) (w : World M) :
  exec (start mode roomHash) w = exec loop (started_world mode roomHash w) /\
  trace (start mode roomHash) w =
    Invoke (CInit mode roomHash)
      :: Read F_state (VState (state (model_init mode roomHash (model w))))
      :: Read F_states (VStates (states (model_init mode roomHash (model w))))
      :: trace loop (started_world mode roomHash w).
Proof.
  destruct w as [v [iw ih hs mn ls fr ck tk] m].
  unfold start, handleModelEvents, started_world, offline.
  rewrite !exec_bind, !trace_bind.
  cbv beta iota zeta delta
    [exec trace value call bind emit modify gets newDate readState readStates
     addEventListener when withModel withThis withBrowser applyCall ret
     this browser model fst snd set_listeners set_ticks listeners ticks
     innerWidth innerHeight hash menu frameRequests
     clock sessionListeners].
  match goal with
  | |- context [sameState ?x ?y] => destruct (sameState x y)
  end;
  cbv beta iota zeta delta
    [exec trace value call bind emit modify gets newDate readState readStates
     addEventListener when withModel withThis withBrowser applyCall ret
     this browser model fst snd set_listeners set_ticks listeners ticks
     innerWidth innerHeight hash menu frameRequests
     clock sessionListeners];
  repeat rewrite <- app_assoc; cbn [app]; split; reflexivity.
Qed.

Lemma loop_keeps (w : World M) :
  let w' := exec loop w in
  this w' = set_prevTime (prevTime (this w')) (this w) /\
  fixture w' =
    (sound (this w), listeners (browser w), S (frameRequests (browser w)),
     menu (browser w)) /\
  hash (browser w') = hash (browser w) /\
  model w' = (if playing (this w) then replay (frameCalls w) (model w)
              else model w).
Proof.
  cbv zeta. rewrite loop_exec. cbv zeta.
  destruct w as [[st pl pt so cv] [iw ih hs mn ls fr ck tk] m].
  cbn [this playing]. destruct pl.
  - rewrite (proj1 (advance_run _)). repeat split.
  - repeat split.
Qed.

(** *** Computations that keep the fixture *)

Lemma keeps_ret {A} (a : A) : keeps (ret a).
Proof. intro w. reflexivity. Qed.

Lemma keeps_bind {A B} (c : V A) (k : A -> V B) :
  keeps c -> (forall a, keeps (k a)) -> keeps (bind c k).
Proof. intros Hc Hk w. rewrite exec_bind, Hk. apply Hc. Qed.

Lemma keeps_onKeyPress (k : Z) : keeps (onKeyPress k).
Proof.
  intro w. unfold onKeyPress. destruct (k =? 32)%Z; [| reflexivity].
  cbn [when]. rewrite !exec_bind.
  cbn [value exec readState readStates bind gets emit ret fst snd].
  match goal with
  | |- context [sameState ?x ?y] => destruct (sameState x y)
  end; [reflexivity |].
  rewrite !exec_bind.
  cbn [value exec readState readStates bind gets emit ret fst snd].
  match goal with
  | |- context [sameState ?x ?y] => destruct (sameState x y)
  end; reflexivity.
Qed.

Lemma keeps_listen (e : Event) (l : Listener) :
  isClickEvent e = false -> keeps (listen e l).
Proof.
  intros He w.
  destruct l, e; try discriminate; try reflexivity.
  - apply keeps_onKeyPress.
  - destruct n; reflexivity.
  - destruct n; reflexivity.
  - destruct n; reflexivity.
  - destruct n; try reflexivity.
    cbn [listen]. rewrite exec_bind. cbn [value gets fst].
    destruct (sound (this _)); reflexivity.
Qed.

Lemma keeps_forEach {A} (f : A -> V unit) (l : list A) :
  (forall a, keeps (f a)) -> keeps (forEach f l).
Proof.
  intro H. induction l as [| a l IH]; [apply keeps_ret |].
  cbn [forEach]. apply keeps_bind; auto.
Qed.

Lemma arrive_fixture (e : Event) (w : World M) : fixture (arrive e w) = fixture w.
Proof. destruct e; reflexivity. Qed.

Lemma dispatch_fixture (e : Event) (w : World M) :
  isClickEvent e = false -> isFrame e = false ->
  fixture (exec (dispatch e) w) = fixture w.
Proof.
  intros Hc Hf. rewrite dispatch_exec by exact Hf.
  rewrite keeps_forEach; [apply arrive_fixture |].
  intro l. apply keeps_listen. exact Hc.
Qed.
End Dispatch.

(** ** The phases of a run *)

Section Phases.
Context {M : Type} {PM : PongerModel M}.

Lemma session_absorbs (t : list Effect) (b : bool) :
  fold_left phaseStep t (Session b) = Session b.
Proof. induction t as [| e t IH]; [reflexivity | exact IH]. Qed.

Lemma phaseOf_app (t1 t2 : list Effect) :
  phaseOf (t1 ++ t2) = fold_left phaseStep t2 (phaseOf t1).
Proof. apply fold_left_app. Qed.

Lemma Inv_fixture (b : bool) (w w' : World M) :
  fixture w' = fixture w -> Inv (Session b) w -> Inv (Session b) w'.
Proof.
  unfold fixture, Inv, menuDisplayed. intros E H.
  injection E as E1 E2 E3 E4. rewrite E1, E2, E3, E4. exact H.
Qed.

(** Opening a session from a world in which none is open. *)
Lemma start_opens (mode roomHash : option string) (w : World M)
    (cl : list Listener) :
  mode <> None ->
  sound (this w) = Some "./sound.wav"%string ->
  frameRequests (browser w) = 0 ->
  listeners (browser w) = OnResize :: cl ->
  forallb isClick cl = true ->
  menuDisplayed w = false ->
  let b := offline (model_init mode roomHash (model w)) in
  fold_left phaseStep (trace (start mode roomHash) w) Idle = Session b /\
  Inv (Session b) (exec (start mode roomHash) w).
Proof.
  intros Hm Hs Hf Hl Hcl Hd. cbv zeta.
  destruct (start_run mode roomHash w) as [E T]. rewrite E, T.
  split.
  - destruct mode as [md |]; [| congruence].
    cbn [fold_left phaseStep]. apply session_absorbs.
  - destruct (loop_keeps (started_world mode roomHash w)) as (_ & F & _).
    unfold Inv, fixture, menuDisplayed in *.
    injection F as F1 F2 F3 F4. rewrite F1, F2, F3, F4.
    unfold started_world.
    cbn [this browser sound set_prevTime set_listeners set_ticks listeners
         frameRequests menu].
    rewrite Hf, Hl. repeat split; try assumption.
    exists cl. split; [exact Hcl | reflexivity].
Qed.

Lemma clicks_only (a n : nat) : forallb isClick (map OnClick (seq a n)) = true.
Proof.
  apply forallb_forall. intros l Hin. apply in_map_iff in Hin as (i & <- & _).
  reflexivity.
Qed.

(** The [click] listener of a button opens a session. *)
Lemma onClick_opens (i : nat) (w : World M) (mn : Menu) :
  Inv Idle w -> menu (browser w) = Some mn -> i < List.length (buttons mn) ->
  exists b,
    fold_left phaseStep (trace (onClick i) w) Idle = Session b /\
    Inv (Session b) (exec (onClick i) w).
Proof.
  intros H Hmn Hi. red in H. destruct H as (Hs & Hp & Hf & Hl).
  unfold menuButtons in Hl.
  destruct w as [[st pl pt so cv] [iw ih hs m0 ls fr ck tk] m].
  destruct mn as [hd bs fc].
  cbn [this browser sound playing frameRequests listeners menu buttons] in *.
  subst.
  destruct (nth_error bs i) as [md |] eqn:Hn;
    [| apply nth_error_None in Hn; lia].
  unfold onClick. rewrite !exec_bind, !trace_bind.
  cbn [trace exec value menuHidden blurButton modify gets fst snd app].
  cbv beta iota delta
    [withBrowser set_menu option_map browser menu this model set_hidden
     focused buttons hidden innerWidth innerHeight hash listeners
     frameRequests clock ticks].
  set (mn' := match fc with
              | Some j => if Nat.eqb i j then _ else _
              | None => _
              end).
  assert (buttons mn' = bs /\ hidden mn' = true) as [Hb Hh]
    by (subst mn'; destruct fc as [j |]; [destruct (Nat.eqb i j) |];
        split; reflexivity).
  fold (buttons mn'). rewrite Hb, Hn.
  match goal with
  | |- context [trace (start _ ?rh) ?y] =>
      destruct (@start_opens (Some md) rh y
                  (map OnClick (seq 0 (List.length bs)))) as [P I]
  end; try reflexivity.
  - discriminate.
  - apply clicks_only.
  - unfold menuDisplayed. cbn [browser menu]. rewrite Hh. reflexivity.
  - eexists. split; [exact P | exact I].
Qed.

Lemma step_Inv (ph : Phase) (e : Event) (w : World M) :
  Inv ph w -> deliverable w e = true ->
  Inv (fold_left phaseStep (trace (dispatch e) w) ph) (exec (dispatch e) w).
Proof.
  intros H Hd. pose proof H as HI.
  red in H. destruct ph as [| | v | b];
    [| exact (False_ind _ (proj2 H)) | exact (False_ind _ (proj2 H)) |].
  - (* no session is open *)
    destruct H as (Hs & Hp & Hf & Hl).
    destruct e as [a c | k | k | k | | n | i | | x].
    7: { (* a click opens one *)
      rewrite dispatch_exec, dispatch_trace by reflexivity.
      cbn [arrive]. rewrite Hl. cbn [forEach].
      rewrite exec_bind, trace_bind. cbn [listen exec trace value ret fst snd app].
      destruct (click_one i 0 (menuButtons w) w) as [E T]. rewrite E, T.
      cbn [deliverable] in Hd. unfold menuButtons.
      destruct (menu (browser w)) as [mn |] eqn:Hmn; [| discriminate].
      apply andb_prop in Hd as [Hh Hi]. cbn [Nat.leb andb plus]. rewrite Hi.
      apply Nat.ltb_lt in Hi.
      edestruct onClick_opens as (b & P & I); [exact HI | exact Hmn | exact Hi |].
      rewrite P. exact I. }
    7: { (* no frame was requested *)
      rewrite frame_exec, frame_trace, Hf.
      destruct w as [[st pl pt so cv] [iw ih hs m0 ls fr ck tk] m].
      cbn in Hs, Hp, Hf, Hl |- *. repeat split; assumption. }
    all: rewrite dispatch_exec, dispatch_trace by reflexivity;
      cbn [arrive];
      match goal with
      | |- context [listeners (browser ?x)] =>
          replace (listeners (browser x)) with (listeners (browser w)) by reflexivity
      end;
      rewrite Hl; cbn [forEach]; rewrite exec_bind, trace_bind;
      match goal with
      | |- context [forEach (listen ?ev) ?cl] =>
          assert (forallb isClick cl = true) as Hcl
            by (apply forallb_forall; intros l Hin;
                apply in_map_iff in Hin as (j & <- & _); reflexivity)
      end;
      match goal with
      | |- context [exec (forEach (listen ?ev) ?cl) ?x] =>
          destruct (clicks_inert ev cl x eq_refl Hcl) as [E T]; rewrite E, T
      end;
      rewrite app_nil_r;
      destruct w as [[st pl pt so cv] [iw ih hs m0 ls fr ck tk] m];
      cbn in Hs, Hp, Hf, Hl |- *; repeat split; assumption.
  - (* a session is open *)
    destruct (isClickEvent e) eqn:Hc.
    + destruct e; try discriminate.
      destruct H as (_ & _ & Hm & _). unfold menuDisplayed in Hm.
      cbn [deliverable] in Hd. destruct (menu (browser w)); [| discriminate].
      apply andb_prop in Hd as [Hh _]. congruence.
    + rewrite session_absorbs.
      destruct (isFrame e) eqn:Hf.
      * destruct e; try discriminate.
        rewrite frame_exec. destruct H as (Hs & Hr & Hm & Hl).
        rewrite Hr. cbn [times]. rewrite exec_bind. cbn [exec ret snd fst].
        destruct (loop_keeps (withBrowser (set_frameRequests 0) w)) as (_ & F & _).
        unfold Inv, fixture, menuDisplayed in *.
        injection F as F1 F2 F3 F4. rewrite F1, F2, F3, F4.
        destruct w as [[st pl pt so cv] [iw ih hs m0 ls fr ck tk] m].
        cbn in Hs, Hr, Hm, Hl |- *. repeat split; assumption.
      * apply Inv_fixture with (w := w); [| exact H].
        apply dispatch_fixture; assumption.
Qed.
End Phases.

(** ** Loading the page *)

Section Loading.
Context {M : Type} {PM : PongerModel M}.

Lemma wireButtons_run (bs : list string) (i : nat) (w : World M) :
  let w' := exec (wireButtons i bs) w in
  trace (wireButtons i bs) w = [] /\
  this w' = this w /\ model w' = model w /\
  listeners (browser w') =
    listeners (browser w) ++ map OnClick (seq i (List.length bs)) /\
  frameRequests (browser w') = frameRequests (browser w) /\
  option_map hidden (menu (browser w')) = option_map hidden (menu (browser w)) /\
  option_map buttons (menu (browser w')) = option_map buttons (menu (browser w)).
Proof.
  revert i w. induction bs as [| b bs IH]; intros i w; cbv zeta.
  - cbn [wireButtons exec trace ret fst snd List.length seq map].
    rewrite app_nil_r. repeat split.
  - cbn [wireButtons]. rewrite !exec_bind, !trace_bind.
    rewrite exec_when, trace_when.
    set (w1 := exec (addEventListener (OnClick i)) _).
    destruct (IH (S i) w1) as (T & E1 & E2 & E3 & E4 & E5 & E6).
    rewrite T, E1, E2, E3, E4, E5, E6. subst w1.
    destruct w as [v [iw ih hs mn ls fr ck tk] m].
    destruct (Nat.eqb i 0);
      cbn [trace exec focusButton addEventListener modify fst snd app
           withBrowser this browser model listeners frameRequests menu
           set_listeners set_menu List.length seq map];
      rewrite <- app_assoc; cbn [app]; repeat split;
      destruct mn; reflexivity.
Qed.

Lemma init_run (p : Page) (m : M) :
  let w0 := constructor p m in
  if joining p then
    let w1 := withBrowser
                (fun b => set_menu (option_map (set_hidden true) (menu b)) b)
                (sized p m) in
    exec init w0 =
      exec (start (Some "online"%string) (Some (substr 1 (page_hash p)))) w1 /\
    trace init w0 =
      Invoke (CInit None None)
        :: Read F_abstractWidth (VNum (abstractWidth (model_init None None m)))
        :: Read F_abstractHeight (VNum (abstractHeight (model_init None None m)))
        :: trace (start (Some "online"%string) (Some (substr 1 (page_hash p)))) w1
  else
    let w1 := withBrowser
                (fun b => set_menu (option_map (set_hidden false) (menu b)) b)
                (sized p m) in
    exec init w0 =
      match page_menu p with
      | Some mn => exec (wireButtons 0 (buttons mn)) w1
      | None => sized p m
      end /\
    trace init w0 =
      [Invoke (CInit None None);
       Read F_abstractWidth (VNum (abstractWidth (model_init None None m)));
       Read F_abstractHeight (VNum (abstractHeight (model_init None None m)))].
Proof.
  cbv zeta. unfold init, joining, sized, constructor.
  rewrite !exec_bind, !trace_bind.
  cbn [exec trace value call emit modify bind gets addEventListener
       resizeCanvas readAbstractWidth readAbstractHeight ret fst snd
       constructor withModel withThis withBrowser applyCall app
       this browser model innerWidth innerHeight hash menu listeners
       frameRequests clock ticks started playing prevTime sound canvas
       set_sound set_started set_playing set_canvas set_listeners].
  destruct (negb (String.eqb (page_hash p) "") &&
            negb (String.eqb (page_hash p) "#")).
  - rewrite exec_bind, trace_bind. split; reflexivity.
  - destruct (page_menu p) as [mn |]; [| split; reflexivity].
    rewrite exec_bind, trace_bind.
    rewrite (proj1 (wireButtons_run _ _ _)). split; reflexivity.
Qed.

(** The script leaves the view idle, or in a session it has opened. *)
Lemma init_Inv (p : Page) (m : M) :
  Inv (phaseOf (trace init (constructor p m))) (exec init (constructor p m)).
Proof.
  pose proof (init_run p m) as H. cbv zeta in H.
  destruct (joining p).
  - destruct H as [E T]. rewrite E, T. unfold phaseOf. cbn [fold_left phaseStep].
    match goal with
    | |- context [trace (start ?md ?rh) ?x] =>
        destruct (@start_opens _ _ md rh x []) as [P I];
          try reflexivity; [| | rewrite P; exact I]
    end.
    + discriminate.
    + unfold menuDisplayed, sized. cbn [browser menu withBrowser set_menu].
      destruct (page_menu p); reflexivity.
  - destruct H as [E T]. rewrite E, T. unfold phaseOf. cbn [fold_left phaseStep].
    destruct (page_menu p) as [mn |] eqn:Hm.
    + match goal with
      | |- context [exec (wireButtons 0 ?bs) ?x] =>
          destruct (wireButtons_run bs 0 x) as (_ & E1 & _ & E3 & E4 & _ & E6)
      end.
      unfold Inv, menuButtons. rewrite E1, E3, E4.
      unfold sized in *.
      cbn [this browser sound playing frameRequests listeners menu withBrowser
           set_menu app] in *.
      repeat split.
      destruct (menu (browser _)) as [mn' |]; rewrite Hm in E6;
        cbn [option_map] in E6; [| discriminate].
      injection E6 as ->. reflexivity.
    + unfold Inv, menuButtons, sized.
      cbn [this browser sound playing frameRequests listeners menu].
      rewrite Hm. repeat split.
Qed.
End Loading.

(** ** Whole runs *)

Section Runs.
Context {M : Type} {PM : PongerModel M}.

Lemma run_Inv (es : list Event) (ph : Phase) (w : World M) :
  Inv ph w -> admissible es w = true ->
  Inv (fold_left phaseStep (trace (run es) w) ph) (exec (run es) w).
Proof.
  revert ph w. induction es as [| e es IH]; intros ph w H Ha; [exact H |].
  cbn [admissible] in Ha. apply andb_prop in Ha as [Hd Ha].
  unfold run in *. cbn [forEach]. rewrite exec_bind, trace_bind, fold_left_app.
  apply IH; [apply step_Inv; assumption | exact Ha].
Qed.

Lemma reached_eq (p : Page) (m : M) (es : list Event) :
  reached p m es = exec (run es) (exec init (constructor p m)).
Proof. unfold reached, session. apply exec_bind. Qed.

Lemma history_eq (p : Page) (m : M) (es : list Event) :
  history p m es =
    trace init (constructor p m) ++ trace (run es) (exec init (constructor p m)).
Proof. unfold history, session. apply trace_bind. Qed.

(** Every world a well-formed run reaches is as its phase requires. *)
Lemma reached_Inv (p : Page) (m : M) (es : list Event) :
  wellFormed p m es = true ->
  Inv (phaseOf (history p m es)) (reached p m es).
Proof.
  intro H. rewrite reached_eq, history_eq, phaseOf_app.
  apply run_Inv; [apply init_Inv | exact H].
Qed.

(** During a session an event other than a click or a frame runs the
    [resize] listener and the listeners of [start], once each. *)
Lemma session_dispatch (b : bool) (e : Event) (w : World M) :
  Inv (Session b) w -> isClickEvent e = false -> isFrame e = false ->
  exec (dispatch e) w =
    exec (forEach (listen e) (OnResize :: sessionListeners b)) (arrive e w) /\
  trace (dispatch e) w =
    trace (forEach (listen e) (OnResize :: sessionListeners b)) (arrive e w).
Proof.
  intros (_ & _ & _ & cl & Hcl & Hl) Hc Hf.
  rewrite dispatch_exec, dispatch_trace by exact Hf.
  replace (listeners (browser (arrive e w))) with (listeners (browser w))
    by (destruct e; reflexivity).
  rewrite Hl. cbn [forEach]. rewrite !exec_bind, !trace_bind.
  rewrite exec_forEach_app, trace_forEach_app.
  destruct (clicks_inert e cl (exec (listen e OnResize) (arrive e w)) Hc Hcl)
    as [E T].
  rewrite E, T. split; reflexivity.
Qed.

(** During a session a frame runs [loop] once. *)
Lemma session_frame (b : bool) (w : World M) :
  Inv (Session b) w ->
  exec (dispatch AnimationFrame) w =
    exec loop (withBrowser (set_frameRequests 0) w) /\
  trace (dispatch AnimationFrame) w =
    trace loop (withBrowser (set_frameRequests 0) w).
Proof.
  intros (_ & Hr & _). rewrite frame_exec, frame_trace, Hr.
  cbn [times]. rewrite exec_bind, trace_bind.
  cbn [exec trace ret fst snd]. rewrite app_nil_r. split; reflexivity.
Qed.

(** Before a session nothing but a click or a resize has any effect. *)
Lemma idle_dispatch (e : Event) (w : World M) :
  Inv Idle w -> isClickEvent e = false ->
  exec (dispatch e) w =
    match e with
    | Resize _ _ => exec resizeCanvas (arrive e w)
    | AnimationFrame => withBrowser (set_frameRequests 0) w
    | _ => arrive e w
    end /\
  trace (dispatch e) w =
    match e with
    | Resize _ _ => trace resizeCanvas (arrive e w)
    | _ => []
    end.
Proof.
  intros (_ & _ & Hf & Hl) Hc.
  destruct (isFrame e) eqn:Hfr.
  - destruct e; try discriminate. rewrite frame_exec, frame_trace, Hf.
    split; reflexivity.
  - rewrite dispatch_exec, dispatch_trace by exact Hfr.
    replace (listeners (browser (arrive e w))) with (listeners (browser w))
      by (destruct e; reflexivity).
    rewrite Hl. cbn [forEach]. rewrite !exec_bind, !trace_bind.
    destruct (clicks_inert e (map OnClick (seq 0 (menuButtons w)))
                (exec (listen e OnResize) (arrive e w)) Hc (clicks_only _ _))
      as [E T].
    rewrite E, T, app_nil_r.
    destruct e; try discriminate; split; reflexivity.
Qed.

Lemma exec_ret {A} (a : A) (w : World M) : exec (ret a) w = w.
Proof. reflexivity. Qed.

Lemma trace_ret {A} (a : A) (w : World M) : trace (ret a) w = [].
Proof. reflexivity. Qed.

Lemma session_reaction (b : bool) (e : Event) (w : World M) :
  Inv (Session b) w -> isClickEvent e = false -> isFrame e = false ->
  exec (dispatch e) w = exec (reaction b e) (arrive e w) /\
  trace (dispatch e) w = trace (reaction b e) (arrive e w).
Proof.
  intros H Hc Hf. destruct (session_dispatch e H Hc Hf) as [E T].
  rewrite E, T. clear E T.
  destruct e as [a c | k | k | k | | n | i | | x]; try discriminate;
    try destruct n; destruct b;
    cbn [sessionListeners app forEach reaction listenerOf when];
    rewrite !exec_bind, !trace_bind; cbn [listen];
    rewrite ?exec_ret, ?trace_ret, ?app_nil_r; cbn [app];
    split; reflexivity.
Qed.

Lemma onKeyPress_run (k : Z) (w : World M) :
  exec (onKeyPress k) w = pressed k w /\
  calls (trace (onKeyPress k) w) =
    (if (k =? 32)%Z && negb (offline (model w)) && waitingPlayer (model w)
     then [CPlayerStarted] else []) /\
  playbacks (trace (onKeyPress k) w) = [].
Proof.
  unfold onKeyPress, pressed, offline, waitingPlayer.
  destruct (k =? 32)%Z; [| repeat split; reflexivity].
  cbn [when andb]. rewrite !exec_bind, !trace_bind.
  cbn [exec trace value readState readStates bind gets emit ret fst snd app].
  destruct (sameState (state (model w)) (OFFLINE (states (model w))));
    [repeat split; reflexivity |].
  rewrite !exec_bind, !trace_bind.
  cbn [exec trace value readState readStates bind gets emit ret fst snd app
       negb andb].
  destruct (sameState (state (model w)) (WAITING_PLAYER (states (model w))));
    repeat split; reflexivity.
Qed.
End Runs.

(** ** The claims about frames and input *)

Section Claims.
Context {M : Type} {PM : PongerModel M}.

(** C1.  On an animation frame the view calls [updateBall(dt)] once when
    [playing] holds, followed by [updateBats(dt)],
    [detectCollision(leftBat)], [detectCollision(rightBat)] and
    [detectPoint()], in this order, exactly when [model.state] is
    [OFFLINE] (as read after [updateBall]); when [playing] does not hold
    the frame makes no call into the model. *)
Theorem frame_calls (p : Page) (m : M) (es : list Event) :
  wellFormed p m es = true ->
  calls (trace (dispatch AnimationFrame) (reached p m es)) =
    if playing (this (reached p m es)) then frameCalls (reached p m es) else [].
Proof.
  intro H. apply reached_Inv in H.
  set (w := reached p m es) in *.
  destruct (phaseOf (history p m es)) as [| | v | b];
    [| destruct H as [_ []] | destruct H as [_ []] |].
  - destruct (idle_dispatch AnimationFrame H eq_refl) as [_ T].
    destruct H as (_ & Hp & _). rewrite T, Hp. reflexivity.
  - destruct (session_frame H) as [_ T]. rewrite T, loop_calls.
    destruct w as [v br md]. reflexivity.
Qed.

(** C8.  In a session, on [open_room] the view assigns [model.roomId]
    to [window.location.hash], and does nothing else. *)
Theorem open_room_publishes (p : Page) (m : M) (es : list Event) (b : bool) :
  wellFormed p m es = true ->
  phaseOf (history p m es) = Session b ->
  exec (dispatch (Notify open_room)) (reached p m es) =
    withBrowser (set_hash (roomId (model (reached p m es)))) (reached p m es).
Proof.
  intros H Hph. apply reached_Inv in H. rewrite Hph in H.
  destruct (session_dispatch (Notify open_room) H eq_refl eq_refl) as [E _].
  rewrite E. destruct b; reflexivity.
Qed.

(** C4.  In a session, while [model.state] is [OFFLINE], a press of the
    space bar sets [started] and negates [playing], and nothing else
    changes, so that a second press gives [playing] its former value; in a
    session opened offline, a window blur clears [playing] and changes
    nothing else. *)
Theorem space_toggles_offline (p : Page) (m : M) (es : list Event) (b : bool) :
  wellFormed p m es = true ->
  phaseOf (history p m es) = Session b ->
  let w := reached p m es in
  let press := exec (dispatch (KeyPress 32)) in
  (offline (model w) = true ->
     press w =
       withThis (fun v => set_playing (negb (playing v)) (set_started true v)) w /\
     playing (this (press (press w))) = playing (this w) /\
     started (this (press (press w))) = true) /\
  (b = true ->
     exec (dispatch Blur) w = withThis (set_playing false) w /\
     trace (dispatch Blur) w = []).
Proof.
  intros H Hph. apply reached_Inv in H. rewrite Hph in H. cbv zeta.
  set (w := reached p m es) in *.
  assert (forall x, Inv (Session b) x -> offline (model x) = true ->
            exec (dispatch (KeyPress 32)) x =
              withThis (fun v => set_playing (negb (playing v)) (set_started true v)) x)
    as Hpress.
  { intros x Hx Ho.
    destruct (session_dispatch (KeyPress 32) Hx eq_refl eq_refl) as [E _].
    rewrite E. unfold offline in Ho.
    destruct b; cbn [sessionListeners app forEach];
      rewrite !exec_bind;
      cbn [listen exec ret fst snd onKeyPress Z.eqb Pos.eqb when arrive];
      rewrite !exec_bind;
      cbn [exec value readState readStates bind gets emit ret fst snd];
      rewrite Ho; reflexivity. }
  split.
  - intro Ho. rewrite (Hpress w H Ho). split; [reflexivity |].
    rewrite Hpress.
    + destruct w as [[st pl pt so cv] br md]. cbn. split;
        [apply negb_involutive | reflexivity].
    + apply Inv_fixture with (w := w); [reflexivity | exact H].
    + exact Ho.
  - intros ->.
    destruct (session_dispatch Blur H eq_refl eq_refl) as [E T].
    rewrite E, T. split; reflexivity.
Qed.

(** C5.  In a session, pressing the space bar while [model.state] is
    [WAITING_PLAYER] (a value other than [OFFLINE]) calls
    [model.playerStarted()] and does nothing else; at any time, a press
    while the state is neither [OFFLINE] nor [WAITING_PLAYER] changes
    neither the view nor the model. *)
Theorem space_signals_ready (p : Page) (m : M) (es : list Event) :
  wellFormed p m es = true ->
  let w := reached p m es in
  (forall b,
     phaseOf (history p m es) = Session b ->
     state (model w) = WAITING_PLAYER (states (model w)) ->
     OFFLINE (states (model w)) <> WAITING_PLAYER (states (model w)) ->
     calls (trace (dispatch (KeyPress 32)) w) = [CPlayerStarted] /\
     exec (dispatch (KeyPress 32)) w = withModel playerStarted w) /\
  (state (model w) <> OFFLINE (states (model w)) ->
   state (model w) <> WAITING_PLAYER (states (model w)) ->
   calls (trace (dispatch (KeyPress 32)) w) = [] /\
   exec (dispatch (KeyPress 32)) w = w).
Proof.
  intro H. apply reached_Inv in H. cbv zeta.
  set (w := reached p m es) in *. split.
  - intros b Hph Hs Hne. rewrite Hph in H.
    destruct (session_dispatch (KeyPress 32) H eq_refl eq_refl) as [E T].
    rewrite E, T.
    destruct b; cbn [sessionListeners app forEach];
      rewrite !exec_bind, !trace_bind;
      cbn [listen exec trace ret fst snd onKeyPress Z.eqb Pos.eqb when arrive];
      rewrite !exec_bind, !trace_bind;
      cbn [exec trace value readState readStates bind gets emit ret fst snd app];
      unfold sameState;
      (destruct (StateVal_eq_dec (state (model w)) (OFFLINE (states (model w))));
       [congruence |]);
      rewrite ?exec_bind, ?trace_bind;
      cbn [exec trace value readState readStates bind gets emit ret fst snd app];
      (destruct (StateVal_eq_dec (state (model w))
                   (WAITING_PLAYER (states (model w)))); [| congruence]);
      split; reflexivity.
  - intros Ho Hw.
    assert (forall ls,
              exec (forEach (listen (KeyPress 32)) ls) w = w /\
              calls (trace (forEach (listen (KeyPress 32)) ls) w) = []) as Hall.
    { induction ls as [| l ls [IHe IHc]]; [split; reflexivity |].
      cbn [forEach]. rewrite exec_bind, trace_bind, calls_app.
      assert (exec (listen (KeyPress 32) l) w = w /\
              calls (trace (listen (KeyPress 32) l) w) = []) as [E C].
      { destruct l; try (split; reflexivity).
        cbn [listen onKeyPress Z.eqb Pos.eqb when].
        rewrite !exec_bind, !trace_bind.
        cbn [exec trace value readState readStates bind gets emit ret fst snd app].
        unfold sameState.
        destruct (StateVal_eq_dec (state (model w)) (OFFLINE (states (model w))));
          [congruence |].
        rewrite ?exec_bind, ?trace_bind.
        cbn [exec trace value readState readStates bind gets emit ret fst snd app].
        destruct (StateVal_eq_dec (state (model w))
                    (WAITING_PLAYER (states (model w)))); [congruence |].
        split; reflexivity. }
      rewrite E, C, IHe, IHc. split; reflexivity. }
    rewrite dispatch_exec, dispatch_trace by reflexivity.
    cbn [arrive]. destruct (Hall (listeners (browser w))) as [E C].
    rewrite E, C. split; reflexivity.
Qed.
End Claims.

(** ** The claims about the start of a session and its end *)

Section Lifecycle.
Context {M : Type} {PM : PongerModel M}.

Lemma substr_tail (c : ascii) (s : string) : substr 1 (String c s) = s.
Proof.
  unfold substr. cbn [String.length Nat.sub substring].
  rewrite Nat.sub_0_r. induction s as [| a s IH]; [reflexivity |].
  cbn [String.length substring]. f_equal. exact IH.
Qed.

(** C2.  [init] starts a session exactly when the URL fragment is
    non-empty, that is when [window.location.hash] is neither the empty
    string nor [#]: it then hides the menu and initializes the model in
    mode [online] with the text after the [#] as room hash.  With an empty
    fragment [init] initializes the model without a mode only, starts no
    session and shows the menu. *)
Theorem init_joins_iff_fragment (p : Page) (m : M) :
  let w := exec init (constructor p m) in
  let t := trace init (constructor p m) in
  (joining p = true <-> page_hash p <> ""%string /\ page_hash p <> "#"%string) /\
  (if joining p then
     calls t = [CInit None None;
                CInit (Some "online"%string) (Some (substr 1 (page_hash p)))] /\
     (exists b, phaseOf t = Session b) /\
     frameRequests (browser w) = 1 /\
     option_map hidden (menu (browser w)) = option_map (fun _ => true) (page_menu p)
   else
     calls t = [CInit None None] /\
     phaseOf t = Idle /\
     frameRequests (browser w) = 0 /\
     option_map hidden (menu (browser w)) = option_map (fun _ => false) (page_menu p)) /\
  (forall frag, page_hash p = String "#" frag -> substr 1 (page_hash p) = frag).
Proof.
  cbv zeta. split; [| split].
  - unfold joining. rewrite andb_true_iff, !negb_true_iff.
    split; intros [H1 H2].
    + split; intro E; rewrite E in *; discriminate.
    + split; apply String.eqb_neq; assumption.
  - pose proof (init_Inv p m) as HI. pose proof (init_run p m) as H.
    cbv zeta in H. destruct (joining p); destruct H as [E T].
    + rewrite T in *. rewrite E in *.
      match goal with
      | |- context [trace (start ?md ?rh) ?x] =>
          destruct (start_run md rh x) as [E' T']
      end.
      rewrite T', E' in *.
      match goal with
      | |- context [trace loop ?x] =>
          pose proof (loop_calls x) as C;
          destruct (loop_keeps x) as (_ & F & _)
      end.
      unfold fixture in F. injection F as _ _ F3 F4.
      split; [| split; [| split]].
      * unfold calls in *. cbn [pick callOf]. rewrite C. reflexivity.
      * unfold phaseOf in *. cbn [fold_left phaseStep] in *.
        rewrite session_absorbs. eexists. reflexivity.
      * rewrite F3. reflexivity.
      * rewrite F4. unfold started_world, sized.
        cbn [browser menu set_listeners set_ticks withBrowser set_menu].
        destruct (page_menu p); reflexivity.
    + rewrite T. split; [reflexivity |]. split; [reflexivity |].
      rewrite E. destruct (page_menu p) as [mn |] eqn:Hm.
      * match goal with
        | |- context [exec (wireButtons 0 ?bs) ?x] =>
            destruct (wireButtons_run bs 0 x) as (_ & _ & _ & _ & E4 & E5 & _)
        end.
        rewrite E4, E5. unfold sized.
        cbn [browser menu frameRequests withBrowser set_menu].
        rewrite Hm. split; reflexivity.
      * unfold sized. cbn [browser menu frameRequests]. rewrite Hm.
        split; reflexivity.
  - intros frag ->. apply substr_tail.
Qed.

(** While the view is paused it stays so, and no frame advances the
    simulation, unless [playing_online] arrives or the space bar is pressed
    in state [OFFLINE]. *)
Lemma paused_step (ph : Phase) (e : Event) (w : World M) :
  Inv ph w -> playing (this w) = false -> deliverable w e = true ->
  isPlayingOnline e = false -> isSpace e && offline (model w) = false ->
  playing (this (exec (dispatch e) w)) = false /\
  existsb isUpdate (calls (trace (dispatch e) w)) = false.
Proof.
  intros H Hp Hd Hn Ho. pose proof H as HI. red in H.
  destruct ph as [| | v | b];
    [| exact (False_ind _ (proj2 H)) | exact (False_ind _ (proj2 H)) |].
  - destruct (isClickEvent e) eqn:Hc.
    + destruct e as [| | | | | | i | |]; try discriminate.
      destruct H as (_ & _ & Hf & Hl).
      rewrite dispatch_exec, dispatch_trace by reflexivity.
      cbn [arrive]. rewrite Hl. cbn [forEach].
      rewrite exec_bind, trace_bind. cbn [listen exec trace value ret fst snd app].
      destruct (click_one i 0 (menuButtons w) w) as [E T]. rewrite E, T.
      cbn [deliverable] in Hd. unfold menuButtons.
      destruct (menu (browser w)) as [mn |] eqn:Hmn; [| discriminate].
      apply andb_prop in Hd as [_ Hi]. cbn [Nat.leb andb plus]. rewrite Hi.
      unfold onClick. rewrite !exec_bind, !trace_bind.
      cbn [trace menuHidden blurButton modify gets snd app].
      match goal with
      | |- context [trace (start ?md ?rh) ?x] =>
          destruct (start_run md rh x) as [E' T'];
          assert (playing (this x) = false) as Hx
            by (destruct w as [[st pl pt so cv] br md0]; exact Hp)
      end.
      rewrite E', T'.
      match goal with
      | |- context [trace loop ?x] =>
          pose proof (loop_calls x) as C;
          destruct (loop_keeps x) as (Th & _);
          assert (playing (this x) = false) as Hy by exact Hx
      end.
      rewrite Hy in C. unfold calls in *. cbn [pick callOf]. rewrite C.
      rewrite Th. split; [exact Hy | reflexivity].
    + destruct (idle_dispatch e HI Hc) as [E T]. rewrite E, T.
      destruct w as [[st pl pt so cv] br md0].
      destruct e; try discriminate; split; first [exact Hp | reflexivity].
  - destruct (isClickEvent e) eqn:Hc.
    + destruct e; try discriminate.
      destruct H as (_ & _ & Hm & _). unfold menuDisplayed in Hm.
      cbn [deliverable] in Hd. destruct (menu (browser w)); [| discriminate].
      apply andb_prop in Hd as [Hh _]. congruence.
    + destruct (isFrame e) eqn:Hf.
      * destruct e; try discriminate.
        destruct (session_frame HI) as [E T]. rewrite E, T, loop_calls.
        destruct (loop_keeps (withBrowser (set_frameRequests 0) w)) as (Th & _).
        rewrite Th.
        destruct w as [[st pl pt so cv] br md0]. cbn in Hp |- *. subst pl.
        split; reflexivity.
      * destruct (session_reaction e HI Hc Hf) as [E T]. rewrite E, T.
        destruct e as [a c | k | k | k | | n | i | | x]; try discriminate;
          cbn [reaction arrive].
        -- split; [| reflexivity].
           destruct w as [[st pl pt so cv] br md0]. exact Hp.
        -- split; [| reflexivity].
           destruct w as [[st pl pt so cv] br md0]. exact Hp.
        -- split; [| reflexivity].
           destruct w as [[st pl pt so cv] br md0]. exact Hp.
        -- destruct (onKeyPress_run k w) as (Ek & Ck & _). rewrite Ek, Ck.
           unfold pressed. cbn [isSpace] in Ho.
           destruct (k =? 32)%Z; [| split; [exact Hp | reflexivity]].
           cbn [andb] in Ho. rewrite Ho. cbn [negb andb].
           destruct (waitingPlayer (model w)); split;
             first [reflexivity | exact Hp
                   | destruct w as [[st pl pt so cv] br md0]; exact Hp].
        -- destruct b; split; first [reflexivity | exact Hp].
        -- destruct n; try discriminate; cbn [listenerOf listen].
           ++ split; [| reflexivity].
              destruct w as [[st pl pt so cv] br md0]. exact Hp.
           ++ split; reflexivity.
           ++ rewrite exec_bind, trace_bind. cbn [value gets fst].
              destruct (sound (this _)); split; first [reflexivity | exact Hp].
        -- split; [| reflexivity].
           destruct w as [[st pl pt so cv] br md0]. exact Hp.
Qed.

Lemma paused_run (es : list Event) (ph : Phase) (w : World M) :
  Inv ph w -> playing (this w) = false -> admissible es w = true ->
  existsb isPlayingOnline es = false -> noOfflineStart es w = true ->
  playing (this (exec (run es) w)) = false /\
  existsb isUpdate (calls (trace (run es) w)) = false.
Proof.
  revert ph w. induction es as [| e es IH]; intros ph w H Hp Ha Hn Ho.
  - split; [exact Hp | reflexivity].
  - cbn [admissible existsb noOfflineStart] in Ha, Hn, Ho.
    apply andb_prop in Ha as [Hd Ha]. apply andb_prop in Ho as [Hoff Ho].
    apply orb_false_elim in Hn as [Hne Hn]. apply negb_true_iff in Hoff.
    destruct (paused_step e H Hp Hd Hne Hoff) as [Hp' Hu].
    destruct (IH _ _ (step_Inv e H Hd) Hp' Ha Hn Ho) as [Hp'' Hu'].
    unfold run in *. cbn [forEach]. rewrite exec_bind, trace_bind, calls_app.
    rewrite existsb_app, Hu, Hu'. split; [exact Hp'' | reflexivity].
Qed.

(** C3.  After a [disconnected] notification [playing] is false, and it
    stays false, with no frame calling [updateBall] or [updateBats], as
    long as no [playing_online] notification arrives (the session being an
    online one: the space bar is not pressed in state [OFFLINE], where it
    starts play); in a session a [playing_online] notification sets
    [playing], so that the next frame makes the calls of a playing frame,
    [updateBall] first. *)
Theorem disconnected_pauses (p : Page) (m : M) (es : list Event) :
  wellFormed p m es = true ->
  let w := exec (dispatch (Notify disconnected)) (reached p m es) in
  playing (this w) = false /\
  (forall es',
     admissible es' w = true ->
     existsb isPlayingOnline es' = false ->
     noOfflineStart es' w = true ->
     playing (this (exec (run es') w)) = false /\
     existsb isUpdate (calls (trace (run es') w)) = false) /\
  (forall b,
     phaseOf (history p m es) = Session b ->
     let w1 := exec (dispatch (Notify playing_online)) (reached p m es) in
     playing (this w1) = true /\
     calls (trace (dispatch AnimationFrame) w1) = frameCalls w1).
Proof.
  intro H. apply reached_Inv in H. cbv zeta.
  set (w := reached p m es) in *.
  set (ph := phaseOf (history p m es)) in *.
  assert (playing (this (exec (dispatch (Notify disconnected)) w)) = false)
    as Hp.
  { destruct ph as [| | v | b];
      [| destruct H as [_ []] | destruct H as [_ []] |].
    - destruct (idle_dispatch (Notify disconnected) H eq_refl) as [E _].
      rewrite E. apply H.
    - destruct (session_reaction (Notify disconnected) H eq_refl eq_refl)
        as [E _].
      rewrite E. reflexivity. }
  split; [exact Hp |]. split.
  - intros es' Ha Hn Ho.
    apply paused_run
      with (ph := fold_left phaseStep
                    (trace (dispatch (Notify disconnected)) w) ph);
      try assumption.
    apply step_Inv; [exact H | reflexivity].
  - intros b Hb. subst ph. rewrite Hb in H.
    destruct (session_reaction (Notify playing_online) H eq_refl eq_refl)
      as [E _].
    rewrite E. cbn [reaction arrive listenerOf listen].
    split; [reflexivity |].
    assert (Inv (Session b) (exec (modify (withThis (set_playing true))) w))
      as H1 by (apply Inv_fixture with (w := w); [reflexivity | exact H]).
    destruct (session_frame H1) as [_ T]. rewrite T, loop_calls.
    destruct w as [[st pl pt so cv] br md0]. reflexivity.
Qed.
End Lifecycle.

(** ** What the listeners emit and what they change *)

Section Emissions.
Context {M : Type} {PM : PongerModel M}.

Lemma emits_ret (Q : Effect -> bool) {A} (a : A) : emits Q (ret a).
Proof. intro w. reflexivity. Qed.

Lemma emits_gets (Q : Effect -> bool) {A} (f : World M -> A) : emits Q (gets f).
Proof. intro w. reflexivity. Qed.

Lemma emits_modify (Q : Effect -> bool) (f : World M -> World M) :
  emits Q (modify f).
Proof. intro w. reflexivity. Qed.

Lemma emits_emit (Q : Effect -> bool) (e : Effect) : Q e = true -> emits Q (emit e).
Proof. intros H w. cbn. rewrite H. reflexivity. Qed.

Lemma emits_bind (Q : Effect -> bool) {A B} (c : V A) (k : A -> V B) :
  emits Q c -> (forall a, emits Q (k a)) -> emits Q (bind c k).
Proof.
  intros Hc Hk w. rewrite trace_bind, forallb_app, Hc, Hk. reflexivity.
Qed.

Lemma emits_when (Q : Effect -> bool) (b : bool) (c : V unit) :
  emits Q c -> emits Q (when b c).
Proof. intro H. destruct b; [exact H | apply emits_ret]. Qed.

Lemma emits_forEach (Q : Effect -> bool) {A} (f : A -> V unit) (l : list A) :
  (forall a, emits Q (f a)) -> emits Q (forEach f l).
Proof.
  intro H. induction l as [| a l IH]; [apply emits_ret |].
  cbn [forEach]. apply emits_bind; auto.
Qed.

Lemma emits_times (Q : Effect -> bool) (n : nat) (c : V unit) :
  emits Q c -> emits Q (times n c).
Proof.
  intro H. induction n as [| n IH]; [apply emits_ret |].
  cbn [times]. apply emits_bind; auto.
Qed.

Ltac emitting :=
  repeat lazymatch goal with
    | |- emits _ (bind _ _) => apply emits_bind; [| intro]
    | |- emits _ (ret _) => apply emits_ret
    | |- emits _ (gets _) => apply emits_gets
    | |- emits _ (modify _) => apply emits_modify
    | |- emits _ (emit _) => apply emits_emit; reflexivity
    | |- emits _ (when _ _) => apply emits_when
    | |- emits _ (forEach _ _) => apply emits_forEach; intro
    | |- emits _ (times _ _) => apply emits_times
    | |- emits _ (match ?x with _ => _ end) => destruct x
    | |- emits _ ?c => let h := head c in unfold h
    end.

Lemma loop_silent : emits noPlay loop.
Proof. unfold loop. emitting. Qed.

(** On an event other than [collision] no listener plays a sound. *)
Lemma listen_silent (e : Event) (l : Listener) :
  isCollision e = false -> emits noPlay (listen e l).
Proof.
  intro H.
  destruct l, e; cbn [listen]; try apply emits_ret;
    try (destruct n; try discriminate; try apply emits_ret);
    emitting.
Qed.

(** Nothing but a [collision] notification makes the view play a sound. *)
Lemma dispatch_silent (e : Event) : isCollision e = false -> emits noPlay (dispatch e).
Proof.
  intro H.
  destruct e as [a c | k | k | k | | n | i | | x]; unfold dispatch;
    (apply emits_bind; [emitting | intro]);
    (apply emits_bind; [emitting | intro]);
    first [ apply emits_times; apply loop_silent
          | apply emits_forEach; intro l; apply listen_silent; exact H ].
Qed.

Lemma noPlay_playbacks (t : list Effect) :
  forallb noPlay t = true -> playbacks t = [].
Proof.
  induction t as [| e t IH]; [reflexivity |].
  cbn [forallb]. intro H. apply andb_prop in H as [He Ht].
  destruct e; try discriminate; exact (IH Ht).
Qed.

(** C9.  In a session the view answers a [collision] notification by
    playing the sound loaded by [init], once, and by nothing else; no
    other event of any kind makes it play a sound. *)
Theorem collision_plays_sound (p : Page) (m : M) (es : list Event) :
  wellFormed p m es = true ->
  let w := reached p m es in
  (forall b,
     phaseOf (history p m es) = Session b ->
     trace (dispatch (Notify collision)) w = [Play "./sound.wav"] /\
     exec (dispatch (Notify collision)) w = w) /\
  (forall e, isCollision e = false -> playbacks (trace (dispatch e) w) = []).
Proof.
  intro H. apply reached_Inv in H. cbv zeta. split.
  - intros b Hb. rewrite Hb in H.
    destruct (session_reaction (Notify collision) H eq_refl eq_refl) as [E T].
    rewrite E, T. cbn [reaction arrive listenerOf listen].
    rewrite exec_bind, trace_bind. cbn [value gets fst exec trace snd app].
    destruct H as [Hs _]. rewrite Hs. split; reflexivity.
  - intros e He. apply noPlay_playbacks. apply dispatch_silent. exact He.
Qed.

(** *** The fields the view reads *)

Lemma loop_readable : emits readable loop.
Proof. unfold loop. emitting. Qed.

Lemma start_readable (mode roomHash : option string) :
  emits readable (start mode roomHash).
Proof.
  unfold start.
  do 10 (apply emits_bind; [emitting | intro]). apply loop_readable.
Qed.

Lemma listen_readable (e : Event) (l : Listener) : emits readable (listen e l).
Proof.
  destruct l, e; cbn [listen]; try apply emits_ret;
    try (destruct n; try apply emits_ret);
    try (apply emits_when; unfold onClick;
         do 3 (apply emits_bind; [emitting | intro]); apply start_readable);
    emitting.
Qed.

Lemma dispatch_readable (e : Event) : emits readable (dispatch e).
Proof.
  destruct e as [a c | k | k | k | | n | i | | x]; unfold dispatch;
    (apply emits_bind; [emitting | intro]);
    (apply emits_bind; [emitting | intro]);
    first [ apply emits_times; apply loop_readable
          | apply emits_forEach; intro l; apply listen_readable ].
Qed.

Lemma wireButtons_readable (bs : list string) (i : nat) :
  emits readable (wireButtons i bs).
Proof.
  revert i. induction bs as [| b bs IH]; intro i; [apply emits_ret |].
  cbn [wireButtons].
  apply emits_bind; [emitting | intro].
  apply emits_bind; [emitting | intro]. apply IH.
Qed.

Lemma session_readable (es : list Event) : emits readable (session es).
Proof.
  unfold session. apply emits_bind.
  - unfold init.
    do 6 (apply emits_bind; [emitting | intros _]).
    apply emits_bind; [emitting | intro mn].
    apply emits_bind; [emitting | intro h].
    destruct (_ && _).
    + apply emits_bind; [emitting | intro]. apply start_readable.
    + destruct mn as [mn |]; [| apply emits_ret].
      apply emits_bind; [emitting | intro]. apply wireButtons_readable.
  - intro. unfold run. apply emits_forEach. intro. apply dispatch_readable.
Qed.
End Emissions.

(** ** The model changes through its methods only *)

Section ModelFrame.
Context {M : Type} {PM : PongerModel M}.

Lemma byCalls_ret {A} (a : A) : byCalls (ret a).
Proof. intro w. reflexivity. Qed.

Lemma byCalls_gets {A} (f : World M -> A) : byCalls (gets f).
Proof. intro w. reflexivity. Qed.

Lemma byCalls_this (f : ViewObj -> ViewObj) : byCalls (modify (withThis f)).
Proof. intro w. reflexivity. Qed.

Lemma byCalls_browser (f : Browser -> Browser) : byCalls (modify (withBrowser f)).
Proof. intro w. reflexivity. Qed.

Lemma byCalls_call (c : Call) : byCalls (call c).
Proof. intro w. reflexivity. Qed.

Lemma byCalls_observes {A} (c : V A) : observes c -> byCalls c.
Proof.
  intros H w. destruct (H w) as [E P].
  rewrite E, (passive_calls _ P). reflexivity.
Qed.

Lemma byCalls_play (s : string) : byCalls (emit (Play s)).
Proof. intro w. reflexivity. Qed.

Lemma byCalls_bind {A B} (c : V A) (k : A -> V B) :
  byCalls c -> (forall a, byCalls (k a)) -> byCalls (bind c k).
Proof.
  intros Hc Hk w.
  rewrite exec_bind, trace_bind, calls_app, replay_app, Hk, Hc. reflexivity.
Qed.

Lemma byCalls_when (b : bool) (c : V unit) : byCalls c -> byCalls (when b c).
Proof. intro H. destruct b; [exact H | apply byCalls_ret]. Qed.

Lemma byCalls_forEach {A} (f : A -> V unit) (l : list A) :
  (forall a, byCalls (f a)) -> byCalls (forEach f l).
Proof.
  intro H. induction l as [| a l IH]; [apply byCalls_ret |].
  cbn [forEach]. apply byCalls_bind; auto.
Qed.

Lemma byCalls_times (n : nat) (c : V unit) : byCalls c -> byCalls (times n c).
Proof.
  intro H. induction n as [| n IH]; [apply byCalls_ret |].
  cbn [times]. apply byCalls_bind; auto.
Qed.

Ltac framing :=
  repeat lazymatch goal with
    | |- byCalls (bind _ _) => apply byCalls_bind; [| intro]
    | |- byCalls (ret _) => apply byCalls_ret
    | |- byCalls (gets _) => apply byCalls_gets
    | |- byCalls (modify (withThis _)) => apply byCalls_this
    | |- byCalls (modify (withBrowser _)) => apply byCalls_browser
    | |- byCalls (call _) => apply byCalls_call
    | |- byCalls (emit (Play _)) => apply byCalls_play
    | |- byCalls (when _ _) => apply byCalls_when
    | |- byCalls redraw => apply byCalls_observes; apply observes_redraw
    | |- byCalls readState => apply byCalls_observes; apply observes_readState
    | |- byCalls readStates => apply byCalls_observes; apply observes_readStates
    | |- byCalls readLeftBat => apply byCalls_observes; apply observes_readLeftBat
    | |- byCalls readRightBat => apply byCalls_observes; apply observes_readRightBat
    | |- byCalls readAbstractWidth =>
        apply byCalls_observes; apply observes_readAbstractWidth
    | |- byCalls readAbstractHeight =>
        apply byCalls_observes; apply observes_readAbstractHeight
    | |- byCalls readRoomId => intro; reflexivity
    | |- byCalls (forEach _ _) => apply byCalls_forEach; intro
    | |- byCalls (times _ _) => apply byCalls_times
    | |- byCalls (match ?x with _ => _ end) => destruct x
    | |- byCalls ?c => let h := head c in unfold h
    end.

Lemma byCalls_loop : byCalls loop.
Proof. framing. Qed.

Lemma byCalls_start (mode roomHash : option string) :
  byCalls (start mode roomHash).
Proof. framing. Qed.

Lemma byCalls_onKeyPress (k : Z) : byCalls (onKeyPress k).
Proof. framing. Qed.

Lemma byCalls_listen (e : Event) (l : Listener) : byCalls (listen e l).
Proof.
  destruct l, e; cbn [listen]; try apply byCalls_ret;
    try (destruct n; try apply byCalls_ret); framing.
Qed.

Lemma byCalls_dispatch (e : Event) : isPeer e = false -> byCalls (dispatch e).
Proof.
  intro H.
  destruct e as [a c | k | k | k | | n | i | | x]; try discriminate;
    unfold dispatch; framing; apply byCalls_listen.
Qed.

Lemma byCalls_run (es : list Event) : existsb isPeer es = false -> byCalls (run es).
Proof.
  induction es as [| e es IH]; intro H; [apply byCalls_ret |].
  cbn [existsb] in H. apply orb_false_elim in H as [He Hes].
  unfold run. cbn [forEach]. apply byCalls_bind.
  - apply byCalls_dispatch. exact He.
  - intro. apply IH. exact Hes.
Qed.

Lemma byCalls_wireButtons (bs : list string) (i : nat) : byCalls (wireButtons i bs).
Proof.
  revert i. induction bs as [| b bs IH]; intro i; [apply byCalls_ret |].
  cbn [wireButtons].
  apply byCalls_bind; [framing | intro].
  apply byCalls_bind; [framing | intro]. apply IH.
Qed.

Lemma byCalls_init : byCalls init.
Proof.
  unfold init.
  do 6 (apply byCalls_bind; [framing | intros _]).
  apply byCalls_bind; [framing | intro mn].
  apply byCalls_bind; [framing | intro h].
  destruct (_ && _).
  - framing.
  - destruct mn as [mn |]; [| apply byCalls_ret].
    apply byCalls_bind; [framing | intro]. apply byCalls_wireButtons.
Qed.

Lemma forwards_calls (e : Event) (t : list Effect) :
  forallb (forwards e) t = true -> forallb (forwarding e) (calls t) = true.
Proof.
  induction t as [| x t IH]; [reflexivity |].
  cbn [forallb]. intro H. apply andb_prop in H as [Hx Ht].
  destruct x; cbn [calls pick callOf forallb]; auto.
  cbn [forwards] in Hx. rewrite Hx. exact (IH Ht).
Qed.

Lemma listen_forwards (e : Event) (l : Listener) :
  isClickEvent e = false -> isFrame e = false -> emits (forwards e) (listen e l).
Proof.
  intros Hc Hf.
  destruct l, e; try discriminate; cbn [listen]; try apply emits_ret;
    try (destruct n; try apply emits_ret);
    repeat lazymatch goal with
      | |- emits _ (bind _ _) => apply emits_bind; [| intro]
      | |- emits _ (ret _) => apply emits_ret
      | |- emits _ (gets _) => apply emits_gets
      | |- emits _ (modify _) => apply emits_modify
      | |- emits _ (emit _) =>
          apply emits_emit; cbn [forwards forwarding];
          first [reflexivity | apply Z.eqb_refl]
      | |- emits _ (when _ _) => apply emits_when
      | |- emits _ (match ?x with _ => _ end) => destruct x
      | |- emits _ ?c => let h := head c in unfold h
      end.
Qed.

(** An input event other than a click, a notification and a message of
    the peer make the view call nothing but the method that forwards the
    event. *)
Lemma dispatch_forwards (e : Event) :
  isClickEvent e = false -> isFrame e = false -> emits (forwards e) (dispatch e).
Proof.
  intros Hc Hf.
  destruct e as [a c | k | k | k | | n | i | | x]; try discriminate;
    unfold dispatch;
    (apply emits_bind; [first [apply emits_ret | apply emits_modify] | intro]);
    (apply emits_bind; [apply emits_gets | intro]);
    apply emits_forEach; intro l; apply listen_forwards; reflexivity.
Qed.

(** C6.  Whatever frames, input events and notifications are delivered,
    the model is changed by the view through calls of its methods only:
    at any time its state is the one the calls made so far produce from
    the initial one, the view assigns to none of its properties.  The
    calls made on a key event are the forwarding calls ([keyDown] and
    [keyUp] with the key, [playerStarted]); blur, resize and
    notifications make no call at all. *)
Theorem model_changed_by_calls_only (p : Page) (m : M) (es : list Event) :
  existsb isPeer es = false ->
  model (reached p m es) = replay (calls (history p m es)) m /\
  (forall e w,
     isClickEvent e = false -> isFrame e = false ->
     forallb (forwarding e) (calls (trace (dispatch e) w)) = true).
Proof.
  intro H. split.
  - assert (byCalls (session es)) as B.
    { unfold session. apply byCalls_bind; [apply byCalls_init | intro].
      apply byCalls_run. exact H. }
    exact (B (constructor p m)).
  - intros e w Hc Hf. apply forwards_calls. apply dispatch_forwards; assumption.
Qed.
End ModelFrame.

(** ** What the view makes of the model's fields *)

Section Determinacy.
Context {M : Type} {PM : PongerModel M}.

Ltac fivefold := split; [| split; [| split; [| split]]].

Lemma determined_ret {A} (a : A) : determined (ret a).
Proof.
  intros w1 w2 x1 x2 S H. cbn in H.
  fivefold; first [reflexivity | assumption].
Qed.

Lemma determined_gets {A} (f : World M -> A) :
  (forall w1 w2, sameView w1 w2 -> f w1 = f w2) -> determined (gets f).
Proof.
  intros Hf w1 w2 x1 x2 S H. cbn in H.
  fivefold; try first [reflexivity | assumption].
  apply Hf. exact S.
Qed.

Lemma determined_modify (f : World M -> World M) :
  (forall w1 w2, sameView w1 w2 -> sameView (f w1) (f w2)) ->
  determined (modify f).
Proof.
  intros Hf w1 w2 x1 x2 S H. cbn in H.
  fivefold; try first [reflexivity | assumption].
  apply Hf. exact S.
Qed.

Lemma determined_emit (e : Effect) : determined (emit e).
Proof.
  intros w1 w2 x1 x2 S H. cbn [trace emit snd] in *.
  apply app_inv_head in H. fivefold; first [reflexivity | assumption].
Qed.

Lemma determined_call (c : Call) : determined (call c).
Proof.
  intros w1 w2 x1 x2 S H. cbn in H.
  fivefold; first [reflexivity | assumption].
Qed.

Lemma determined_bind {A B} (c : V A) (k : A -> V B) :
  determined c -> (forall a, determined (k a)) -> determined (bind c k).
Proof.
  intros Hc Hk w1 w2 x1 x2 S H.
  rewrite !trace_bind, !listedReads_app, <- !app_assoc in H.
  destruct (Hc w1 w2 _ _ S H) as (Ev & S' & R & C & H').
  rewrite !value_bind, !exec_bind, !trace_bind, !rendering_app, !calls_app.
  rewrite Ev in *.
  destruct (Hk (value c w2) _ _ _ _ S' H') as (Ev' & S'' & R' & C' & Hx).
  rewrite Ev', R, R', C, C'. fivefold; first [reflexivity | assumption].
Qed.

Lemma determined_when (b : bool) (c : V unit) :
  determined c -> determined (when b c).
Proof. intro H. destruct b; [exact H | apply determined_ret]. Qed.

Lemma determined_forEach {A} (f : A -> V unit) (l : list A) :
  (forall a, determined (f a)) -> determined (forEach f l).
Proof.
  intro H. induction l as [| a l IH]; [apply determined_ret |].
  cbn [forEach]. apply determined_bind; auto.
Qed.

Lemma determined_times (n : nat) (c : V unit) :
  determined c -> determined (times n c).
Proof.
  intro H. induction n as [| n IH]; [apply determined_ret |].
  cbn [times]. apply determined_bind; auto.
Qed.

(** A read of a listed field returns its value to both runs alike. *)
Ltac listed_read :=
  intros w1 w2 x1 x2 S H;
  cbn [trace value exec bind gets emit ret fst snd app listedReads reads pick
       readOf filter listed listedFields existsb Field_eqb orb] in *;
  let Hv := fresh "Hv" in
  let Hx := fresh "Hx" in
  injection H as Hv Hx; rewrite Hv;
  split; [| split; [| split; [| split]]]; first [reflexivity | assumption].

Lemma determined_readState : determined readState.
Proof. unfold readState. listed_read. Qed.
Lemma determined_readStates : determined readStates.
Proof. unfold readStates. listed_read. Qed.
Lemma determined_readBall : determined readBall.
Proof. unfold readBall. listed_read. Qed.
Lemma determined_readLeftBat : determined readLeftBat.
Proof. unfold readLeftBat. listed_read. Qed.
Lemma determined_readRightBat : determined readRightBat.
Proof. unfold readRightBat. listed_read. Qed.
Lemma determined_readPoints : determined readPoints.
Proof. unfold readPoints. listed_read. Qed.
Lemma determined_readAbstractWidth : determined readAbstractWidth.
Proof. unfold readAbstractWidth. listed_read. Qed.
Lemma determined_readAbstractHeight : determined readAbstractHeight.
Proof. unfold readAbstractHeight. listed_read. Qed.

(** The listener of [open_room] reads [roomId], which is not listed, and
    writes the URL fragment, which [sameView] leaves out. *)
Lemma determined_open_room : determined (listen (Notify open_room) OnOpenRoom).
Proof.
  intros w1 w2 x1 x2 [S1 S2] H. cbn in H. subst x2.
  fivefold; try reflexivity. split; [exact S1 |].
  destruct w1 as [v1 [iw1 ih1 hs1 mn1 ls1 fr1 ck1 tk1] m1].
  destruct w2 as [v2 [iw2 ih2 hs2 mn2 ls2 fr2 ck2 tk2] m2].
  cbn in S2 |- *. injection S2 as -> -> -> -> -> -> ->. reflexivity.
Qed.

Ltac same_view :=
  let S1 := fresh "S" in
  let S2 := fresh "S" in
  intros [? [? ? ? ? ? ? ? ?] ?] [? [? ? ? ? ? ? ? ?] ?] [S1 S2];
  cbn in S1, S2; subst; injection S2; intros; subst;
  first [reflexivity | split; reflexivity].

Ltac deciding :=
  repeat lazymatch goal with
    | |- determined (bind _ _) => apply determined_bind; [| intro]
    | |- determined (ret _) => apply determined_ret
    | |- determined (emit _) => apply determined_emit
    | |- determined (call _) => apply determined_call
    | |- determined (when _ _) => apply determined_when
    | |- determined (forEach _ _) => apply determined_forEach; intro
    | |- determined (times _ _) => apply determined_times
    | |- determined (gets _) => apply determined_gets; same_view
    | |- determined (modify _) => apply determined_modify; same_view
    | |- determined readState => apply determined_readState
    | |- determined readStates => apply determined_readStates
    | |- determined readBall => apply determined_readBall
    | |- determined readLeftBat => apply determined_readLeftBat
    | |- determined readRightBat => apply determined_readRightBat
    | |- determined readPoints => apply determined_readPoints
    | |- determined readAbstractWidth => apply determined_readAbstractWidth
    | |- determined readAbstractHeight => apply determined_readAbstractHeight
    | |- determined readRoomId => fail
    | |- determined (match ?x with _ => _ end) => destruct x
    | |- determined ?c => let h := head c in unfold h
    end.

Lemma determined_redraw : determined redraw.
Proof. deciding. Qed.

Lemma determined_loop : determined loop.
Proof.
  unfold loop.
  apply determined_bind; [deciding | intro].
  apply determined_bind; [deciding | intro].
  apply determined_bind; [deciding | intro].
  apply determined_bind; [apply determined_redraw | intro].
  deciding.
Qed.

Lemma determined_start (mode roomHash : option string) :
  determined (start mode roomHash).
Proof.
  unfold start.
  do 9 (apply determined_bind; [deciding | intro]).
  apply determined_bind; [deciding | intro]. apply determined_loop.
Qed.

Lemma determined_listen (e : Event) (l : Listener) : determined (listen e l).
Proof.
  destruct l, e; cbn [listen]; try apply determined_ret;
    try (destruct n; try apply determined_ret);
    try apply determined_open_room.
  - deciding.
  - deciding.
  - deciding.
  - deciding.
  - deciding.
  - deciding.
  - deciding.
  - deciding.
  - apply determined_when. unfold onClick.
    do 3 (apply determined_bind; [deciding | intro]).
    apply determined_start.
Qed.

Lemma determined_dispatch (e : Event) : determined (dispatch e).
Proof.
  destruct e as [a c | k | k | k | | n | i | | x]; unfold dispatch;
    (apply determined_bind; [deciding | intro]);
    (apply determined_bind; [deciding | intro]);
    first [ apply determined_times; apply determined_loop
          | apply determined_forEach; intro; apply determined_listen ].
Qed.

Lemma determined_run (es : list Event) : determined (run es).
Proof.
  unfold run. apply determined_forEach. intro. apply determined_dispatch.
Qed.

Lemma determined_wireButtons (bs : list string) (i : nat) :
  determined (wireButtons i bs).
Proof.
  revert i. induction bs as [| b bs IH]; intro i; [apply determined_ret |].
  cbn [wireButtons].
  apply determined_bind; [deciding | intro].
  apply determined_bind; [deciding | intro]. apply IH.
Qed.

(** The script, on one page and two models. *)
Lemma init_determined (p : Page) (m1 m2 : M) (x1 x2 : list (Field * Value)) :
  listedReads (trace init (constructor p m1)) ++ x1 =
    listedReads (trace init (constructor p m2)) ++ x2 ->
  sameView (exec init (constructor p m1)) (exec init (constructor p m2)) /\
  rendering (trace init (constructor p m1)) =
    rendering (trace init (constructor p m2)) /\
  calls (trace init (constructor p m1)) = calls (trace init (constructor p m2)) /\
  x1 = x2.
Proof.
  intro H.
  pose proof (init_run p m1) as H1. pose proof (init_run p m2) as H2.
  cbv zeta in H1, H2.
  destruct (joining p); destruct H1 as [E1 T1]; destruct H2 as [E2 T2];
    rewrite E1, E2, T1, T2; rewrite T1, T2 in H;
    rewrite !listedReads_invoke, !listedReads_read in H by reflexivity;
    cbn [app] in H; injection H as Hw Hh H.
  - match type of H with
    | listedReads (trace (start ?md ?rh) ?a) ++ _ =
        listedReads (trace _ ?b) ++ _ =>
        destruct (@determined_start md rh a b x1 x2) as (_ & S & R & C & Hx);
          [| exact H |]
    end.
    + unfold sameView, sized.
      cbn [this browser withBrowser set_menu set_hash]. rewrite Hw, Hh.
      split; reflexivity.
    + unfold rendering, calls in *. cbn [pick drawOf callOf].
      rewrite R, C. split; [exact S |]. split; [reflexivity |].
      split; [reflexivity | exact Hx].
  - assert (sameView (sized p m1) (sized p m2)) as S0
      by (unfold sameView, sized; cbn [this browser set_hash];
          rewrite Hw, Hh; split; reflexivity).
    split; [| split; [reflexivity | split; [reflexivity | exact H]]].
    destruct (page_menu p) as [mn |]; [| exact S0].
    apply (@determined_wireButtons (buttons mn) 0 _ _ [] []);
      [| rewrite (proj1 (wireButtons_run _ _ _)),
                 (proj1 (wireButtons_run _ _ _)); reflexivity].
    destruct S0 as [Sa Sb]. unfold sameView, sized in *.
    cbn [this browser withBrowser set_menu set_hash] in *.
    split; [exact Sa | reflexivity].
Qed.

(** C7, as amended.  The view reads no field of the model but [state],
    [states], [ball], [leftBat], [rightBat], [points], [abstractWidth],
    [abstractHeight] and [roomId]; and two runs of the view on one page
    with the same events, over two models, in which the reads of the
    first eight fields return the same values, paint the same and make
    the same calls into the model. *)
Theorem listed_fields_settle_view (p : Page) (m1 m2 : M) (es : list Event) :
  forallb readable (history p m1 es) = true /\
  (listedReads (history p m1 es) = listedReads (history p m2 es) ->
   rendering (history p m1 es) = rendering (history p m2 es) /\
   calls (history p m1 es) = calls (history p m2 es)).
Proof.
  split; [apply session_readable |].
  rewrite !history_eq, !listedReads_app, !rendering_app, !calls_app.
  intro H. destruct (init_determined p m1 m2 _ _ H) as (S & R & C & H').
  rewrite <- (app_nil_r (listedReads (trace (run es) (exec init (constructor p m1)))))
    in H'.
  rewrite <- (app_nil_r (listedReads (trace (run es) (exec init (constructor p m2)))))
    in H'.
  destruct (@determined_run es _ _ [] [] S H') as (_ & _ & R' & C' & _).
  rewrite R, R', C, C'. split; reflexivity.
Qed.
End Determinacy.

(** ** The size of the canvas *)

(** *** Whole numbers in binary64

    The inner size of a window and the margin are whole numbers far below
    2^53: subtracting them involves no rounding, and the canvas element
    stores a whole number as it is. *)

Section Exactness.
Local Open Scope Z_scope.

Lemma iter_padded (p q : positive) : Pos.iter xO p q = padded (Pos.to_nat q) p.
Proof. apply Pos2Nat.inj_iter. Qed.

Lemma padded_add (j k : nat) (p : positive) :
  padded j (padded k p) = padded (j + k) p.
Proof. unfold padded. symmetry. apply Nat.iter_add. Qed.

Lemma digits_padded (k : nat) (p : positive) :
  Zpos (digits2_pos (padded k p)) = Zpos (digits2_pos p) + Z.of_nat k.
Proof.
  induction k as [| k IH]; [cbn; lia |].
  change (padded (S k) p) with (xO (padded k p)).
  cbn [digits2_pos]. rewrite Pos2Z.inj_succ, IH. lia.
Qed.

Lemma value_padded (k : nat) (p : positive) :
  Zpos (padded k p) = Zpos p * 2 ^ Z.of_nat k.
Proof.
  induction k as [| k IH]; [cbn; lia |].
  change (padded (S k) p) with (xO (padded k p)).
  rewrite Pos2Z.inj_xO, IH, Nat2Z.inj_succ, Z.pow_succ_r by lia. ring.
Qed.

Lemma digits_bound (p : positive) : 2 ^ (Zpos (digits2_pos p) - 1) <= Zpos p.
Proof.
  induction p as [p IH | p IH |]; cbn [digits2_pos]; [| | cbn; lia];
    rewrite Pos2Z.inj_succ;
    replace (Z.succ (Zpos (digits2_pos p)) - 1)
      with (Z.succ (Zpos (digits2_pos p) - 1)) by lia;
    rewrite Z.pow_succ_r by lia; lia.
Qed.

Lemma digits_small (p : positive) : Zpos p < 2 ^ 53 -> Zpos (digits2_pos p) <= 53.
Proof.
  intro H. pose proof (digits_bound p) as B.
  destruct (Z_le_gt_dec (Zpos (digits2_pos p)) 53) as [L | G]; [exact L |].
  exfalso. assert (2 ^ 53 <= 2 ^ (Zpos (digits2_pos p) - 1))
    by (apply Z.pow_le_mono_r; lia). lia.
Qed.

Lemma iter_pos_nat {A} (f : A -> A) (n : positive) (x : A) :
  iter_pos f n x = Nat.iter (Pos.to_nat n) f x.
Proof.
  revert x. induction n as [n IH | n IH |]; intro x; cbn [iter_pos].
  - rewrite !IH, Pos2Nat.inj_xI, <- Nat.iter_add.
    replace (S (2 * Pos.to_nat n))%nat with (S (Pos.to_nat n + Pos.to_nat n))%nat by lia.
    rewrite Nat.iter_succ_r. reflexivity.
  - rewrite !IH, Pos2Nat.inj_xO, <- Nat.iter_add. f_equal. lia.
  - reflexivity.
Qed.

Lemma shr_padded (k j : nat) (p : positive) :
  Nat.iter k shr_1 {| shr_m := Zpos (padded (k + j) p); shr_r := false; shr_s := false |} =
    {| shr_m := Zpos (padded j p); shr_r := false; shr_s := false |}.
Proof.
  induction k as [| k IH]; [reflexivity |].
  rewrite Nat.iter_succ_r.
  change (padded (S k + j) p) with (xO (padded (k + j) p)).
  cbn [shr_1 orb]. exact IH.
Qed.

Lemma fexp_normal (x : Z) : -1021 <= x -> fexp prec emax x = x - 53.
Proof. intro H. unfold fexp, emin, prec, emax. lia. Qed.

(** Rounding a mantissa of [p] followed by [j] zeros, at least 53 bits
    long in all, loses nothing when [p] has at most 53 bits. *)
Lemma aux_padded (s : bool) (p : positive) (j : nat) (e : Z) :
  Zpos (digits2_pos p) <= 53 ->
  53 <= Zpos (digits2_pos p) + Z.of_nat j ->
  -1074 <= e + Z.of_nat j + Zpos (digits2_pos p) - 53 <= 971 ->
  binary_round_aux prec emax s (Zpos (padded j p)) e loc_Exact =
    S754_finite s (padded (Z.to_nat (53 - Zpos (digits2_pos p))) p)
      (e + Z.of_nat j + Zpos (digits2_pos p) - 53).
Proof.
  intros Hd Hj He. set (d := Zpos (digits2_pos p)) in *.
  unfold binary_round_aux, shr_fexp. cbn [Zdigits2].
  rewrite digits_padded. fold d. rewrite fexp_normal by lia.
  cbn [shr_record_of_loc].
  assert (exists k : nat, j = (k + Z.to_nat (53 - d))%nat /\
                          d + Z.of_nat j + e - 53 - e = Z.of_nat k) as (k & Hk & Hs)
    by (exists (Z.to_nat (d + Z.of_nat j - 53)); lia).
  rewrite Hs.
  assert (shr {| shr_m := Zpos (padded j p); shr_r := false; shr_s := false |} e
            (Z.of_nat k) =
          ({| shr_m := Zpos (padded (Z.to_nat (53 - d)) p); shr_r := false;
              shr_s := false |}, e + Z.of_nat k)) as ->.
  { destruct k as [| k].
    - cbn [Z.of_nat shr]. rewrite Hk. rewrite Z.add_0_r. reflexivity.
    - rewrite Hk. cbn [Z.of_nat shr]. rewrite iter_pos_nat, SuccNat2Pos.id_succ.
      rewrite shr_padded. reflexivity. }
  cbn [shr_m loc_of_shr_record round_nearest_even Zdigits2 shr_record_of_loc].
  rewrite digits_padded. fold d. rewrite fexp_normal by lia.
  replace (d + Z.of_nat (Z.to_nat (53 - d)) + (e + Z.of_nat k) - 53 - (e + Z.of_nat k))
    with 0 by lia.
  cbn [shr shr_m].
  replace (e + Z.of_nat k) with (e + Z.of_nat j + d - 53) by lia.
  unfold prec, emax.
  destruct (Z.leb_spec (e + Z.of_nat j + d - 53) (1024 - 53)); [reflexivity | lia].
Qed.

Lemma round_padded (s : bool) (p : positive) (j : nat) (e : Z) :
  Zpos (digits2_pos p) <= 53 ->
  -1074 <= e + Z.of_nat j + Zpos (digits2_pos p) - 53 <= 971 ->
  binary_round prec emax s (padded j p) e =
    S754_finite s (padded (Z.to_nat (53 - Zpos (digits2_pos p))) p)
      (e + Z.of_nat j + Zpos (digits2_pos p) - 53).
Proof.
  intros Hd He. set (d := Zpos (digits2_pos p)) in *.
  unfold binary_round. rewrite digits_padded. fold d.
  rewrite fexp_normal by lia. unfold shl_align.
  destruct (d + Z.of_nat j + e - 53 - e) as [| n | n] eqn:Hn.
  - rewrite aux_padded by (fold d; lia). reflexivity.
  - rewrite aux_padded by (fold d; lia). reflexivity.
  - rewrite iter_padded, padded_add.
    rewrite aux_padded by (fold d; lia). fold d. f_equal; lia.
Qed.

(** A whole number below 2^53 as a binary64 value. *)
Lemma normalize_whole (p : positive) :
  Zpos p < 2 ^ 53 ->
  binary_normalize prec emax (Zpos p) 0 false =
    S754_finite false (padded (Z.to_nat (53 - Zpos (digits2_pos p))) p)
      (Zpos (digits2_pos p) - 53).
Proof.
  intro H. pose proof (digits_small H) as Hd.
  cbn [binary_normalize]. change p with (padded 0 p) at 1.
  rewrite round_padded by (cbn [Z.of_nat]; lia). f_equal.
Qed.

Lemma align_padded (m : positive) (e e' : Z) :
  e' <= e -> fst (shl_align m e e') = padded (Z.to_nat (e - e')) m.
Proof.
  intro H. unfold shl_align. destruct (e' - e) as [| n | n] eqn:Hn; cbn [fst].
  - replace (e - e') with 0 by lia. reflexivity.
  - lia.
  - rewrite iter_padded. f_equal. lia.
Qed.

(** Subtraction of whole numbers below 2^53 is exact. *)
Lemma sub_whole (a b : positive) :
  Zpos b < Zpos a -> Zpos a < 2 ^ 53 ->
  SF64sub (binary_normalize prec emax (Zpos a) 0 false)
    (binary_normalize prec emax (Zpos b) 0 false) =
    binary_normalize prec emax (Zpos a - Zpos b) 0 false.
Proof.
  intros Hlt Ha.
  assert (Zpos a - Zpos b = Zpos (a - b)) as Hc
    by (rewrite Pos2Z.inj_sub by lia; reflexivity).
  rewrite Hc, !normalize_whole by lia.
  pose proof (digits_small Ha) as Hda.
  assert (Zpos b < 2 ^ 53) as Hb by lia. pose proof (digits_small Hb) as Hdb.
  assert (Zpos (a - b) < 2 ^ 53) as Hc' by lia.
  pose proof (digits_small Hc') as Hdc.
  set (da := Zpos (digits2_pos a)) in *. set (db := Zpos (digits2_pos b)) in *.
  set (dc := Zpos (digits2_pos (a - b))) in *.
  unfold SF64sub, SFsub. cbv zeta.
  set (ez := Z.min (da - 53) (db - 53)).
  rewrite !align_padded, !padded_add by lia. cbn [cond_Zopp].
  replace (Z.to_nat (da - 53 - ez) + Z.to_nat (53 - da))%nat with (Z.to_nat (- ez)) by lia.
  replace (Z.to_nat (db - 53 - ez) + Z.to_nat (53 - db))%nat with (Z.to_nat (- ez)) by lia.
  assert (Zpos (padded (Z.to_nat (- ez)) a) - Zpos (padded (Z.to_nat (- ez)) b) =
          Zpos (padded (Z.to_nat (- ez)) (a - b))) as ->
    by (rewrite !value_padded, <- Hc; ring).
  cbn [binary_normalize]. rewrite round_padded by (fold dc; lia).
  fold dc. f_equal. lia.
Qed.

Lemma Prim2SF_number (n : Z) :
  0 <= n < 2 ^ 53 -> Prim2SF (number n) = binary_normalize prec emax n 0 false.
Proof.
  intro H. unfold number. destruct (Z.ltb_spec n 0) as [L | _]; [lia |].
  rewrite of_uint63_spec, Uint63.of_Z_spec, Z.mod_small; [reflexivity |].
  change wB with (2 ^ 63). split; [lia |].
  assert (2 ^ 53 < 2 ^ 63) by reflexivity. lia.
Qed.

(** [number a - number b] is the number [a - b]: no rounding occurs. *)
Lemma number_sub (a b : Z) :
  0 < b < a -> a < 2 ^ 53 -> (number a - number b)%float = number (a - b).
Proof.
  intros Hb Ha. apply Prim2SF_inj.
  rewrite FloatAxioms.sub_spec, !Prim2SF_number by lia.
  destruct a as [| a | a]; try lia. destruct b as [| b | b]; try lia.
  apply sub_whole; lia.
Qed.

Lemma integerPart_number (n : Z) : 0 <= n < 2 ^ 53 -> integerPart (number n) = n.
Proof.
  intro H. unfold integerPart. rewrite Prim2SF_number by exact H.
  destruct n as [| p | p]; [reflexivity | | lia].
  rewrite normalize_whole by lia. cbn [cond_Zopp].
  pose proof (digits_small (p := p) ltac:(lia)) as Hd.
  set (d := Zpos (digits2_pos p)) in *.
  rewrite value_padded, Z2Nat.id by lia.
  replace (d - 53) with (- (53 - d)) by lia.
  rewrite Z.shiftl_opp_r, Z.shiftr_div_pow2 by lia.
  apply Z.div_mul. apply Z.pow_nonzero; lia.
Qed.

(** A size between 0 and 2^31 - 1 is stored as it is. *)
Lemma reflected_number (default n : Z) :
  0 <= n <= 2147483647 -> reflected default (number n) = number n.
Proof.
  intro H. unfold reflected, toUnsignedLong.
  assert (2147483647 < 2 ^ 32) by reflexivity.
  assert (2 ^ 32 < 2 ^ 53) by reflexivity.
  rewrite integerPart_number by lia.
  rewrite Z.mod_small by lia.
  destruct (Z.leb_spec n 2147483647); [reflexivity | lia].
Qed.

(** The window's dimension less the margin, as computed and as stored. *)
Lemma margin_exact (default n : Z) :
  10 < n < 2 ^ 31 ->
  (number n - 10)%float = number (n - 10) /\
  reflected default (number n - 10) = number (n - 10).
Proof.
  intro H. assert (2 ^ 31 = 2147483648) as E31 by reflexivity.
  assert (2 ^ 31 < 2 ^ 53) as E53 by reflexivity.
  assert ((number n - 10)%float = number (n - 10)) as E
    by (change 10%float with (number 10); apply number_sub; lia).
  split; [exact E |]. rewrite E. apply reflected_number. lia.
Qed.
End Exactness.

Section CanvasSize.
Context {M : Type} {PM : PongerModel M}.

(** C10, as amended.  After any call of [resizeCanvas] with a window
    larger than 10 pixels in each dimension, the dimension of the canvas
    that the test [innerWidth < innerHeight * fieldRatio] selects equals
    the window's less 10, exactly.  The other dimension is what the canvas
    element keeps of the binary64 quotient [canvas.width / fieldRatio],
    respectively product [canvas.height * fieldRatio]: its integer part.
    The aspect ratio is thus kept up to rounding and to the truncation to
    whole pixels, and nothing bounds the other dimension by the window's
    less 10. *)
Theorem canvas_takes_window_less_margin (w : World M) :
  let iw := innerWidth (browser w) in
  let ih := innerHeight (browser w) in
  let r := (abstractWidth (model w) / abstractHeight (model w))%float in
  let c := canvas (this (exec resizeCanvas w)) in
  (10 < iw < 2 ^ 31)%Z -> (10 < ih < 2 ^ 31)%Z ->
  if (number iw <? number ih * r)%float
  then Resize.width c = number (iw - 10) /\
       Resize.height c = reflected 150 (Resize.width c / r)
  else Resize.height c = number (ih - 10) /\
       Resize.width c = reflected 300 (Resize.height c * r).
Proof.
  intros iw ih r c Hw Hh. subst c.
  change (canvas (this (exec resizeCanvas w)))
    with (Resize.resizeCanvas iw ih (abstractWidth (model w))
            (abstractHeight (model w))).
  unfold Resize.resizeCanvas, Resize.assigned. fold r.
  destruct (number iw <? number ih * r)%float;
    cbn [Resize.stored Resize.width Resize.height].
  - destruct (margin_exact 300 Hw) as [E1 E2]. rewrite E2, E1.
    split; reflexivity.
  - destruct (margin_exact 150 Hh) as [E1 E2]. rewrite E2, E1.
    split; reflexivity.
Qed.
End CanvasSize.

(** C10 as stated fails: in a window of 195 by 100 a field of 200 by 100
    gets a canvas of 185 by 92.  The ratio 185 / 92 is not 200 / 100, and
    the height exceeds the window's less 10. *)
Lemma canvas_exceeds_margin :
  let c := Resize.resizeCanvas 195 100 200 100 in
  (10 < 195)%Z /\ (10 < 100)%Z /\
  Resize.width c = 185%float /\ Resize.height c = 92%float /\
  (Resize.width c / Resize.height c =? 200 / 100)%float = false /\
  (Resize.height c <=? number (100 - 10))%float = false.
Proof. vm_compute. repeat split. Qed.

(** ** The claims at work *)

Lemma frame_calls_witness :
  wellFormed Toy.menuPage Toy.newcomer Toy.offlineRun = true /\
  calls (trace (dispatch AnimationFrame)
           (reached Toy.menuPage Toy.newcomer Toy.offlineRun)) =
    (if playing (this (reached Toy.menuPage Toy.newcomer Toy.offlineRun))
     then frameCalls (reached Toy.menuPage Toy.newcomer Toy.offlineRun)
     else []).
Proof.
  split; [reflexivity |].
  apply (frame_calls Toy.menuPage Toy.newcomer Toy.offlineRun). reflexivity.
Defined.

Lemma open_room_publishes_witness :
  wellFormed Toy.menuPage Toy.red Toy.hostRun = true /\
  phaseOf (history Toy.menuPage Toy.red Toy.hostRun) = Session false /\
  exec (dispatch (Notify open_room))
       (reached Toy.menuPage Toy.red Toy.hostRun) =
    withBrowser
      (set_hash (roomId (model (reached Toy.menuPage Toy.red Toy.hostRun))))
      (reached Toy.menuPage Toy.red Toy.hostRun) /\
  hash (browser (reached Toy.menuPage Toy.red Toy.hostRun)) = ""%string /\
  hash (browser (exec (dispatch (Notify open_room))
                   (reached Toy.menuPage Toy.red Toy.hostRun))) = "red"%string.
Proof.
  assert (wellFormed Toy.menuPage Toy.red Toy.hostRun = true) as Hwf
    by (vm_compute; reflexivity).
  assert (phaseOf (history Toy.menuPage Toy.red Toy.hostRun) = Session false)
    as Hph by (vm_compute; reflexivity).
  pose proof (@open_room_publishes _ _ Toy.menuPage Toy.red Toy.hostRun false
                Hwf Hph) as H.
  split; [exact Hwf |]. split; [exact Hph |]. split; [exact H |].
  split; [vm_compute; reflexivity |].
  rewrite H. vm_compute. reflexivity.
Defined.

Lemma space_toggles_offline_witness :
  wellFormed Toy.menuPage Toy.newcomer Toy.offlineRun = true /\
  phaseOf (history Toy.menuPage Toy.newcomer Toy.offlineRun) = Session true /\
  offline (model (reached Toy.menuPage Toy.newcomer Toy.offlineRun)) = true /\
  playing (this (exec (dispatch (KeyPress 32))
                   (reached Toy.menuPage Toy.newcomer Toy.offlineRun))) = false /\
  playing (this (exec (dispatch Blur)
                   (reached Toy.menuPage Toy.newcomer Toy.offlineRun))) = false.
Proof.
  pose proof (@space_toggles_offline _ _ Toy.menuPage Toy.newcomer Toy.offlineRun
                true eq_refl eq_refl) as [Hspace Hblur].
  split; [reflexivity |]. split; [reflexivity |]. split; [reflexivity |].
  split.
  - rewrite (proj1 (Hspace eq_refl)). reflexivity.
  - rewrite (proj1 (Hblur eq_refl)). reflexivity.
Defined.

Lemma space_signals_ready_witness :
  wellFormed Toy.guestPage Toy.newcomer Toy.readyRun = true /\
  phaseOf (history Toy.guestPage Toy.newcomer Toy.readyRun) = Session false /\
  calls (trace (dispatch (KeyPress 32))
           (reached Toy.guestPage Toy.newcomer Toy.readyRun)) = [CPlayerStarted] /\
  calls (trace (dispatch (KeyPress 32))
           (reached Toy.guestPage Toy.newcomer [AnimationFrame])) = [].
Proof.
  assert (wellFormed Toy.guestPage Toy.newcomer Toy.readyRun = true) as Hwf
    by (vm_compute; reflexivity).
  assert (phaseOf (history Toy.guestPage Toy.newcomer Toy.readyRun) =
            Session false) as Hph by (vm_compute; reflexivity).
  split; [exact Hwf |]. split; [exact Hph |]. split.
  - apply (proj1 (@space_signals_ready _ _ Toy.guestPage Toy.newcomer
                    Toy.readyRun Hwf) false Hph).
    + vm_compute. reflexivity.
    + vm_compute. discriminate.
  - assert (wellFormed Toy.guestPage Toy.newcomer [AnimationFrame] = true) as Hwf'
      by (vm_compute; reflexivity).
    apply (proj2 (@space_signals_ready _ _ Toy.guestPage Toy.newcomer
                    [AnimationFrame] Hwf')); vm_compute; discriminate.
Defined.

Lemma init_joins_iff_fragment_witness :
  page_hash Toy.guestPage = String "#" "abc123" /\
  calls (trace init (constructor Toy.guestPage Toy.newcomer)) =
    [CInit None None; CInit (Some "online"%string) (Some "abc123"%string)] /\
  substr 1 (page_hash Toy.guestPage) = "abc123"%string.
Proof.
  pose proof (init_joins_iff_fragment Toy.guestPage Toy.newcomer)
    as (_ & Hrun & Hfrag).
  split; [reflexivity |]. split.
  - exact (proj1 Hrun).
  - apply Hfrag. reflexivity.
Defined.

Lemma disconnected_pauses_witness :
  wellFormed Toy.guestPage Toy.newcomer Toy.onlineRun = true /\
  phaseOf (history Toy.guestPage Toy.newcomer Toy.onlineRun) = Session false /\
  playing (this (exec (dispatch (Notify playing_online))
                   (reached Toy.guestPage Toy.newcomer Toy.onlineRun))) = true /\
  (let w := exec (dispatch (Notify disconnected))
              (reached Toy.guestPage Toy.newcomer Toy.onlineRun) in
   admissible Toy.afterwards w = true /\
   existsb isPlayingOnline Toy.afterwards = false /\
   noOfflineStart Toy.afterwards w = true /\
   playing (this w) = false /\
   playing (this (exec (run Toy.afterwards) w)) = false /\
   existsb isUpdate (calls (trace (run Toy.afterwards) w)) = false).
Proof.
  assert (wellFormed Toy.guestPage Toy.newcomer Toy.onlineRun = true) as Hwf
    by (vm_compute; reflexivity).
  assert (phaseOf (history Toy.guestPage Toy.newcomer Toy.onlineRun) =
            Session false) as Hph by (vm_compute; reflexivity).
  pose proof (@disconnected_pauses _ _ Toy.guestPage Toy.newcomer Toy.onlineRun
                Hwf) as (Hp & Hstay & Hresume).
  split; [exact Hwf |]. split; [exact Hph |].
  split; [exact (proj1 (Hresume false Hph)) |].
  cbv zeta.
  assert (admissible Toy.afterwards
            (exec (dispatch (Notify disconnected))
               (reached Toy.guestPage Toy.newcomer Toy.onlineRun)) = true) as Ha
    by (vm_compute; reflexivity).
  assert (noOfflineStart Toy.afterwards
            (exec (dispatch (Notify disconnected))
               (reached Toy.guestPage Toy.newcomer Toy.onlineRun)) = true) as Hn
    by (vm_compute; reflexivity).
  split; [exact Ha |]. split; [reflexivity |].
  split; [exact Hn |]. split; [exact Hp |].
  apply Hstay; [exact Ha | reflexivity | exact Hn].
Defined.

Lemma model_changed_by_calls_only_witness :
  existsb isPeer Toy.announcedRun = false /\
  model (reached Toy.menuPage Toy.red Toy.announcedRun) =
    replay (calls (history Toy.menuPage Toy.red Toy.announcedRun)) Toy.red /\
  forallb (forwarding (KeyDown 38))
    (calls (trace (dispatch (KeyDown 38))
              (reached Toy.menuPage Toy.red Toy.announcedRun))) = true.
Proof.
  pose proof (@model_changed_by_calls_only _ _ Toy.menuPage Toy.red
                Toy.announcedRun eq_refl) as [Hm Hf].
  split; [reflexivity |]. split; [exact Hm |].
  apply Hf; reflexivity.
Defined.

Lemma listed_fields_settle_view_witness :
  listedReads (history Toy.menuPage Toy.red Toy.announcedRun) =
    listedReads (history Toy.menuPage Toy.blue Toy.announcedRun) /\
  rendering (history Toy.menuPage Toy.red Toy.announcedRun) =
    rendering (history Toy.menuPage Toy.blue Toy.announcedRun) /\
  calls (history Toy.menuPage Toy.red Toy.announcedRun) =
    calls (history Toy.menuPage Toy.blue Toy.announcedRun).
Proof.
  assert (listedReads (history Toy.menuPage Toy.red Toy.announcedRun) =
            listedReads (history Toy.menuPage Toy.blue Toy.announcedRun)) as H
    by (vm_compute; reflexivity).
  split; [exact H |].
  exact (proj2 (listed_fields_settle_view Toy.menuPage Toy.red Toy.blue
                  Toy.announcedRun) H).
Defined.

Lemma collision_plays_sound_witness :
  wellFormed Toy.menuPage Toy.newcomer Toy.offlineRun = true /\
  phaseOf (history Toy.menuPage Toy.newcomer Toy.offlineRun) = Session true /\
  trace (dispatch (Notify collision))
    (reached Toy.menuPage Toy.newcomer Toy.offlineRun) = [Play "./sound.wav"] /\
  playbacks (trace (dispatch AnimationFrame)
               (reached Toy.menuPage Toy.newcomer Toy.offlineRun)) = [].
Proof.
  pose proof (@collision_plays_sound _ _ Toy.menuPage Toy.newcomer Toy.offlineRun
                eq_refl) as [Hplay Hsilent].
  split; [reflexivity |]. split; [reflexivity |]. split.
  - exact (proj1 (Hplay true eq_refl)).
  - apply Hsilent. reflexivity.
Defined.

Lemma canvas_takes_window_less_margin_witness :
  (10 < innerWidth (browser (constructor Toy.menuPage Toy.newcomer)) < 2 ^ 31)%Z /\
  (10 < innerHeight (browser (constructor Toy.menuPage Toy.newcomer)) < 2 ^ 31)%Z /\
  (let w := constructor Toy.menuPage Toy.newcomer in
   let iw := innerWidth (browser w) in
   let ih := innerHeight (browser w) in
   let r := (abstractWidth (model w) / abstractHeight (model w))%float in
   let c := canvas (this (exec resizeCanvas w)) in
   if (number iw <? number ih * r)%float
   then Resize.width c = number (iw - 10) /\
        Resize.height c = reflected 150 (Resize.width c / r)
   else Resize.height c = number (ih - 10) /\
        Resize.width c = reflected 300 (Resize.height c * r)) /\
  Resize.width (canvas (this (exec resizeCanvas
                                (constructor Toy.menuPage Toy.newcomer)))) =
    790%float /\
  Resize.height (canvas (this (exec resizeCanvas
                                 (constructor Toy.menuPage Toy.newcomer)))) =
    474%float.
Proof.
  assert (10 < innerWidth (browser (constructor Toy.menuPage Toy.newcomer))
          < 2 ^ 31)%Z as Hw by (vm_compute; split; reflexivity).
  assert (10 < innerHeight (browser (constructor Toy.menuPage Toy.newcomer))
          < 2 ^ 31)%Z as Hh by (vm_compute; split; reflexivity).
  split; [exact Hw |]. split; [exact Hh |]. split.
  - exact (@canvas_takes_window_less_margin _ _
             (constructor Toy.menuPage Toy.newcomer) Hw Hh).
  - split; vm_compute; reflexivity.
Defined.

(** C7 as stated fails: the listener of [open_room] reads [model.roomId].
    Two models that agree on the eight listed fields, on one page and with
    the same events, make the same listed reads and leave different URL
    fragments. *)
Lemma roomId_is_read :
  (state Toy.red = state Toy.blue /\ states Toy.red = states Toy.blue /\
   ball Toy.red = ball Toy.blue /\ leftBat Toy.red = leftBat Toy.blue /\
   rightBat Toy.red = rightBat Toy.blue /\ points Toy.red = points Toy.blue /\
   abstractWidth Toy.red = abstractWidth Toy.blue /\
   abstractHeight Toy.red = abstractHeight Toy.blue) /\
  listedReads (history Toy.menuPage Toy.red Toy.announcedRun) =
    listedReads (history Toy.menuPage Toy.blue Toy.announcedRun) /\
  In F_roomId (fieldsRead (history Toy.menuPage Toy.red Toy.announcedRun)) /\
  listed F_roomId = false /\
  hash (browser (reached Toy.menuPage Toy.red Toy.announcedRun)) = "red"%string /\
  hash (browser (reached Toy.menuPage Toy.blue Toy.announcedRun)) = "blue"%string.
Proof.
  split; [repeat split; reflexivity |].
  split; [vm_compute; reflexivity |].
  split; [vm_compute; tauto |].
  repeat split; vm_compute; reflexivity.
Qed.

(** ** What the events leave alone *)

Section Steadiness.
Context {M : Type} {PM : PongerModel M}.
Variable R : World M -> World M -> Prop.
Hypothesis R_refl : forall w, R w w.
Hypothesis R_trans : forall a b c, R a b -> R b c -> R a c.

Lemma steady_ret {A} (a : A) : steady R (ret a).
Proof. intro w. apply R_refl. Qed.

Lemma steady_gets {A} (f : World M -> A) : steady R (gets f).
Proof. intro w. apply R_refl. Qed.

Lemma steady_emit (e : Effect) : steady R (emit e).
Proof. intro w. apply R_refl. Qed.

Lemma steady_modify (f : World M -> World M) :
  (forall w, R w (f w)) -> steady R (modify f).
Proof. intros H w. apply H. Qed.

Lemma steady_bind {A B} (c : V A) (k : A -> V B) :
  steady R c -> (forall a, steady R (k a)) -> steady R (bind c k).
Proof.
  intros Hc Hk w. rewrite exec_bind.
  apply R_trans with (b := exec c w); [apply Hc | apply Hk].
Qed.

Lemma steady_when (b : bool) (c : V unit) : steady R c -> steady R (when b c).
Proof. intro H. destruct b; [exact H | apply steady_ret]. Qed.

Lemma steady_forEach {A} (f : A -> V unit) (l : list A) :
  (forall a, steady R (f a)) -> steady R (forEach f l).
Proof.
  intro H. induction l as [| a l IH]; [apply steady_ret |].
  cbn [forEach]. apply steady_bind; auto.
Qed.

Lemma steady_times (n : nat) (c : V unit) : steady R c -> steady R (times n c).
Proof.
  intro H. induction n as [| n IH]; [apply steady_ret |].
  cbn [times]. apply steady_bind; auto.
Qed.

Lemma steady_wireButtons (bs : list string) (i : nat) :
  (forall j, steady R (focusButton j)) ->
  (forall l, steady R (addEventListener l)) ->
  steady R (wireButtons i bs).
Proof.
  intros Hf Ha. revert i.
  induction bs as [| b bs IH]; intro i; [apply steady_ret |].
  cbn [wireButtons].
  apply steady_bind; [apply steady_when; apply Hf | intros _].
  apply steady_bind; [apply Ha | intros _; apply IH].
Qed.

Lemma steady_run (bad : Event -> bool) (es : list Event) :
  (forall e, bad e = false -> steady R (dispatch e)) ->
  existsb bad es = false -> steady R (run es).
Proof.
  intro H. unfold run. induction es as [| e es IH]; intro Hb.
  - apply steady_ret.
  - cbn [existsb] in Hb. apply orb_false_elim in Hb as [He Hes].
    cbn [forEach]. apply steady_bind; [apply H; exact He | intros _; exact (IH Hes)].
Qed.
End Steadiness.

(** Decomposes a goal [steady R c] along the structure of [c]; what is left
    are the assignments, one goal [forall w, R w (f w)] each. *)
Ltac steadying Hrefl Htrans :=
  repeat lazymatch goal with
    | |- steady _ (bind _ _) => apply (steady_bind Htrans); [| intro]
    | |- steady _ (ret _) => apply (steady_ret Hrefl)
    | |- steady _ (gets _) => apply (steady_gets Hrefl)
    | |- steady _ (emit _) => apply (steady_emit Hrefl)
    | |- steady _ (modify _) => apply steady_modify
    | |- steady _ (when _ _) => apply (steady_when Hrefl)
    | |- steady _ (forEach _ _) => apply (steady_forEach Hrefl Htrans); intro
    | |- steady _ (times _ _) => apply (steady_times Hrefl Htrans)
    | |- steady _ (wireButtons _ _) =>
        apply (steady_wireButtons Hrefl Htrans); intro
    | |- steady _ (let _ := _ in _) => cbv zeta
    | |- steady _ (match ?x with _ => _ end) =>
        first [progress cbv beta iota | destruct x]
    | |- steady _ ?c => let h := head c in unfold h
    end.

(** Closes a goal [forall w, R w (f w)] for an assignment [f] that does not
    touch what [R] compares. *)
Ltac untouched :=
  intros [[? ? ? ? ?] [? ? ? ? ? ? ? ?] ?];
  hnf; cbn; auto.

Section Frames.
Context {M : Type} {PM : PongerModel M}.

Lemma sameHash_refl (w : World M) : sameHash w w.
Proof. reflexivity. Qed.

Lemma sameHash_trans (a b c : World M) : sameHash a b -> sameHash b c -> sameHash a c.
Proof. unfold sameHash. congruence. Qed.

Lemma samePlaying_refl (w : World M) : samePlaying w w.
Proof. reflexivity. Qed.

Lemma samePlaying_trans (a b c : World M) :
  samePlaying a b -> samePlaying b c -> samePlaying a c.
Proof. unfold samePlaying. congruence. Qed.

Lemma startedStays_refl (w : World M) : startedStays w w.
Proof. intro H. exact H. Qed.

Lemma startedStays_trans (a b c : World M) :
  startedStays a b -> startedStays b c -> startedStays a c.
Proof. unfold startedStays. auto. Qed.

Lemma dispatch_hash (e : Event) : isOpenRoom e = false -> steady sameHash (dispatch e).
Proof.
  intro H. destruct e as [a c | k | k | k | | n | i | | x];
    try (destruct n; try discriminate H);
    steadying sameHash_refl sameHash_trans; untouched.
Qed.

Lemma init_hash : steady sameHash init.
Proof. steadying sameHash_refl sameHash_trans; untouched. Qed.

Lemma dispatch_playing (e : Event) :
  setsPlaying e = false -> steady samePlaying (dispatch e).
Proof.
  intro H. destruct e as [a c | k | k | k | | n | i | | x];
    try (destruct n); try discriminate H;
    steadying samePlaying_refl samePlaying_trans; untouched.
Qed.

Lemma dispatch_startedStays (e : Event) : steady startedStays (dispatch e).
Proof.
  destruct e as [a c | k | k | k | | n | i | | x];
    steadying startedStays_refl startedStays_trans; untouched.
Qed.
End Frames.

(** ** Induction over well-formed runs *)

Section RunInduction.
Context {M : Type} {PM : PongerModel M}.
Variable J : Phase -> list Effect -> World M -> Prop.
Hypothesis J_step :
  forall ph t e w,
    Inv ph w -> deliverable w e = true -> J ph t w ->
    J (fold_left phaseStep (trace (dispatch e) w) ph)
      (t ++ trace (dispatch e) w) (exec (dispatch e) w).

Lemma run_invariant (es : list Event) (ph : Phase) (t : list Effect)
    (w : World M) :
  Inv ph w -> admissible es w = true -> J ph t w ->
  J (fold_left phaseStep (trace (run es) w) ph) (t ++ trace (run es) w)
    (exec (run es) w).
Proof.
  revert ph t w. induction es as [| e es IH]; intros ph t w H Ha HJ.
  - cbn. rewrite app_nil_r. exact HJ.
  - cbn [admissible] in Ha. apply andb_prop in Ha as [Hd Ha].
    unfold run in *. cbn [forEach].
    rewrite exec_bind, trace_bind, fold_left_app, app_assoc.
    apply IH; [apply step_Inv; assumption | exact Ha |].
    apply J_step; assumption.
Qed.

Lemma reached_invariant (p : Page) (m : M) (es : list Event) :
  J (phaseOf (trace init (constructor p m))) (trace init (constructor p m))
    (exec init (constructor p m)) ->
  wellFormed p m es = true ->
  J (phaseOf (history p m es)) (history p m es) (reached p m es).
Proof.
  intros H0 H. rewrite reached_eq, history_eq, phaseOf_app.
  apply run_invariant; [apply init_Inv | exact H | exact H0].
Qed.
End RunInduction.

Section Steps.
Context {M : Type} {PM : PongerModel M}.

Lemma calls_invoke (c : Call) (t : list Effect) :
  calls (Invoke c :: t) = c :: calls t.
Proof. reflexivity. Qed.

Lemma calls_read (f : Field) (v : Value) (t : list Effect) :
  calls (Read f v :: t) = calls t.
Proof. reflexivity. Qed.

Lemma clicked_menu (i : nat) (w : World M) (mn : Menu) :
  menu (browser w) = Some mn ->
  exists mn', menu (browser (clicked i w)) = Some mn' /\
              buttons mn' = buttons mn /\ hidden mn' = true.
Proof.
  intro H. destruct w as [v [iw ih hs m0 ls fr ck tk] m].
  cbn [browser menu] in H. subst m0. destruct mn as [hd bs fc].
  unfold clicked.
  cbn [exec menuHidden blurButton modify fst snd withBrowser set_menu
       option_map browser menu this model set_hidden focused buttons hidden].
  eexists. split; [reflexivity |].
  destruct fc as [j |]; [destruct (Nat.eqb i j) |]; split; reflexivity.
Qed.

Lemma clicked_rest (i : nat) (w : World M) :
  this (clicked i w) = this w /\ model (clicked i w) = model w /\
  listeners (browser (clicked i w)) = listeners (browser w) /\
  frameRequests (browser (clicked i w)) = frameRequests (browser w) /\
  clock (browser (clicked i w)) = clock (browser w) /\
  ticks (browser (clicked i w)) = ticks (browser w) /\
  hash (browser (clicked i w)) = hash (browser w) /\
  innerWidth (browser (clicked i w)) = innerWidth (browser w) /\
  innerHeight (browser (clicked i w)) = innerHeight (browser w).
Proof.
  destruct w as [v [iw ih hs m0 ls fr ck tk] m]. repeat split.
Qed.

(** The [click] listener hides the menu, blurs the button and calls
    [start] with the button's value. *)
Lemma onClick_run (i : nat) (w : World M) (mn : Menu) :
  menu (browser w) = Some mn ->
  exec (onClick i) w = exec (start (nth_error (buttons mn) i) None) (clicked i w) /\
  trace (onClick i) w = trace (start (nth_error (buttons mn) i) None) (clicked i w).
Proof.
  intro H. destruct (clicked_menu i w H) as (mn' & Hm & Hb & _).
  unfold onClick. rewrite !exec_bind, !trace_bind.
  fold (clicked i w).
  cbn [trace exec value menuHidden blurButton modify gets fst snd app].
  fold (clicked i w). rewrite Hm, Hb. split; reflexivity.
Qed.

(** Before a session opens a click on a button runs its listener, and no
    other. *)
Lemma idle_click (i : nat) (w : World M) (mn : Menu) :
  Inv Idle w -> menu (browser w) = Some mn -> i < List.length (buttons mn) ->
  exec (dispatch (Click i)) w = exec (onClick i) w /\
  trace (dispatch (Click i)) w = trace (onClick i) w.
Proof.
  intros (Hs & Hp & Hf & Hl) Hmn Hi.
  rewrite dispatch_exec, dispatch_trace by reflexivity.
  cbn [arrive]. rewrite Hl. cbn [forEach].
  rewrite exec_bind, trace_bind. cbn [listen exec trace value ret fst snd app].
  destruct (click_one i 0 (menuButtons w) w) as [E T]. rewrite E, T.
  unfold menuButtons. rewrite Hmn. cbn [Nat.leb andb plus].
  apply Nat.ltb_lt in Hi. rewrite Hi. split; reflexivity.
Qed.

Lemma resizeCanvas_run (w : World M) :
  exec resizeCanvas w = refitted w /\
  trace resizeCanvas w =
    [Read F_abstractWidth (VNum (abstractWidth (model w)));
     Read F_abstractHeight (VNum (abstractHeight (model w)))].
Proof. split; reflexivity. Qed.

(** A resize runs [resizeCanvas] once, before a session and during one. *)
Lemma resize_run (ph : Phase) (a c : Z) (w : World M) :
  Inv ph w ->
  exec (dispatch (Resize a c)) w = refitted (withBrowser (set_size a c) w) /\
  trace (dispatch (Resize a c)) w =
    [Read F_abstractWidth (VNum (abstractWidth (model w)));
     Read F_abstractHeight (VNum (abstractHeight (model w)))].
Proof.
  intro HI.
  destruct ph as [| | v | b];
    [| exact (False_ind _ (proj2 HI)) | exact (False_ind _ (proj2 HI)) |].
  - destruct (idle_dispatch (Resize a c) HI eq_refl) as [E T].
    rewrite E, T. split; reflexivity.
  - destruct (session_reaction (Resize a c) HI eq_refl eq_refl) as [E T].
    rewrite E, T. split; reflexivity.
Qed.
End Steps.

(** ** Opening a session *)

Section Opening.
Context {M : Type} {PM : PongerModel M}.

(** X1.  While the menu is up, a click on a button calls
    [model.init(value)] with that button's value and makes no other
    call; the menu is hidden, one frame is requested, the view stays
    paused and a session is open. *)
Theorem click_opens_session (p : Page) (m : M) (es : list Event) (i : nat)
    (mn : Menu) (md : string) :
  wellFormed p m es = true ->
  phaseOf (history p m es) = Idle ->
  menu (browser (reached p m es)) = Some mn ->
  nth_error (buttons mn) i = Some md ->
  let w := reached p m es in
  let w' := exec (dispatch (Click i)) w in
  calls (trace (dispatch (Click i)) w) = [CInit (Some md) None] /\
  model w' = model_init (Some md) None (model w) /\
  option_map hidden (menu (browser w')) = Some true /\
  frameRequests (browser w') = 1 /\
  playing (this w') = false /\
  phaseOf (history p m es ++ trace (dispatch (Click i)) w) =
    Session (offline (model w')).
Proof.
  intros Hwf Hph Hmn Hn w w'.
  pose proof (reached_Inv p m es Hwf) as HI. rewrite Hph in HI. fold w in HI, Hmn.
  assert (i < List.length (buttons mn)) as Hi
    by (apply nth_error_Some; congruence).
  destruct (idle_click HI Hmn Hi) as [E T].
  destruct (onClick_run i w Hmn) as [E1 T1]. rewrite Hn in E1, T1.
  destruct (start_run (Some md) None (clicked i w)) as [E2 T2].
  subst w'. rewrite phaseOf_app, Hph, T, T1, T2, E, E1, E2.
  remember (started_world (Some md) None (clicked i w)) as ws eqn:Hws.
  destruct (loop_keeps ws) as (Lt & Lf & Lh & Lm).
  destruct (clicked_rest i w) as (Ct & Cm & Cl & Cf & _).
  destruct (clicked_menu i w Hmn) as (mn' & Cmn & Cb & Ch).
  destruct HI as (Hs & Hp & Hf & Hl).
  assert (playing (this ws) = false) as Hpl
    by (rewrite Hws; cbn [started_world this set_prevTime playing];
        rewrite Ct; exact Hp).
  assert (model ws = model_init (Some md) None (model w)) as Hm
    by (rewrite Hws; cbn [started_world model]; rewrite Cm; reflexivity).
  rewrite Hpl in Lm. rewrite Lm, Hm.
  unfold fixture in Lf. injection Lf as F1 F2 F3 F4.
  repeat split.
  - cbn [calls pick callOf]. fold (calls (trace loop ws)).
    rewrite loop_calls, Hpl. reflexivity.
  - rewrite F4, Hws. cbn [started_world browser set_listeners set_ticks menu].
    rewrite Cmn. cbn [option_map]. rewrite Ch. reflexivity.
  - rewrite F3, Hws.
    cbn [started_world browser set_listeners set_ticks frameRequests].
    rewrite Cf, Hf. reflexivity.
  - rewrite Lt. cbn [set_prevTime playing]. exact Hpl.
  - cbn [fold_left phaseStep]. rewrite Cm. apply session_absorbs.
Qed.

(** X2.  During a session a key going down or up is forwarded to the
    model exactly once, with its code, and nothing else happens. *)
Theorem keys_forwarded_once (p : Page) (m : M) (es : list Event) (b : bool)
    (k : Z) :
  wellFormed p m es = true ->
  phaseOf (history p m es) = Session b ->
  let w := reached p m es in
  trace (dispatch (KeyDown k)) w = [Invoke (CKeyDown k)] /\
  exec (dispatch (KeyDown k)) w = withModel (keyDown k) w /\
  trace (dispatch (KeyUp k)) w = [Invoke (CKeyUp k)] /\
  exec (dispatch (KeyUp k)) w = withModel (keyUp k) w.
Proof.
  intros Hwf Hph w.
  pose proof (reached_Inv p m es Hwf) as HI. rewrite Hph in HI. fold w in HI.
  destruct (session_reaction (KeyDown k) HI eq_refl eq_refl) as [E1 T1].
  destruct (session_reaction (KeyUp k) HI eq_refl eq_refl) as [E2 T2].
  rewrite E1, T1, E2, T2. repeat split.
Qed.

(** X3.  Until a session opens, keys, loss of focus, the model's
    notifications and animation frames have no effect at all: the world
    is unchanged, nothing is read, called, painted or played. *)
Theorem idle_ignores (p : Page) (m : M) (es : list Event) (e : Event) :
  wellFormed p m es = true ->
  phaseOf (history p m es) = Idle ->
  forSession e = true ->
  exec (dispatch e) (reached p m es) = reached p m es /\
  trace (dispatch e) (reached p m es) = [].
Proof.
  intros Hwf Hph He.
  pose proof (reached_Inv p m es Hwf) as HI. rewrite Hph in HI.
  set (w := reached p m es) in *.
  assert (isClickEvent e = false) as Hc by (destruct e; try discriminate; reflexivity).
  destruct (idle_dispatch e HI Hc) as [E T]. rewrite E, T.
  destruct HI as (_ & _ & Hf & _).
  destruct e as [a c | k | k | k | | n | i | | x]; try discriminate;
    split; try reflexivity.
  destruct w as [v [iw ih hs m0 ls fr ck tk] m1]. cbn in Hf. subst fr.
  reflexivity.
Qed.

(** X4.  In a session that was not opened offline the window losing
    focus does not pause the game: [blur] has no listener. *)
Theorem blur_ignored_online (p : Page) (m : M) (es : list Event) :
  wellFormed p m es = true ->
  phaseOf (history p m es) = Session false ->
  exec (dispatch Blur) (reached p m es) = reached p m es /\
  trace (dispatch Blur) (reached p m es) = [].
Proof.
  intros Hwf Hph.
  pose proof (reached_Inv p m es Hwf) as HI. rewrite Hph in HI.
  destruct (session_reaction Blur HI eq_refl eq_refl) as [E T].
  rewrite E, T. split; reflexivity.
Qed.

(** X5.  Whenever the window is resized the canvas is refitted, once: it
    holds what the canvas element keeps of the numbers [resizeCanvas]
    assigns for the new inner size and the model's abstract dimensions;
    the model is read but not called, and nothing is painted. *)
Theorem resize_refits (p : Page) (m : M) (es : list Event) (a c : Z) :
  wellFormed p m es = true ->
  let w := reached p m es in
  exec (dispatch (Resize a c)) w =
    withThis (set_canvas (Resize.resizeCanvas a c (abstractWidth (model w))
                            (abstractHeight (model w))))
      (withBrowser (set_size a c) w) /\
  trace (dispatch (Resize a c)) w =
    [Read F_abstractWidth (VNum (abstractWidth (model w)));
     Read F_abstractHeight (VNum (abstractHeight (model w)))].
Proof.
  intros Hwf w.
  destruct (resize_run a c (reached_Inv p m es Hwf)) as [E T].
  fold w in E, T. rewrite E, T. split; reflexivity.
Qed.
End Opening.

(** ** What start and the listeners do in any world *)

Section AnyWorld.
Context {M : Type} {PM : PongerModel M}.

Lemma forEach_inert {A} (f : A -> V unit) (l : list A) (w : World M) :
  (forall a, exec (f a) w = w /\ trace (f a) w = []) ->
  exec (forEach f l) w = w /\ trace (forEach f l) w = [].
Proof.
  intro H. induction l as [| a l [E T]]; [split; reflexivity |].
  cbn [forEach]. rewrite exec_bind, trace_bind.
  destruct (H a) as [Ea Ta]. rewrite Ea, Ta, E, T. split; reflexivity.
Qed.

Lemma keyDown_calls (k : Z) (ls : list Listener) (w : World M) :
  calls (trace (forEach (listen (KeyDown k)) ls) w) =
    repeat (CKeyDown k) (List.length (filter isOnKeyDown ls)).
Proof.
  revert w. induction ls as [| l ls IH]; intro w; [reflexivity |].
  cbn [forEach]. rewrite trace_bind, calls_app, IH.
  destruct l; reflexivity.
Qed.

(** X6.  [start] does not guard against a second run: whatever the world,
    each run registers the key listeners once more, so that a key going
    down is forwarded to the model one more time than before, and
    requests one more frame. *)
Theorem start_stacks (mode roomHash : option string) (k : Z) (w : World M) :
  let w' := exec (start mode roomHash) w in
  calls (trace (dispatch (KeyDown k)) w) =
    repeat (CKeyDown k) (keyDownListeners w) /\
  keyDownListeners w' = S (keyDownListeners w) /\
  frameRequests (browser w') = S (frameRequests (browser w)).
Proof.
  cbv zeta. destruct (start_run mode roomHash w) as [E _]. rewrite E.
  remember (started_world mode roomHash w) as ws eqn:Hws.
  destruct (loop_keeps ws) as (_ & F & _).
  unfold fixture in F. injection F as _ F2 F3 _.
  unfold keyDownListeners. rewrite F2, F3, Hws.
  cbn [started_world browser set_listeners set_ticks listeners frameRequests].
  split; [| split; [| reflexivity]].
  - rewrite dispatch_trace by reflexivity. apply keyDown_calls.
  - rewrite filter_app, length_app.
    destruct (offline (model_init mode roomHash (model w))); cbn; lia.
Qed.

(** X7.  A key other than the space bar is ignored on [keypress],
    whatever the world and however many listeners are registered. *)
Theorem other_keys_ignored (k : Z) (w : World M) :
  k <> 32%Z ->
  exec (dispatch (KeyPress k)) w = w /\ trace (dispatch (KeyPress k)) w = [].
Proof.
  intro Hk. rewrite dispatch_exec, dispatch_trace by reflexivity.
  cbn [arrive]. apply forEach_inert. intro l.
  destruct l; try (split; reflexivity).
  cbn [listen]. unfold onKeyPress.
  apply Z.eqb_neq in Hk. rewrite Hk. split; reflexivity.
Qed.

(** X8.  [window.location.hash] is written by the [open_room] listener
    only: the script and any events among which there is no [open_room]
    leave it as it was.  This holds in every world. *)
Theorem hash_written_on_open_room_only (es : list Event) (w : World M) :
  existsb isOpenRoom es = false ->
  hash (browser (exec (session es) w)) = hash (browser w).
Proof.
  intro H. unfold session. rewrite exec_bind.
  transitivity (hash (browser (exec init w))).
  - apply (steady_run sameHash_refl sameHash_trans isOpenRoom es);
      [exact dispatch_hash | exact H].
  - apply init_hash.
Qed.

(** X9.  [this.playing] changes on a press of a key, on [blur] and on the
    notifications [playing_online] and [disconnected] only: frames, keys
    going down or up, clicks, resizes, [open_room], [collision] and the
    peer leave it as it is, in every world. *)
Theorem playing_set_by_few (es : list Event) (w : World M) :
  existsb setsPlaying es = false ->
  playing (this (exec (run es) w)) = playing (this w).
Proof.
  intro H.
  apply (steady_run samePlaying_refl samePlaying_trans setsPlaying es);
    [exact dispatch_playing | exact H].
Qed.

Lemma run_startedStays (es : list Event) : steady startedStays (run es).
Proof.
  apply (steady_run startedStays_refl startedStays_trans (fun _ => false) es).
  - intros e _. apply dispatch_startedStays.
  - induction es; [reflexivity | assumption].
Qed.

Lemma getInfoText_started (w : World M) :
  started (this w) = true -> value getInfoText w <> startPrompt.
Proof.
  intro H. unfold value, getInfoText.
  cbv beta iota delta [bind readState readStates gets emit ret fst snd app].
  repeat match goal with
         | |- context [sameState ?a ?b] =>
             destruct (sameState a b); [vm_compute; discriminate |]
         end.
  rewrite H. vm_compute. discriminate.
Qed.

(** X10.  [this.started] is never reset, and once it is set the pause
    message never again invites to start: whatever events follow,
    [getInfoText] does not return the start prompt. *)
Theorem start_prompt_only_before_start (es : list Event) (w : World M) :
  started (this w) = true ->
  started (this (exec (run es) w)) = true /\
  value getInfoText (exec (run es) w) <> startPrompt.
Proof.
  intro H. pose proof (run_startedStays es w H) as H'.
  split; [exact H' | apply getInfoText_started; exact H'].
Qed.
End AnyWorld.

(** ** The shape of a run *)

(** Decomposes a goal [emits Q c] along the structure of [c]. *)
Ltac effects :=
  repeat lazymatch goal with
    | |- emits _ (bind _ _) => apply emits_bind; [| intro]
    | |- emits _ (ret _) => apply emits_ret
    | |- emits _ (gets _) => apply emits_gets
    | |- emits _ (modify _) => apply emits_modify
    | |- emits _ (emit _) => apply emits_emit; reflexivity
    | |- emits _ (when _ _) => apply emits_when
    | |- emits _ (forEach _ _) => apply emits_forEach; intro
    | |- emits _ (times _ _) => apply emits_times
    | |- emits _ (let _ := _ in _) => cbv zeta
    | |- emits _ (match ?x with _ => _ end) =>
        first [progress cbv beta iota | destruct x]
    | |- emits _ ?c => let h := head c in unfold h
    end.

Section Shape.
Context {M : Type} {PM : PongerModel M}.

Lemma loop_noInit : emits noInit loop.
Proof. effects. Qed.

Lemma dispatch_noInit (e : Event) :
  isClickEvent e = false -> emits noInit (dispatch e).
Proof.
  intro H. destruct e as [a c | k | k | k | | n | i | | x]; try discriminate H;
    effects.
Qed.

Lemma noInit_calls (t : list Effect) :
  forallb noInit t = true -> existsb isInit (calls t) = false.
Proof.
  induction t as [| x t IH]; [reflexivity |].
  cbn [forallb]. intro H. apply andb_prop in H as [Hx Ht].
  destruct x; cbn [calls pick callOf existsb]; auto.
  cbn [noInit] in Hx. apply negb_true_iff in Hx. rewrite Hx. exact (IH Ht).
Qed.

Lemma noInit_phase (t : list Effect) :
  forallb noInit t = true -> fold_left phaseStep t Idle = Idle.
Proof.
  induction t as [| x t IH]; [reflexivity |].
  cbn [forallb]. intro H. apply andb_prop in H as [Hx Ht].
  cbn [fold_left]. destruct x as [f v | c | d | s]; try exact (IH Ht).
  destruct c as [[md |] h | | | | | | |]; try exact (IH Ht). discriminate.
Qed.

Lemma session_no_click (b : bool) (e : Event) (w : World M) :
  Inv (Session b) w -> deliverable w e = true -> isClickEvent e = false.
Proof.
  intros (_ & _ & Hm & _) Hd. destruct e; try reflexivity.
  unfold menuDisplayed in Hm. cbn [deliverable] in Hd.
  destruct (menu (browser w)); [| discriminate].
  apply andb_prop in Hd as [Hh _]. congruence.
Qed.

(** What a click on a button does before a session opens. *)
Lemma idle_click_run (i : nat) (w : World M) :
  Inv Idle w -> deliverable w (Click i) = true ->
  exists md,
    let ws := started_world (Some md) None (clicked i w) in
    exec (dispatch (Click i)) w = exec loop ws /\
    trace (dispatch (Click i)) w =
      Invoke (CInit (Some md) None)
        :: Read F_state (VState (state (model ws)))
        :: Read F_states (VStates (states (model ws)))
        :: trace redraw
             (withBrowser (fun b => set_frameRequests (S (frameRequests b)) b) ws) /\
    playing (this ws) = false.
Proof.
  intros HI Hd. cbn [deliverable] in Hd.
  destruct (menu (browser w)) as [mn |] eqn:Hmn; [| discriminate].
  apply andb_prop in Hd as [_ Hi]. apply Nat.ltb_lt in Hi.
  destruct (nth_error (buttons mn) i) as [md |] eqn:Hn;
    [| apply nth_error_None in Hn; lia].
  exists md. cbv zeta.
  destruct (idle_click HI Hmn Hi) as [E T].
  destruct (onClick_run i w Hmn) as [E1 T1]. rewrite Hn in E1, T1.
  destruct (start_run (Some md) None (clicked i w)) as [E2 T2].
  rewrite E, T, E1, T1, E2, T2.
  destruct (clicked_rest i w) as (Ct & _).
  destruct HI as (_ & Hp & _).
  assert (playing (this (started_world (Some md) None (clicked i w))) = false)
    as Hpl by (cbn [started_world this set_prevTime playing]; rewrite Ct; exact Hp).
  rewrite loop_trace. cbv zeta. rewrite Hpl. cbn [app].
  repeat split.
Qed.

Lemma redraw_calls (w : World M) : calls (trace redraw w) = [].
Proof. apply passive_calls. apply observes_redraw. Qed.

Lemma redraw_playbacks (w : World M) : playbacks (trace redraw w) = [].
Proof. apply passive_playbacks. apply observes_redraw. Qed.

Lemma shaped_step (ph : Phase) (t : list Effect) (e : Event) (w : World M) :
  Inv ph w -> deliverable w e = true -> shaped ph t ->
  shaped (fold_left phaseStep (trace (dispatch e) w) ph)
    (t ++ trace (dispatch e) w).
Proof.
  intros HI Hd [Hp Hq]. unfold shaped.
  rewrite calls_app, rendering_app, playbacks_app.
  destruct ph as [| | v | b];
    [| exact (False_ind _ (proj2 HI)) | exact (False_ind _ (proj2 HI)) |].
  - destruct (Hq eq_refl) as [Hr Hs]. cbn [protocol] in Hp.
    destruct (isClickEvent e) eqn:Hc.
    + destruct e; try discriminate.
      destruct (@idle_click_run i w HI Hd) as (md & _ & T & _). rewrite T.
      cbn [fold_left phaseStep]. rewrite session_absorbs. split.
      * cbn [protocol calls pick callOf]. fold (calls (trace redraw
          (withBrowser (fun b => set_frameRequests (S (frameRequests b)) b)
             (started_world (Some md) None (clicked i w))))).
        rewrite redraw_calls, Hp. exists md, None, []. split; reflexivity.
      * discriminate.
    + destruct (idle_dispatch e HI Hc) as [_ T].
      rewrite (@noInit_phase _ (dispatch_noInit e Hc w)). rewrite T, Hp, Hr, Hs.
      destruct e; split; try reflexivity; intros _; split; reflexivity.
  - pose proof (session_no_click e HI Hd) as Hc.
    rewrite session_absorbs. split; [| discriminate].
    cbn [protocol] in *. destruct Hp as (mode & h & rest & Hcs & Hrest).
    exists mode, h, (rest ++ calls (trace (dispatch e) w)).
    rewrite Hcs. split; [reflexivity |].
    rewrite existsb_app, Hrest. apply noInit_calls. apply dispatch_noInit.
    exact Hc.
Qed.

Lemma shaped_init (p : Page) (m : M) :
  shaped (phaseOf (trace init (constructor p m))) (trace init (constructor p m)).
Proof.
  pose proof (init_run p m) as H. cbv zeta in H.
  destruct (joining p).
  - destruct H as [_ T]. rewrite T.
    match goal with
    | |- context [trace (start ?a ?b) ?x] =>
        destruct (start_run a b x) as [_ T']; rewrite T'
    end.
    unfold phaseOf. cbn [fold_left phaseStep]. rewrite session_absorbs.
    split; [| discriminate].
    cbn [protocol calls pick callOf].
    eexists _, _, _. split; [reflexivity |].
    apply noInit_calls. apply loop_noInit.
  - destruct H as [_ T]. rewrite T. split; [reflexivity |].
    intros _. split; reflexivity.
Qed.

Lemma history_shaped (p : Page) (m : M) (es : list Event) :
  wellFormed p m es = true ->
  shaped (phaseOf (history p m es)) (history p m es).
Proof.
  apply (@reached_invariant _ _ (fun ph t _ => shaped ph t)).
  - intros ph t e w. apply shaped_step.
  - apply shaped_init.
Qed.

(** X11.  The calls into the model follow a fixed protocol: the first is
    [init()]; when a session opens the second is [init] with a mode, and
    [init] is never called again, so that a session is opened at most
    once per page. *)
Theorem call_protocol (p : Page) (m : M) (es : list Event) :
  wellFormed p m es = true ->
  protocol (phaseOf (history p m es)) (calls (history p m es)).
Proof. intro H. apply (history_shaped p m es H). Qed.

(** X12.  Until a session opens the view paints nothing and plays
    nothing: the canvas stays as the page delivered it. *)
Theorem idle_paints_nothing (p : Page) (m : M) (es : list Event) :
  wellFormed p m es = true ->
  phaseOf (history p m es) = Idle ->
  rendering (history p m es) = [] /\ playbacks (history p m es) = [].
Proof. intros H Hph. apply (history_shaped p m es H). exact Hph. Qed.
End Shape.

(** ** Keeping time *)

Section Time.
Context {M : Type} {PM : PongerModel M}.

Lemma sameTime_refl (w : World M) : sameTime w w.
Proof. repeat split. Qed.

Lemma sameTime_trans (a b c : World M) : sameTime a b -> sameTime b c -> sameTime a c.
Proof. unfold sameTime. intros (A1 & A2 & A3) (B1 & B2 & B3). repeat split; congruence. Qed.

Lemma dispatch_sameTime (e : Event) :
  isClickEvent e = false -> isFrame e = false -> steady sameTime (dispatch e).
Proof.
  intros Hc Hf. destruct e as [a c | k | k | k | | n | i | | x];
    try discriminate;
    steadying sameTime_refl sameTime_trans;
    intros [[? ? ? ? ?] [? ? ? ? ? ? ? ?] ?]; repeat split.
Qed.

(** [loop] ends by reading the clock into [prevTime]. *)
Lemma loop_timely (w : World M) :
  clock (browser (exec loop w)) = clock (browser w) /\ timely (exec loop w).
Proof.
  rewrite loop_exec. cbv zeta. unfold timely.
  destruct (playing (this w)).
  - destruct (advance_run
                (withBrowser (fun b => set_frameRequests (S (frameRequests b)) b) w))
      as [E _].
    rewrite E. destruct w as [v [iw ih hs mn ls fr ck tk] m].
    cbn [withThis withBrowser withModel this browser model set_prevTime set_ticks
         set_frameRequests prevTime ticks clock].
    repeat split; first [lia | f_equal; lia].
  - destruct w as [v [iw ih hs mn ls fr ck tk] m].
    cbn [withThis withBrowser withModel this browser model set_prevTime set_ticks
         set_frameRequests prevTime ticks clock].
    repeat split; first [lia | f_equal; lia].
Qed.

Lemma frameCalls_gaps (w : World M) (c : Call) (dt : Z) :
  timely w -> In c (frameCalls w) -> stepOf c = Some dt ->
  isGap (clock (browser w)) dt.
Proof.
  intros [H1 H2] Hin Hs.
  assert (dt = (clock (browser w) (ticks (browser w)) - prevTime (this w))%Z)
    as ->.
  { unfold frameCalls in Hin.
    destruct (offline _); cbn [In] in Hin;
      repeat (destruct Hin as [<- | Hin]; [cbn in Hs; congruence |]);
      contradiction. }
  exists (ticks (browser w) - 1). rewrite H2.
  replace (S (ticks (browser w) - 1)) with (ticks (browser w)) by lia.
  reflexivity.
Qed.

Lemma forwarding_step (e : Event) (c : Call) :
  forwarding e c = true -> stepOf c = None.
Proof. destruct e, c; try discriminate; reflexivity. Qed.

Lemma paced_step (p : Page) (ph : Phase) (t : list Effect) (e : Event)
    (w : World M) :
  Inv ph w -> deliverable w e = true -> paced p ph t w ->
  paced p (fold_left phaseStep (trace (dispatch e) w) ph)
    (t ++ trace (dispatch e) w) (exec (dispatch e) w).
Proof.
  intros HI Hd (Hk & Ht & Hg). unfold paced. rewrite calls_app.
  destruct ph as [| | v | b];
    [| exact (False_ind _ (proj2 HI)) | exact (False_ind _ (proj2 HI)) |].
  - destruct (isClickEvent e) eqn:Hc.
    + destruct e; try discriminate.
      destruct (@idle_click_run _ _ i w HI Hd) as (md & E & T & Hp).
      cbv zeta in E, T. rewrite E, T.
      destruct (loop_timely (started_world (Some md) None (clicked i w)))
        as [Lk Lt].
      destruct (clicked_rest i w) as (_ & _ & _ & _ & Ck & _).
      split; [| split].
      * rewrite Lk. cbn [started_world browser set_listeners set_ticks clock].
        rewrite Ck. exact Hk.
      * intros _ _. exact Lt.
      * intros c dt Hin. apply in_app_or in Hin as [Hin | Hin]; [eauto |].
        repeat (rewrite calls_invoke in Hin || rewrite calls_read in Hin).
        rewrite redraw_calls in Hin.
        destruct Hin as [<- | []]. discriminate.
    + destruct (idle_dispatch e HI Hc) as [E T].
      rewrite (@noInit_phase _ _ _ (dispatch_noInit e Hc w)).
      split; [| split].
      * rewrite E. rewrite <- Hk.
        destruct w as [v [iw ih hs mn ls fr ck tk] m]. destruct e; reflexivity.
      * discriminate.
      * intros c dt Hin. apply in_app_or in Hin as [Hin | Hin]; [eauto |].
        rewrite T in Hin. destruct e; destruct Hin.
  - pose proof (session_no_click e HI Hd) as Hc.
    rewrite session_absorbs. specialize (Ht b eq_refl).
    destruct (isFrame e) eqn:Hf.
    + destruct e; try discriminate.
      destruct (session_frame HI) as [E T]. rewrite E, T.
      set (w0 := withBrowser (set_frameRequests 0) w).
      destruct (loop_timely w0) as [Lk Lt].
      assert (clock (browser w0) = clock (browser w)) as Hk0
        by (destruct w as [v [iw ih hs mn ls fr ck tk] m]; reflexivity).
      assert (timely w0) as Ht0
        by (destruct w as [v [iw ih hs mn ls fr ck tk] m]; exact Ht).
      split; [| split].
      * rewrite Lk, Hk0. exact Hk.
      * intros _ _. exact Lt.
      * intros c dt Hin. apply in_app_or in Hin as [Hin | Hin]; [eauto |].
        rewrite loop_calls in Hin.
        destruct (playing (this w0)); [| destruct Hin].
        intro Hs. rewrite <- Hk, <- Hk0.
        exact (frameCalls_gaps Ht0 Hin Hs).
    + destruct (dispatch_sameTime e Hc Hf w) as (S1 & S2 & S3).
      split; [| split].
      * rewrite S1. exact Hk.
      * intros _ _. unfold timely. rewrite S1, S2, S3. exact Ht.
      * intros c dt Hin. apply in_app_or in Hin as [Hin | Hin]; [eauto |].
        pose proof (forwards_calls e _ (dispatch_forwards e Hc Hf w)) as Hfw.
        rewrite forallb_forall in Hfw.
        rewrite (forwarding_step e c (Hfw c Hin)). discriminate.
Qed.

Lemma paced_init (p : Page) (m : M) :
  paced p (phaseOf (trace init (constructor p m))) (trace init (constructor p m))
    (exec init (constructor p m)).
Proof.
  pose proof (init_run p m) as H. cbv zeta in H.
  destruct (joining p).
  - destruct H as [E T]. rewrite E, T.
    match goal with
    | |- context [trace (start ?a ?b) ?x] =>
        destruct (start_run a b x) as [E' T']; rewrite E', T';
        destruct (loop_timely (started_world a b x)) as [Lk Lt];
        pose proof (loop_calls (started_world a b x)) as Lc
    end.
    split; [| split].
    + rewrite Lk. reflexivity.
    + intros _ _. exact Lt.
    + intros c dt Hin.
      repeat (rewrite calls_invoke in Hin || rewrite calls_read in Hin).
      rewrite Lc in Hin.
      cbn [started_world this set_prevTime playing sized] in Hin.
      destruct Hin as [<- | [<- | []]]; discriminate.
  - destruct H as [E T]. rewrite E, T. split; [| split].
    + destruct (page_menu p) as [mn |]; [| reflexivity].
      match goal with
      | |- context [exec (wireButtons ?i ?bs) ?x] =>
          pose proof (steady_wireButtons (R := sameTime) sameTime_refl
                        sameTime_trans bs i) as Hw
      end.
      edestruct Hw as (S1 & _); [| | rewrite S1; reflexivity];
        intro; apply steady_modify;
        intros [[? ? ? ? ?] [? ? ? ? ? ? ? ?] ?]; repeat split.
    + discriminate.
    + intros c dt Hin. destruct Hin as [<- | []]. discriminate.
Qed.

Lemma history_paced (p : Page) (m : M) (es : list Event) :
  wellFormed p m es = true ->
  paced p (phaseOf (history p m es)) (history p m es) (reached p m es).
Proof.
  apply (@reached_invariant _ _ (paced p)).
  - intros ph t e w. apply paced_step.
  - apply paced_init.
Qed.

(** X13.  Every time step the view passes to [updateBall] or
    [updateBats] is the time between two consecutive readings of the
    clock, and so is never negative when the clock does not run
    backwards. *)
Theorem steps_are_clock_gaps (p : Page) (m : M) (es : list Event) (c : Call)
    (dt : Z) :
  wellFormed p m es = true ->
  In c (calls (history p m es)) -> stepOf c = Some dt ->
  isGap (page_clock p) dt /\
  ((forall k, (page_clock p k <= page_clock p (S k))%Z) -> (0 <= dt)%Z).
Proof.
  intros Hwf Hin Hs.
  destruct (history_paced p m es Hwf) as (_ & _ & Hg).
  pose proof (Hg c dt Hin Hs) as [k ->].
  split; [exists k; reflexivity |].
  intro Hmono. specialize (Hmono k). lia.
Qed.

(** X14.  In a session [this.prevTime] is the latest reading of the
    clock: the step of the next frame is the time since the end of the
    previous frame, or since [start] when there was none. *)
Theorem prevTime_is_latest_reading (p : Page) (m : M) (es : list Event)
    (b : bool) :
  wellFormed p m es = true ->
  phaseOf (history p m es) = Session b ->
  let w := reached p m es in
  clock (browser w) = page_clock p /\
  1 <= ticks (browser w) /\
  prevTime (this w) = page_clock p (ticks (browser w) - 1).
Proof.
  intros Hwf Hph w.
  destruct (history_paced p m es Hwf) as (Hk & Ht & _).
  destruct (Ht b Hph) as [H1 H2]. fold w in Hk, H1, H2.
  rewrite <- Hk. repeat split; assumption.
Qed.
End Time.

(** ** The canvas and the window *)

Section Fit.
Context {M : Type} {PM : PongerModel M}.
Hypothesis dims : fixedDimensions.

Lemma sameFit_refl (w : World M) : sameFit w w.
Proof. repeat split. Qed.

Lemma sameFit_trans (a b c : World M) : sameFit a b -> sameFit b c -> sameFit a c.
Proof.
  unfold sameFit. intros (A1 & A2 & A3 & A4 & A5) (B1 & B2 & B3 & B4 & B5).
  repeat split; congruence.
Qed.

Lemma fitted_sameFit (w w' : World M) : sameFit w w' -> fitted w -> fitted w'.
Proof.
  unfold sameFit, fitted. intros (A1 & A2 & A3 & A4 & A5) H.
  rewrite A1, A2, A3, A4, A5. exact H.
Qed.

(** Closes the goals [forall w, sameFit w (f w)] that [steadying] leaves. *)
Ltac fits :=
  let Hc1 := fresh in let Hc2 := fresh in
  let Hr1 := fresh in let Hr2 := fresh in
  destruct dims as (Hc1 & Hc2 & Hr1 & Hr2);
  intros [[? ? ? ? ?] [? ? ? ? ? ? ? ?] ?]; unfold sameFit;
  cbn [this browser model withThis withBrowser withModel canvas innerWidth
       innerHeight set_started set_playing set_prevTime set_sound set_size
       set_hash set_menu set_listeners set_frameRequests set_ticks];
  repeat split;
  first [reflexivity | apply Hc1 | apply Hc2 | apply Hr1 | apply Hr2].

Lemma dispatch_sameFit (e : Event) :
  isResize e = false -> steady sameFit (dispatch e).
Proof.
  intro H. destruct e as [a c | k | k | k | | n | i | | x]; try discriminate H;
    steadying sameFit_refl sameFit_trans; fits.
Qed.

Lemma start_sameFit (mode roomHash : option string) :
  steady sameFit (start mode roomHash).
Proof. steadying sameFit_refl sameFit_trans; fits. Qed.

Lemma wireButtons_sameFit (i : nat) (bs : list string) :
  steady sameFit (wireButtons i bs).
Proof. steadying sameFit_refl sameFit_trans; fits. Qed.

Lemma init_fitted (p : Page) (m : M) : fitted (exec init (constructor p m)).
Proof.
  pose proof (init_run p m) as H. cbv zeta in H.
  destruct (joining p); destruct H as [E _]; rewrite E.
  - eapply fitted_sameFit; [apply start_sameFit | reflexivity].
  - destruct (page_menu p) as [mn |]; [| reflexivity].
    eapply fitted_sameFit; [apply wireButtons_sameFit | reflexivity].
Qed.

Lemma fitted_step (ph : Phase) (e : Event) (w : World M) :
  Inv ph w -> fitted w -> fitted (exec (dispatch e) w).
Proof.
  intros HI H. destruct (isResize e) eqn:Hr.
  - destruct e; try discriminate.
    destruct (resize_run w0 h HI) as [E _]. rewrite E.
    destruct w as [v [iw ih hs mn ls fr ck tk] m]. reflexivity.
  - exact (fitted_sameFit (dispatch_sameFit e Hr w) H).
Qed.

End Fit.

Section FitRuns.
Context {M : Type} {PM : PongerModel M}.

(** X15.  Provided no method of the model and no message of the peer
    changes the model's abstract dimensions, the canvas always holds what
    the canvas element keeps of the size [resizeCanvas] assigns for the
    window's current inner size. *)
Theorem canvas_fits_window (p : Page) (m : M) (es : list Event) :
  fixedDimensions ->
  wellFormed p m es = true ->
  let w := reached p m es in
  canvas (this w) =
    Resize.resizeCanvas (innerWidth (browser w)) (innerHeight (browser w))
      (abstractWidth (model w)) (abstractHeight (model w)).
Proof.
  intros dims Hwf. cbv zeta.
  apply (@reached_invariant _ _ (fun _ _ w => fitted w)).
  - intros ph t e w HI _. apply (fitted_step dims) with (ph := ph). exact HI.
  - apply init_fitted. exact dims.
  - exact Hwf.
Qed.
End FitRuns.

(** ** What a frame paints *)

Section Painting.
Context {M : Type} {PM : PongerModel M}.

Lemma scenic_ret {A} (a : A) : scenic (ret a).
Proof. intros w1 w2 _. repeat split. Qed.

Lemma scenic_gets {A} (f : World M -> A) :
  (forall w1 w2, sameScene w1 w2 -> f w1 = f w2) -> scenic (gets f).
Proof. intros H w1 w2 S. repeat split. exact (H w1 w2 S). Qed.

Lemma scenic_emit (e : Effect) : scenic (emit e).
Proof. intros w1 w2 _. repeat split. Qed.

Lemma sameScene_sym (w1 w2 : World M) : sameScene w1 w2 -> sameScene w2 w1.
Proof. intros [A B]. split; congruence. Qed.

Lemma scenic_bind {A B} (c : V A) (k : A -> V B) :
  scenic c -> (forall a, scenic (k a)) -> scenic (bind c k).
Proof.
  intros Hc Hk w1 w2 S.
  destruct (Hc w1 w2 S) as (V1 & T1 & E1).
  destruct (Hc w2 w1 (sameScene_sym S)) as (_ & _ & E2).
  rewrite !value_bind, !trace_bind, !exec_bind, E1, E2, V1, T1.
  destruct (Hk (value c w2) w1 w2 S) as (V3 & T3 & E3).
  rewrite V3, T3, E3. repeat split.
Qed.

Lemma scenic_when (b : bool) (c : V unit) : scenic c -> scenic (when b c).
Proof. intro H. destruct b; [exact H | apply scenic_ret]. Qed.

Ltac scene :=
  let S1 := fresh in
  let S2 := fresh in
  intros [? ? ?] [? ? ?] [S1 S2]; cbn in S1, S2; subst; reflexivity.

Ltac scenery :=
  repeat lazymatch goal with
    | |- scenic (bind _ _) => apply scenic_bind; [| intro]
    | |- scenic (ret _) => apply scenic_ret
    | |- scenic (gets _) => apply scenic_gets; scene
    | |- scenic (emit _) => apply scenic_emit
    | |- scenic (when _ _) => apply scenic_when
    | |- scenic (match ?x with _ => _ end) =>
        first [progress cbv beta iota | destruct x]
    | |- scenic ?c => let h := head c in unfold h
    end.

Lemma redraw_scenic : scenic redraw.
Proof. scenery. Qed.

Lemma advance_rendering (w : World M) : rendering (trace advance w) = [].
Proof.
  assert (emits noPaint advance) as H by effects.
  specialize (H w). induction (trace advance w) as [| x t IH]; [reflexivity |].
  cbn [forallb] in H. apply andb_prop in H as [Hx Ht].
  destruct x; try discriminate; exact (IH Ht).
Qed.

(** A frame of a session paints the scene its update calls have left. *)
Lemma frame_rendering (b : bool) (w : World M) :
  Inv (Session b) w ->
  rendering (trace (dispatch AnimationFrame) w) = rendering (trace redraw (shown w)).
Proof.
  intro HI. destruct (session_frame HI) as [_ T]. rewrite T, loop_trace.
  cbv zeta. rewrite rendering_app.
  set (w0 := withBrowser (set_frameRequests 0) w).
  set (w1 := withBrowser (fun b => set_frameRequests (S (frameRequests b)) b) w0).
  replace (playing (this w0)) with (playing (this w))
    by (destruct w as [v [iw ih hs mn ls fr ck tk] m]; reflexivity).
  unfold shown. destruct (playing (this w)).
  - rewrite advance_rendering. cbn [app].
    destruct (advance_run w1) as [E _]. rewrite E. f_equal.
    apply redraw_scenic.
    destruct w as [v [iw ih hs mn ls fr ck tk] m]. split; reflexivity.
  - unfold rendering. cbn [pick app]. f_equal. apply redraw_scenic.
    destruct w as [v [iw ih hs mn ls fr ck tk] m]. split; reflexivity.
Qed.

Lemma redraw_picture (w : World M) :
  (exists rest,
     rendering (trace redraw w) =
       ClearRect 0 0 (Resize.width (canvas (this w)))
         (Resize.height (canvas (this w))) :: rest) /\
  messages (rendering (trace redraw w)) =
    (if playing (this w) then [] else [value getInfoText w]) /\
  scores (rendering (trace redraw w)) =
    match points (model w) with
    | Some (l, r) => [l; r]
    | None => [0%Z; 0%Z]
    end.
Proof.
  unfold trace, value, redraw, drawLines, drawPoints, drawBat, drawBall,
    drawPausedInfo, getInfoText, pointsText, when.
  destruct (playing (this w)) eqn:Hp;
    destruct (points (model w)) as [[l r] |] eqn:Hq;
    do 8 (cbv beta iota zeta delta
            [bind gets emit ret paint fst snd app negb canvasWidth canvasHeight
             readPoints readLeftBat readRightBat readBall readAbstractWidth
             readAbstractHeight readState readStates rendering messages scores
             pick drawOf messageOf scoreOf];
          rewrite ?Hq, ?Hp;
          try match goal with
              | |- context [sameState ?a ?b] => destruct (sameState a b)
              end);
    (split; [eexists; reflexivity | split; reflexivity]).
Qed.
End Painting.

(** ** A window narrower than the margin *)

Section Narrow.
Local Open Scope Z_scope.

(** X16.  [resizeCanvas] does not clamp, and the canvas element does not
    take a negative size.  When the window's constraining dimension is
    less than the margin of 10, the number assigned to the canvas is
    negative and the element falls back to its default, 300 for the width
    and 150 for the height; at exactly 10 it holds 0. *)
Theorem narrow_window_falls_back (w h : Z) (aw ah : float) :
  let c := Resize.resizeCanvas w h aw ah in
  let d := if Resize.widthConstrains (number w) (number h) aw ah then w else h in
  0 <= d <= 10 ->
  if Resize.widthConstrains (number w) (number h) aw ah
  then Resize.width c = number (if w =? 10 then 0 else 300)
  else Resize.height c = number (if h =? 10 then 0 else 150).
Proof.
  cbv zeta.
  unfold Resize.resizeCanvas, Resize.assigned, Resize.widthConstrains.
  destruct (number w <? number h * (aw / ah))%float; intro Hd;
    cbn [Resize.stored Resize.width Resize.height].
  - assert (w = 0 \/ w = 1 \/ w = 2 \/ w = 3 \/ w = 4 \/ w = 5 \/ w = 6 \/
            w = 7 \/ w = 8 \/ w = 9 \/ w = 10) as C by lia.
    repeat (destruct C as [-> | C]; [vm_compute; reflexivity |]).
    subst w. vm_compute. reflexivity.
  - assert (h = 0 \/ h = 1 \/ h = 2 \/ h = 3 \/ h = 4 \/ h = 5 \/ h = 6 \/
            h = 7 \/ h = 8 \/ h = 9 \/ h = 10) as C by lia.
    repeat (destruct C as [-> | C]; [vm_compute; reflexivity |]).
    subst h. vm_compute. reflexivity.
Qed.
End Narrow.

(** ** Frames of a session, and the menu *)

Section SessionFrames.
Context {M : Type} {PM : PongerModel M}.

Lemma shown_this (w : World M) : this (shown w) = this w.
Proof. unfold shown. destruct (playing (this w)); reflexivity. Qed.

(** X19.  A frame of a session first clears the whole canvas, and what it
    paints then is the scene as the frame's own update calls have left
    it: the model is painted after [updateBall] and the calls that follow
    it, not before. *)
Theorem frame_paints_updated_model (p : Page) (m : M) (es : list Event)
    (b : bool) :
  wellFormed p m es = true ->
  phaseOf (history p m es) = Session b ->
  let w := reached p m es in
  rendering (trace (dispatch AnimationFrame) w) =
    rendering (trace redraw (shown w)) /\
  exists rest,
    rendering (trace (dispatch AnimationFrame) w) =
      ClearRect 0 0 (Resize.width (canvas (this w)))
        (Resize.height (canvas (this w))) :: rest.
Proof.
  intros Hwf Hph w.
  pose proof (reached_Inv p m es Hwf) as HI. rewrite Hph in HI. fold w in HI.
  rewrite (frame_rendering HI). split; [reflexivity |].
  destruct (redraw_picture (shown w)) as ((rest & Hr) & _).
  rewrite shown_this in Hr. exists rest. exact Hr.
Qed.

(** X20.  A frame of a session paints a message exactly when the view is
    paused, and the message is the one [getInfoText] returns. *)
Theorem pause_message_iff_paused (p : Page) (m : M) (es : list Event)
    (b : bool) :
  wellFormed p m es = true ->
  phaseOf (history p m es) = Session b ->
  let w := reached p m es in
  messages (rendering (trace (dispatch AnimationFrame) w)) =
    if playing (this w) then [] else [value getInfoText w].
Proof.
  intros Hwf Hph w.
  pose proof (reached_Inv p m es Hwf) as HI. rewrite Hph in HI. fold w in HI.
  rewrite (frame_rendering HI).
  destruct (redraw_picture (shown w)) as (_ & Hm & _).
  rewrite Hm, shown_this. unfold shown.
  destruct (playing (this w)); reflexivity.
Qed.

(** X21.  Every frame of a session paints two scores, the left one
    first: [points[0]] and [points[1]] of the model as the frame's update
    calls have left it, or 0 and 0 when [points] is missing. *)
Theorem frame_paints_scores (p : Page) (m : M) (es : list Event) (b : bool) :
  wellFormed p m es = true ->
  phaseOf (history p m es) = Session b ->
  let w := reached p m es in
  scores (rendering (trace (dispatch AnimationFrame) w)) =
    match points (model (shown w)) with
    | Some (l, r) => [l; r]
    | None => [0%Z; 0%Z]
    end.
Proof.
  intros Hwf Hph w.
  pose proof (reached_Inv p m es Hwf) as HI. rewrite Hph in HI. fold w in HI.
  rewrite (frame_rendering HI).
  apply (redraw_picture (shown w)).
Qed.

(** X22.  At most one frame callback is pending at any time: none before
    a session opens, exactly one during a session, and an animation frame
    leaves the number as it is.  The loop neither stops nor runs at
    double speed. *)
Theorem one_frame_pending (p : Page) (m : M) (es : list Event) :
  wellFormed p m es = true ->
  let w := reached p m es in
  frameRequests (browser w) =
    match phaseOf (history p m es) with Idle => 0 | _ => 1 end /\
  frameRequests (browser (exec (dispatch AnimationFrame) w)) =
    frameRequests (browser w).
Proof.
  intros Hwf w.
  pose proof (reached_Inv p m es Hwf) as HI. fold w in HI.
  destruct (phaseOf (history p m es)) as [| | v | b];
    [| exact (False_ind _ (proj2 HI)) | exact (False_ind _ (proj2 HI)) |].
  - destruct (idle_dispatch AnimationFrame HI eq_refl) as [E _]. rewrite E.
    destruct HI as (_ & _ & Hf & _). rewrite Hf. split; reflexivity.
  - destruct (session_frame HI) as [E _]. rewrite E.
    destruct (loop_keeps (withBrowser (set_frameRequests 0) w)) as (_ & F & _).
    unfold fixture in F. injection F as _ _ F3 _. rewrite F3.
    destruct HI as (_ & Hf & _). rewrite Hf. split; reflexivity.
Qed.

Lemma wireButtons_focus (bs : list string) (i : nat) (w : World M) :
  menu (browser (exec (wireButtons i bs) w)) =
    match bs with
    | [] => menu (browser w)
    | _ :: _ =>
        if Nat.eqb i 0 then option_map (set_focused (Some 0)) (menu (browser w))
        else menu (browser w)
    end.
Proof.
  revert i w. induction bs as [| b bs IH]; intros i w; [reflexivity |].
  cbn [wireButtons]. rewrite !exec_bind, exec_when, (IH (S i)).
  destruct w as [v [iw ih hs mn ls fr ck tk] m].
  destruct bs as [| b' bs]; destruct i; reflexivity.
Qed.

(** X23.  Opened without a room in the URL, a page with a menu shows the
    menu, gives the focus to its first button and registers one [click]
    listener per button, in order, after the [resize] listener. *)
Theorem init_wires_menu (p : Page) (m : M) (mn : Menu) :
  joining p = false ->
  page_menu p = Some mn ->
  let w := exec init (constructor p m) in
  menu (browser w) =
    Some {| hidden := false;
            buttons := buttons mn;
            focused := match buttons mn with
                       | [] => focused mn
                       | _ :: _ => Some 0
                       end |} /\
  listeners (browser w) =
    OnResize :: map OnClick (seq 0 (List.length (buttons mn))).
Proof.
  intros Hj Hmn w. subst w.
  pose proof (init_run p m) as H. cbv zeta in H. rewrite Hj, Hmn in H.
  destruct H as [E _]. rewrite E. split.
  - rewrite wireButtons_focus. unfold sized.
    cbn [withBrowser browser menu set_menu option_map]. rewrite Hmn.
    destruct mn as [hd bs fc]. destruct bs; reflexivity.
  - match goal with
    | |- context [exec (wireButtons 0 ?bs) ?x] =>
        destruct (wireButtons_run bs 0 x) as (_ & _ & _ & L & _)
    end.
    rewrite L. reflexivity.
Qed.
End SessionFrames.

(** ** The further properties at work *)

Lemma click_opens_session_witness :
  wellFormed Toy.menuPage Toy.newcomer [] = true /\
  phaseOf (history Toy.menuPage Toy.newcomer []) = Idle /\
  menu (browser (reached Toy.menuPage Toy.newcomer [])) = Some Scenes.shownMenu /\
  nth_error (buttons Scenes.shownMenu) 0 = Some "singleplayer"%string /\
  (let w := reached Toy.menuPage Toy.newcomer [] in
   let w' := exec (dispatch (Click 0)) w in
   calls (trace (dispatch (Click 0)) w) = [CInit (Some "singleplayer"%string) None] /\
   model w' = model_init (Some "singleplayer"%string) None (model w) /\
   option_map hidden (menu (browser w')) = Some true /\
   frameRequests (browser w') = 1 /\
   playing (this w') = false /\
   phaseOf (history Toy.menuPage Toy.newcomer [] ++ trace (dispatch (Click 0)) w) =
     Session (offline (model w'))).
Proof.
  assert (wellFormed Toy.menuPage Toy.newcomer [] = true) as H1
    by (vm_compute; reflexivity).
  assert (phaseOf (history Toy.menuPage Toy.newcomer []) = Idle) as H2
    by (vm_compute; reflexivity).
  assert (menu (browser (reached Toy.menuPage Toy.newcomer [])) =
            Some Scenes.shownMenu) as H3 by (vm_compute; reflexivity).
  assert (nth_error (buttons Scenes.shownMenu) 0 = Some "singleplayer"%string)
    as H4 by reflexivity.
  split; [exact H1 |]. split; [exact H2 |]. split; [exact H3 |].
  split; [exact H4 |].
  exact (@click_opens_session _ _ Toy.menuPage Toy.newcomer [] 0
           Scenes.shownMenu "singleplayer"%string H1 H2 H3 H4).
Defined.

Lemma keys_forwarded_once_witness :
  wellFormed Toy.menuPage Toy.newcomer Toy.offlineRun = true /\
  phaseOf (history Toy.menuPage Toy.newcomer Toy.offlineRun) = Session true /\
  (let w := reached Toy.menuPage Toy.newcomer Toy.offlineRun in
   trace (dispatch (KeyDown 38)) w = [Invoke (CKeyDown 38)] /\
   exec (dispatch (KeyDown 38)) w = withModel (keyDown 38) w /\
   trace (dispatch (KeyUp 38)) w = [Invoke (CKeyUp 38)] /\
   exec (dispatch (KeyUp 38)) w = withModel (keyUp 38) w).
Proof.
  assert (wellFormed Toy.menuPage Toy.newcomer Toy.offlineRun = true) as H1
    by (vm_compute; reflexivity).
  assert (phaseOf (history Toy.menuPage Toy.newcomer Toy.offlineRun) =
            Session true) as H2 by (vm_compute; reflexivity).
  split; [exact H1 |]. split; [exact H2 |].
  exact (@keys_forwarded_once _ _ Toy.menuPage Toy.newcomer Toy.offlineRun true
           38%Z H1 H2).
Defined.

Lemma idle_ignores_witness :
  wellFormed Toy.menuPage Toy.newcomer [] = true /\
  phaseOf (history Toy.menuPage Toy.newcomer []) = Idle /\
  forSession (KeyPress 32) = true /\
  exec (dispatch (KeyPress 32)) (reached Toy.menuPage Toy.newcomer []) =
    reached Toy.menuPage Toy.newcomer [] /\
  trace (dispatch (KeyPress 32)) (reached Toy.menuPage Toy.newcomer []) = [].
Proof.
  assert (wellFormed Toy.menuPage Toy.newcomer [] = true) as H1
    by (vm_compute; reflexivity).
  assert (phaseOf (history Toy.menuPage Toy.newcomer []) = Idle) as H2
    by (vm_compute; reflexivity).
  split; [exact H1 |]. split; [exact H2 |]. split; [reflexivity |].
  exact (@idle_ignores _ _ Toy.menuPage Toy.newcomer [] (KeyPress 32) H1 H2
           eq_refl).
Defined.

Lemma blur_ignored_online_witness :
  wellFormed Toy.menuPage Toy.newcomer Toy.hostRun = true /\
  phaseOf (history Toy.menuPage Toy.newcomer Toy.hostRun) = Session false /\
  exec (dispatch Blur) (reached Toy.menuPage Toy.newcomer Toy.hostRun) =
    reached Toy.menuPage Toy.newcomer Toy.hostRun /\
  trace (dispatch Blur) (reached Toy.menuPage Toy.newcomer Toy.hostRun) = [].
Proof.
  assert (wellFormed Toy.menuPage Toy.newcomer Toy.hostRun = true) as H1
    by (vm_compute; reflexivity).
  assert (phaseOf (history Toy.menuPage Toy.newcomer Toy.hostRun) =
            Session false) as H2 by (vm_compute; reflexivity).
  split; [exact H1 |]. split; [exact H2 |].
  exact (@blur_ignored_online _ _ Toy.menuPage Toy.newcomer Toy.hostRun H1 H2).
Defined.

Lemma resize_refits_witness :
  wellFormed Toy.menuPage Toy.newcomer Toy.offlineRun = true /\
  (let w := reached Toy.menuPage Toy.newcomer Toy.offlineRun in
   exec (dispatch (Resize 1024 768)) w =
     withThis (set_canvas (Resize.resizeCanvas 1024 768
                             (abstractWidth (model w))
                             (abstractHeight (model w))))
       (withBrowser (set_size 1024 768) w) /\
   trace (dispatch (Resize 1024 768)) w =
     [Read F_abstractWidth (VNum (abstractWidth (model w)));
      Read F_abstractHeight (VNum (abstractHeight (model w)))]).
Proof.
  assert (wellFormed Toy.menuPage Toy.newcomer Toy.offlineRun = true) as H1
    by (vm_compute; reflexivity).
  split; [exact H1 |].
  exact (@resize_refits _ _ Toy.menuPage Toy.newcomer Toy.offlineRun
           1024%Z 768%Z H1).
Defined.

Lemma other_keys_ignored_witness :
  13%Z <> 32%Z /\
  exec (dispatch (KeyPress 13)) Scenes.going = Scenes.going /\
  trace (dispatch (KeyPress 13)) Scenes.going = [].
Proof.
  assert (13%Z <> 32%Z) as H by discriminate.
  split; [exact H |].
  exact (@other_keys_ignored _ _ 13%Z Scenes.going H).
Defined.

Lemma hash_written_on_open_room_only_witness :
  existsb isOpenRoom Toy.offlineRun = false /\
  hash (browser (exec (session Toy.offlineRun)
                   (constructor Toy.menuPage Toy.newcomer))) =
    hash (browser (constructor Toy.menuPage Toy.newcomer)).
Proof.
  split; [reflexivity |].
  exact (@hash_written_on_open_room_only _ _ Toy.offlineRun
           (constructor Toy.menuPage Toy.newcomer) eq_refl).
Defined.

Lemma playing_set_by_few_witness :
  existsb setsPlaying Scenes.quietRun = false /\
  playing (this (exec (run Scenes.quietRun) Scenes.going)) =
    playing (this Scenes.going).
Proof.
  split; [reflexivity |].
  exact (@playing_set_by_few _ _ Scenes.quietRun Scenes.going eq_refl).
Defined.

Lemma start_prompt_only_before_start_witness :
  started (this Scenes.going) = true /\
  started (this (exec (run Scenes.pausedRun) Scenes.going)) = true /\
  value getInfoText (exec (run Scenes.pausedRun) Scenes.going) <> startPrompt.
Proof.
  assert (started (this Scenes.going) = true) as H by (vm_compute; reflexivity).
  split; [exact H |].
  exact (@start_prompt_only_before_start _ _ Scenes.pausedRun Scenes.going H).
Defined.

Lemma call_protocol_witness :
  wellFormed Toy.menuPage Toy.newcomer Scenes.playedRun = true /\
  protocol (phaseOf (history Toy.menuPage Toy.newcomer Scenes.playedRun))
    (calls (history Toy.menuPage Toy.newcomer Scenes.playedRun)).
Proof.
  assert (wellFormed Toy.menuPage Toy.newcomer Scenes.playedRun = true) as H1
    by (vm_compute; reflexivity).
  split; [exact H1 |].
  exact (@call_protocol _ _ Toy.menuPage Toy.newcomer Scenes.playedRun H1).
Defined.

Lemma idle_paints_nothing_witness :
  wellFormed Toy.menuPage Toy.newcomer Scenes.idleRun = true /\
  phaseOf (history Toy.menuPage Toy.newcomer Scenes.idleRun) = Idle /\
  rendering (history Toy.menuPage Toy.newcomer Scenes.idleRun) = [] /\
  playbacks (history Toy.menuPage Toy.newcomer Scenes.idleRun) = [].
Proof.
  assert (wellFormed Toy.menuPage Toy.newcomer Scenes.idleRun = true) as H1
    by (vm_compute; reflexivity).
  assert (phaseOf (history Toy.menuPage Toy.newcomer Scenes.idleRun) = Idle)
    as H2 by (vm_compute; reflexivity).
  split; [exact H1 |]. split; [exact H2 |].
  exact (@idle_paints_nothing _ _ Toy.menuPage Toy.newcomer Scenes.idleRun H1 H2).
Defined.

Lemma steps_are_clock_gaps_witness :
  wellFormed Toy.menuPage Toy.newcomer Scenes.playedRun = true /\
  In (CUpdateBall 16) (calls (history Toy.menuPage Toy.newcomer Scenes.playedRun)) /\
  stepOf (CUpdateBall 16) = Some 16%Z /\
  isGap (page_clock Toy.menuPage) 16 /\
  ((forall k, (page_clock Toy.menuPage k <= page_clock Toy.menuPage (S k))%Z) ->
   (0 <= 16)%Z).
Proof.
  assert (wellFormed Toy.menuPage Toy.newcomer Scenes.playedRun = true) as H1
    by (vm_compute; reflexivity).
  assert (In (CUpdateBall 16)
            (calls (history Toy.menuPage Toy.newcomer Scenes.playedRun))) as H2
    by (vm_compute; right; right; left; reflexivity).
  split; [exact H1 |]. split; [exact H2 |]. split; [reflexivity |].
  exact (@steps_are_clock_gaps _ _ Toy.menuPage Toy.newcomer Scenes.playedRun
           (CUpdateBall 16) 16%Z H1 H2 eq_refl).
Defined.

Lemma prevTime_is_latest_reading_witness :
  wellFormed Toy.menuPage Toy.newcomer Toy.offlineRun = true /\
  phaseOf (history Toy.menuPage Toy.newcomer Toy.offlineRun) = Session true /\
  (let w := reached Toy.menuPage Toy.newcomer Toy.offlineRun in
   clock (browser w) = page_clock Toy.menuPage /\
   1 <= ticks (browser w) /\
   prevTime (this w) = page_clock Toy.menuPage (ticks (browser w) - 1)).
Proof.
  assert (wellFormed Toy.menuPage Toy.newcomer Toy.offlineRun = true) as H1
    by (vm_compute; reflexivity).
  assert (phaseOf (history Toy.menuPage Toy.newcomer Toy.offlineRun) =
            Session true) as H2 by (vm_compute; reflexivity).
  split; [exact H1 |]. split; [exact H2 |].
  exact (@prevTime_is_latest_reading _ _ Toy.menuPage Toy.newcomer Toy.offlineRun
           true H1 H2).
Defined.

Lemma canvas_fits_window_witness :
  @fixedDimensions Toy.T Toy.model /\
  wellFormed Toy.menuPage Toy.newcomer Scenes.resizedRun = true /\
  (let w := reached Toy.menuPage Toy.newcomer Scenes.resizedRun in
   canvas (this w) =
     Resize.resizeCanvas (innerWidth (browser w)) (innerHeight (browser w))
       (abstractWidth (model w)) (abstractHeight (model w))).
Proof.
  assert (@fixedDimensions Toy.T Toy.model) as H0
    by (repeat split; intros; reflexivity).
  assert (wellFormed Toy.menuPage Toy.newcomer Scenes.resizedRun = true) as H1
    by (vm_compute; reflexivity).
  split; [exact H0 |]. split; [exact H1 |].
  exact (@canvas_fits_window _ _ Toy.menuPage Toy.newcomer Scenes.resizedRun
           H0 H1).
Defined.

Lemma frame_paints_updated_model_witness :
  wellFormed Toy.menuPage Toy.newcomer Toy.offlineRun = true /\
  phaseOf (history Toy.menuPage Toy.newcomer Toy.offlineRun) = Session true /\
  (let w := reached Toy.menuPage Toy.newcomer Toy.offlineRun in
   rendering (trace (dispatch AnimationFrame) w) =
     rendering (trace redraw (shown w)) /\
   exists rest,
     rendering (trace (dispatch AnimationFrame) w) =
       ClearRect 0 0 (Resize.width (canvas (this w)))
         (Resize.height (canvas (this w))) :: rest).
Proof.
  assert (wellFormed Toy.menuPage Toy.newcomer Toy.offlineRun = true) as H1
    by (vm_compute; reflexivity).
  assert (phaseOf (history Toy.menuPage Toy.newcomer Toy.offlineRun) =
            Session true) as H2 by (vm_compute; reflexivity).
  split; [exact H1 |]. split; [exact H2 |].
  exact (@frame_paints_updated_model _ _ Toy.menuPage Toy.newcomer
           Toy.offlineRun true H1 H2).
Defined.

Lemma pause_message_iff_paused_witness :
  wellFormed Toy.menuPage Toy.newcomer Toy.hostRun = true /\
  phaseOf (history Toy.menuPage Toy.newcomer Toy.hostRun) = Session false /\
  (let w := reached Toy.menuPage Toy.newcomer Toy.hostRun in
   messages (rendering (trace (dispatch AnimationFrame) w)) =
     if playing (this w) then [] else [value getInfoText w]).
Proof.
  assert (wellFormed Toy.menuPage Toy.newcomer Toy.hostRun = true) as H1
    by (vm_compute; reflexivity).
  assert (phaseOf (history Toy.menuPage Toy.newcomer Toy.hostRun) =
            Session false) as H2 by (vm_compute; reflexivity).
  split; [exact H1 |]. split; [exact H2 |].
  exact (@pause_message_iff_paused _ _ Toy.menuPage Toy.newcomer Toy.hostRun
           false H1 H2).
Defined.

Lemma frame_paints_scores_witness :
  wellFormed Toy.menuPage Toy.newcomer Toy.offlineRun = true /\
  phaseOf (history Toy.menuPage Toy.newcomer Toy.offlineRun) = Session true /\
  (let w := reached Toy.menuPage Toy.newcomer Toy.offlineRun in
   scores (rendering (trace (dispatch AnimationFrame) w)) =
     match points (model (shown w)) with
     | Some (l, r) => [l; r]
     | None => [0%Z; 0%Z]
     end).
Proof.
  assert (wellFormed Toy.menuPage Toy.newcomer Toy.offlineRun = true) as H1
    by (vm_compute; reflexivity).
  assert (phaseOf (history Toy.menuPage Toy.newcomer Toy.offlineRun) =
            Session true) as H2 by (vm_compute; reflexivity).
  split; [exact H1 |]. split; [exact H2 |].
  exact (@frame_paints_scores _ _ Toy.menuPage Toy.newcomer Toy.offlineRun
           true H1 H2).
Defined.

Lemma one_frame_pending_witness :
  wellFormed Toy.menuPage Toy.newcomer Scenes.playedRun = true /\
  (let w := reached Toy.menuPage Toy.newcomer Scenes.playedRun in
   frameRequests (browser w) =
     match phaseOf (history Toy.menuPage Toy.newcomer Scenes.playedRun) with
     | Idle => 0
     | _ => 1
     end /\
   frameRequests (browser (exec (dispatch AnimationFrame) w)) =
     frameRequests (browser w)).
Proof.
  assert (wellFormed Toy.menuPage Toy.newcomer Scenes.playedRun = true) as H1
    by (vm_compute; reflexivity).
  split; [exact H1 |].
  exact (@one_frame_pending _ _ Toy.menuPage Toy.newcomer Scenes.playedRun H1).
Defined.

Lemma init_wires_menu_witness :
  joining Toy.menuPage = false /\
  page_menu Toy.menuPage = Some Scenes.pageMenu /\
  (let w := exec init (constructor Toy.menuPage Toy.newcomer) in
   menu (browser w) =
     Some {| hidden := false;
             buttons := buttons Scenes.pageMenu;
             focused := match buttons Scenes.pageMenu with
                        | [] => focused Scenes.pageMenu
                        | _ :: _ => Some 0
                        end |} /\
   listeners (browser w) =
     OnResize :: map OnClick (seq 0 (List.length (buttons Scenes.pageMenu)))).
Proof.
  split; [reflexivity |]. split; [reflexivity |].
  exact (@init_wires_menu _ _ Toy.menuPage Toy.newcomer Scenes.pageMenu
           eq_refl eq_refl).
Defined.

Lemma narrow_window_falls_back_witness :
  (0 <= (if Resize.widthConstrains (number 8) (number 100) 200 100
         then 8 else 100) <= 10)%Z /\
  (let c := Resize.resizeCanvas 8 100 200 100 in
   if Resize.widthConstrains (number 8) (number 100) 200 100
   then Resize.width c = number (if (8 =? 10)%Z then 0 else 300)
   else Resize.height c = number (if (100 =? 10)%Z then 0 else 150)) /\
  Resize.resizeCanvas 8 100 200 100 =
    {| Resize.width := 300%float; Resize.height := 150%float |}.
Proof.
  assert (0 <= (if Resize.widthConstrains (number 8) (number 100) 200 100
                then 8 else 100) <= 10)%Z as H
    by (vm_compute; split; discriminate).
  split; [exact H |]. split.
  - exact (@narrow_window_falls_back 8 100 200%float 100%float H).
  - vm_compute. reflexivity.
Defined.
